(** * Sitemap generation and caching

    A shallow embedding of the sitemap controller of the backend
    (controllers/sitemapController.js, the last part of
    routes/healthRoutes.js): [urlEntry], [escapeXml], [buildSitemapXml]
    and [serveSitemap], together with the parts of the JavaScript runtime
    they call: String.prototype.replaceAll, replace and split,
    Array.prototype.join, encodeURIComponent, Date.prototype.toISOString
    and Number(string), each after ECMA-262.

    JavaScript strings are sequences of UTF-16 code units; a code unit is
    a [Z] in the range 0 .. 65535. Functions that can throw return a
    [result]; the handler and the builder run in a monad over the state
    of the process. *)

From Stdlib Require Import ZArith List String Ascii Bool Lia QArith Qround.
Import ListNotations.
Local Open Scope Z_scope.

(** ** Strings *)

Definition jsstring := list Z.

(** An ASCII literal of the source as a sequence of code units. *)
Fixpoint lit (s : string) : jsstring :=
  match s with
  | EmptyString => []
  | String a r => Z.of_N (N_of_ascii a) :: lit r
  end.

Definition NL : jsstring := [10].       (* line feed, "\n" *)
Definition DQ : jsstring := [34].       (* the double quote character *)

Definition c_amp  : Z := 38.   (* & *)
Definition c_lt   : Z := 60.   (* < *)
Definition c_gt   : Z := 62.   (* > *)
Definition c_quot : Z := 34.   (* double quote *)
Definition c_apos : Z := 39.   (* ' *)
Definition c_slash : Z := 47.  (* / *)

(** A string is truthy when it is not empty. *)
Definition truthy (s : jsstring) : bool :=
  match s with [] => false | _ :: _ => true end.

(** [str.replaceAll(pat, rep)] for a search string of one code unit, which
    is what all five call sites of [escapeXml] pass. *)
Fixpoint replaceAll (pat : Z) (rep : jsstring) (str : jsstring) : jsstring :=
  match str with
  | [] => []
  | c :: rest =>
      (if c =? pat then rep else [c]) ++ replaceAll pat rep rest
  end.

(** [str.replace(/\/$/, "")]: one trailing slash, if there is one, is
    removed. *)
Fixpoint strip_trailing_slash (str : jsstring) : jsstring :=
  match str with
  | [] => []
  | c :: rest =>
      match rest with
      | [] => if c =? c_slash then [] else [c]
      | _ :: _ => c :: strip_trailing_slash rest
      end
  end.

(** [arr.join(sep)] *)
Fixpoint join (sep : jsstring) (items : list jsstring) : jsstring :=
  match items with
  | [] => []
  | x :: rest =>
      match rest with
      | [] => x
      | _ :: _ => x ++ sep ++ join sep rest
      end
  end.

(** [str.split(",")] *)
Fixpoint split_on (sep : Z) (str : jsstring) : list jsstring :=
  match str with
  | [] => [[]]
  | c :: rest =>
      if c =? sep then [] :: split_on sep rest
      else match split_on sep rest with
           | [] => [[c]]
           | w :: ws => (c :: w) :: ws
           end
  end.

(** ** escapeXml *)

(** [String(str)] changes nothing: every caller passes a string. *)
Definition escapeXml (str : jsstring) : jsstring :=
  replaceAll c_apos (lit "&apos;")
    (replaceAll c_quot (lit "&quot;")
      (replaceAll c_gt (lit "&gt;")
        (replaceAll c_lt (lit "&lt;")
          (replaceAll c_amp (lit "&amp;") str)))).

(** ** Exceptions and results *)

(** The exceptions that can reach the [catch] of [serveSitemap]; each
    carries its [message]. [CatalogError] is whatever the catalog query
    rejects with. *)
Inductive exn : Type :=
| TypeError (message : jsstring)
| RangeError (message : jsstring)
| URIError (message : jsstring)
| CatalogError (message : jsstring).

Definition message (e : exn) : jsstring :=
  match e with
  | TypeError m | RangeError m | URIError m | CatalogError m => m
  end.

Inductive result (A : Type) : Type :=
| Ok (a : A)
| Throw (e : exn).
Arguments Ok {A} a.
Arguments Throw {A} e.

Definition rbind {A B} (r : result A) (k : A -> result B) : result B :=
  match r with
  | Ok a => k a
  | Throw e => Throw e
  end.

Declare Scope result_scope.
Delimit Scope result_scope with result.
Notation "x <- r ;; k" := (rbind r (fun x => k))
  (at level 61, r at next level, right associativity) : result_scope.

(** A [for ... of] loop that pushes one value per element: the first
    exception ends the loop. *)
Fixpoint for_of {A B} (f : A -> result B) (l : list A) : result (list B) :=
  match l with
  | [] => Ok []
  | a :: rest =>
      (b <- f a ;; bs <- for_of f rest ;; Ok (b :: bs))%result
  end.

(** ** encodeURIComponent (ECMA-262, Encode with an empty extra set) *)

Definition in_range (lo hi c : Z) : bool := (lo <=? c) && (c <=? hi).

(** The code units left as they are: ASCII letters, digits, and
    [_ - . ! ~ * ' ( )]. *)
Definition uri_unescaped (c : Z) : bool :=
  in_range 65 90 c || in_range 97 122 c || in_range 48 57 c
  || (c =? 95) || (c =? 45) || (c =? 46) || (c =? 33) || (c =? 126)
  || (c =? 42) || (c =? 39) || (c =? 40) || (c =? 41).

Definition is_leading_surrogate (c : Z) : bool := in_range 55296 56319 c.
Definition is_trailing_surrogate (c : Z) : bool := in_range 56320 57343 c.

Definition hex_digit (d : Z) : Z := if d <? 10 then 48 + d else 55 + d.

(** "%" followed by the two upper-case hexadecimal digits of the octet *)
Definition percent_octet (o : Z) : jsstring :=
  [37; hex_digit (o / 16); hex_digit (o mod 16)].

Definition utf8_octets (cp : Z) : list Z :=
  if cp <? 128 then [cp]
  else if cp <? 2048 then [192 + cp / 64; 128 + cp mod 64]
  else if cp <? 65536 then
    [224 + cp / 4096; 128 + (cp / 64) mod 64; 128 + cp mod 64]
  else
    [240 + cp / 262144; 128 + (cp / 4096) mod 64;
     128 + (cp / 64) mod 64; 128 + cp mod 64].

Definition percent_encode (cp : Z) : jsstring :=
  flat_map percent_octet (utf8_octets cp).

Definition surrogate_pair_to_code_point (lead trail : Z) : Z :=
  (lead - 55296) * 1024 + (trail - 56320) + 65536.

Definition URI_malformed : exn := URIError (lit "URI malformed").

Fixpoint encodeURIComponent (str : jsstring) : result jsstring :=
  match str with
  | [] => Ok []
  | c :: rest =>
      if uri_unescaped c then
        rbind (encodeURIComponent rest) (fun r => Ok (c :: r))
      else if is_trailing_surrogate c then Throw URI_malformed
      else if is_leading_surrogate c then
        match rest with
        | [] => Throw URI_malformed
        | c2 :: rest2 =>
            if is_trailing_surrogate c2 then
              rbind (encodeURIComponent rest2) (fun r =>
                Ok (percent_encode (surrogate_pair_to_code_point c c2) ++ r))
            else Throw URI_malformed
        end
      else
        rbind (encodeURIComponent rest) (fun r => Ok (percent_encode c ++ r))
  end.

(** ** Date objects and toISOString (ECMA-262, 21.4.1 and 21.4.4.36) *)

(** A Date object holds a time value: milliseconds since the epoch, or
    NaN for an invalid date. *)
Inductive Date : Type :=
| InvalidDate
| DateOf (tv : Z).

(** TimeClip: a time value beyond 8.64e15 ms from the epoch is NaN. *)
Definition maxTime : Z := 8640000000000000.

(** [new Date(value)] for a Date object [value] *)
Definition new_Date (value : Date) : Date :=
  match value with
  | InvalidDate => InvalidDate
  | DateOf tv => if Z.abs tv <=? maxTime then DateOf tv else InvalidDate
  end.

Definition msPerDay : Z := 86400000.
Definition Day (t : Z) : Z := t / msPerDay.
Definition TimeWithinDay (t : Z) : Z := t mod msPerDay.

Definition DayFromYear (y : Z) : Z :=
  365 * (y - 1970) + (y - 1969) / 4 - (y - 1901) / 100 + (y - 1601) / 400.

Definition DaysInYear (y : Z) : Z :=
  if negb (y mod 4 =? 0) then 365
  else if negb (y mod 100 =? 0) then 366
  else if negb (y mod 400 =? 0) then 365
  else 366.

(** The largest [y] with [DayFromYear y <= Day t]: an estimate from the
    mean length of a year, corrected by at most one. *)
Definition YearFromTime (t : Z) : Z :=
  let d := Day t in
  let y := 1970 + (d * 400) / 146097 in
  if d <? DayFromYear y then y - 1
  else if DayFromYear (y + 1) <=? d then y + 1
  else y.

Definition DayWithinYear (t : Z) : Z := Day t - DayFromYear (YearFromTime t).
Definition InLeapYear (t : Z) : Z :=
  if DaysInYear (YearFromTime t) =? 366 then 1 else 0.

(** Month number, 0 = January *)
Definition MonthFromTime (t : Z) : Z :=
  let d := DayWithinYear t in
  let leap := InLeapYear t in
  if d <? 31 then 0
  else if d <? 59 + leap then 1
  else if d <? 90 + leap then 2
  else if d <? 120 + leap then 3
  else if d <? 151 + leap then 4
  else if d <? 181 + leap then 5
  else if d <? 212 + leap then 6
  else if d <? 243 + leap then 7
  else if d <? 273 + leap then 8
  else if d <? 304 + leap then 9
  else if d <? 334 + leap then 10
  else 11.

(** Day of the month, 1 .. 31 *)
Definition DateFromTime (t : Z) : Z :=
  let d := DayWithinYear t in
  let leap := InLeapYear t in
  match MonthFromTime t with
  | 0 => d + 1
  | 1 => d - 30
  | 2 => d - 58 - leap
  | 3 => d - 89 - leap
  | 4 => d - 119 - leap
  | 5 => d - 150 - leap
  | 6 => d - 180 - leap
  | 7 => d - 211 - leap
  | 8 => d - 242 - leap
  | 9 => d - 272 - leap
  | 10 => d - 303 - leap
  | _ => d - 333 - leap
  end.

Definition HourFromTime (t : Z) : Z := (t / 3600000) mod 24.
Definition MinFromTime (t : Z) : Z := (t / 60000) mod 60.
Definition SecFromTime (t : Z) : Z := (t / 1000) mod 60.
Definition msFromTime (t : Z) : Z := t mod 1000.

(** The [w] low decimal digits of [n], most significant first *)
Fixpoint decimal (w : nat) (n : Z) : jsstring :=
  match w with
  | O => []
  | S w' => decimal w' (n / 10) ++ [48 + n mod 10]
  end.

(** Four digits for the years 0 .. 9999, otherwise a sign and six digits *)
Definition iso_year (y : Z) : jsstring :=
  if in_range 0 9999 y then decimal 4 y
  else (if 0 <=? y then lit "+" else lit "-") ++ decimal 6 (Z.abs y).

Definition iso_date (t : Z) : jsstring :=
  iso_year (YearFromTime t) ++ lit "-" ++ decimal 2 (MonthFromTime t + 1)
  ++ lit "-" ++ decimal 2 (DateFromTime t).

Definition iso_time (t : Z) : jsstring :=
  decimal 2 (HourFromTime t) ++ lit ":" ++ decimal 2 (MinFromTime t)
  ++ lit ":" ++ decimal 2 (SecFromTime t) ++ lit "." ++ decimal 3 (msFromTime t).

Definition Invalid_time_value : exn := RangeError (lit "Invalid time value").

Definition toISOString (d : Date) : result jsstring :=
  match d with
  | InvalidDate => Throw Invalid_time_value
  | DateOf t => Ok (iso_date t ++ lit "T" ++ iso_time t ++ lit "Z")
  end.

(** [str.split("T")[0]]: the part before the first "T" *)
Fixpoint split_T_0 (str : jsstring) : jsstring :=
  match str with
  | [] => []
  | c :: rest => if c =? 84 then [] else c :: split_T_0 rest
  end.

(** ** Number values and Number(string) (ECMA-262, StringToNumber) *)

(** A Number: NaN, an infinity, or a finite double given by its exact
    rational value in lowest terms. *)
Inductive jsnum : Type :=
| NaN
| Infinity (negative : bool)
| Finite (q : Q).

Definition of_int (n : Z) : jsnum := Finite (inject_Z n).

(** [x < y] on Numbers: false as soon as one of them is NaN *)
Definition num_lt (x y : jsnum) : bool :=
  match y with
  | NaN => false
  | Infinity yneg =>
      match x with
      | NaN => false
      | Infinity xneg => xneg && negb yneg
      | Finite _ => negb yneg
      end
  | Finite q =>
      match x with
      | NaN => false
      | Infinity xneg => xneg
      | Finite p => (Qnum p * QDen q <? Qnum q * QDen p)%Z
      end
  end.

(** StrWhiteSpaceChar: WhiteSpace and LineTerminator *)
Definition is_whitespace (c : Z) : bool :=
  (c =? 9) || (c =? 10) || (c =? 11) || (c =? 12) || (c =? 13) || (c =? 32)
  || (c =? 160) || (c =? 5760) || in_range 8192 8202 c || (c =? 8232)
  || (c =? 8233) || (c =? 8239) || (c =? 8287) || (c =? 12288) || (c =? 65279).

Fixpoint drop_while (p : Z -> bool) (s : jsstring) : jsstring :=
  match s with
  | [] => []
  | c :: rest => if p c then drop_while p rest else s
  end.

Definition trim (s : jsstring) : jsstring :=
  rev (drop_while is_whitespace (rev (drop_while is_whitespace s))).

Definition is_digit (c : Z) : bool := in_range 48 57 c.

(** The longest prefix of decimal digits, and what follows it *)
Fixpoint take_digits (s : jsstring) : jsstring * jsstring :=
  match s with
  | [] => ([], [])
  | c :: rest =>
      if is_digit c then let (ds, r) := take_digits rest in (c :: ds, r)
      else ([], s)
  end.

(** The value of a digit in the given base, if it is one *)
Definition digit_value (base c : Z) : option Z :=
  let v := if in_range 48 57 c then c - 48
           else if in_range 97 102 c then c - 87
           else if in_range 65 70 c then c - 55
           else base in
  if v <? base then Some v else None.

Fixpoint digits_value (base : Z) (acc : Z) (s : jsstring) : option Z :=
  match s with
  | [] => Some acc
  | c :: rest =>
      match digit_value base c with
      | Some v => digits_value base (acc * base + v) rest
      | None => None
      end
  end.

Definition decimal_value (ds : jsstring) : Z :=
  fold_left (fun acc c => acc * 10 + (c - 48)) ds 0.

Definition jsstring_eqb (a b : jsstring) : bool :=
  if list_eq_dec Z.eq_dec a b then true else false.

(** StrUnsignedDecimalLiteral other than Infinity: the mantissa [m] and
    the decimal exponent [e] of the value [m * 10^e] *)
Definition unsigned_decimal (s : jsstring) : option (Z * Z) :=
  let (ip, r1) := take_digits s in
  let (fp, r2) := match r1 with
                  | c :: r => if c =? 46 then take_digits r else ([], r1)
                  | [] => ([], r1)
                  end in
  if negb (truthy ip) && negb (truthy fp) then None
  else
    let m := decimal_value (ip ++ fp) in
    let scale := - Z.of_nat (List.length fp) in
    match r2 with
    | [] => Some (m, scale)
    | c :: r3 =>
        if (c =? 101) || (c =? 69) then
          let (sign, r4) := match r3 with
                            | x :: r => if x =? 43 then (1, r)
                                        else if x =? 45 then (-1, r)
                                        else (1, r3)
                            | [] => (1, r3)
                            end in
          let (ed, r5) := take_digits r4 in
          if truthy ed && negb (truthy r5)
          then Some (m, sign * decimal_value ed + scale)
          else None
        else None
    end.

(** The double nearest to [a / b], for [a >= 0] and [b > 0], ties to even *)
Definition round_binary64 (a b : Z) : jsnum :=
  if a =? 0 then of_int 0
  else
    let scaled k := (a * 2 ^ Z.max (- k) 0, b * 2 ^ Z.max k 0) in
    let e0 := Z.log2 a - Z.log2 b in
    let e := let (n, d) := scaled e0 in if d <=? n then e0 else e0 - 1 in
    let ex := Z.max (e - 52) (-1074) in
    let (n, d) := scaled ex in
    let q := n / d in
    let r := n mod d in
    let m := if 2 * r <? d then q
             else if d <? 2 * r then q + 1
             else if Z.even q then q else q + 1 in
    if 0 <=? ex then
      if 2 ^ 1024 <=? m * 2 ^ ex then Infinity false
      else of_int (m * 2 ^ ex)
    else Finite (Qred (m # Z.to_pos (2 ^ (- ex)))).

Definition negate (n : jsnum) : jsnum :=
  match n with
  | NaN => NaN
  | Infinity negative => Infinity (negb negative)
  | Finite q => Finite (Qred (- q))
  end.

(** [a - b] for two Numbers that are integers: the double nearest to
    the exact difference *)
Definition int_sub (a b : Z) : jsnum :=
  if a - b <? 0 then negate (round_binary64 (b - a) 1)
  else round_binary64 (a - b) 1.

Definition StrUnsignedDecimalLiteral (s : jsstring) : jsnum :=
  if jsstring_eqb s (lit "Infinity") then Infinity false
  else match unsigned_decimal s with
       | Some (m, e) => round_binary64 (m * 10 ^ Z.max e 0) (10 ^ Z.max (- e) 0)
       | None => NaN
       end.

Definition NonDecimalIntegerLiteral (base : Z) (ds : jsstring) : jsnum :=
  match ds with
  | [] => NaN
  | _ :: _ => match digits_value base 0 ds with
              | Some v => round_binary64 v 1
              | None => NaN
              end
  end.

(** The base announced by the letter after a leading 0: x, o or b *)
Definition radix_of (c : Z) : option Z :=
  if (c =? 120) || (c =? 88) then Some 16
  else if (c =? 111) || (c =? 79) then Some 8
  else if (c =? 98) || (c =? 66) then Some 2
  else None.

(** [Number(str)] for a string argument *)
Definition Number (str : jsstring) : jsnum :=
  match trim str with
  | [] => of_int 0
  | c :: r =>
      if c =? 43 then StrUnsignedDecimalLiteral r
      else if c =? 45 then negate (StrUnsignedDecimalLiteral r)
      else
        match (if c =? 48
               then match r with
                    | x :: ds => option_map (fun base => (base, ds)) (radix_of x)
                    | [] => None
                    end
               else None) with
        | Some (base, ds) => NonDecimalIntegerLiteral base ds
        | None => StrUnsignedDecimalLiteral (c :: r)
        end
  end.

(** ** urlEntry *)

(** [`${priority}`] for a priority given in hundredths, 0 .. 100: the
    shortest decimal, as Number::toString prints 1, 0.7 and 0.85. *)
Definition priority_toString (hundredths : Z) : jsstring :=
  if hundredths mod 100 =? 0 then decimal 1 (hundredths / 100)
  else if hundredths mod 10 =? 0 then lit "0." ++ decimal 1 (hundredths / 10)
  else lit "0." ++ decimal 2 hundredths.

(** [lastmod] is [None] for null and undefined; a Date object is truthy,
    also an invalid one. *)
Definition lastmodTag (lastmod : option Date) : result jsstring :=
  match lastmod with
  | Some d =>
      (iso <- toISOString (new_Date d) ;;
       Ok (lit "<lastmod>" ++ split_T_0 iso ++ lit "</lastmod>"))%result
  | None => Ok []
  end.

Definition urlEntry (loc : jsstring) (lastmod : option Date)
    (changefreq : jsstring) (priority : Z) : result jsstring :=
  (tag <- lastmodTag lastmod ;;
   Ok (NL ++ lit "  <url>" ++ NL
       ++ lit "    <loc>" ++ escapeXml loc ++ lit "</loc>" ++ NL
       ++ lit "    " ++ tag ++ NL
       ++ lit "    <changefreq>" ++ changefreq ++ lit "</changefreq>" ++ NL
       ++ lit "    <priority>" ++ priority_toString priority
       ++ lit "</priority>" ++ NL
       ++ lit "  </url>"))%result.

(** ** buildSitemapXml *)

Record StaticPage : Type := {
  path : jsstring;
  changefreq : jsstring;
  priority : Z                  (* hundredths *)
}.

Definition staticPages : list StaticPage := [
  {| path := lit "/"; changefreq := lit "daily"; priority := 100 |};
  {| path := lit "/about"; changefreq := lit "monthly"; priority := 70 |};
  {| path := lit "/fashion"; changefreq := lit "weekly"; priority := 90 |};
  {| path := lit "/featured"; changefreq := lit "weekly"; priority := 90 |};
  {| path := lit "/electronics"; changefreq := lit "weekly"; priority := 90 |};
  {| path := lit "/beauty"; changefreq := lit "weekly"; priority := 85 |};
  {| path := lit "/sports"; changefreq := lit "weekly"; priority := 85 |};
  {| path := lit "/products"; changefreq := lit "daily"; priority := 100 |};
  {| path := lit "/cart"; changefreq := lit "daily"; priority := 80 |};
  {| path := lit "/my-orders"; changefreq := lit "daily"; priority := 70 |};
  {| path := lit "/login"; changefreq := lit "monthly"; priority := 50 |};
  {| path := lit "/policy"; changefreq := lit "monthly"; priority := 60 |}
].

(** A lean catalog document under the projection "slug updatedAt
    createdAt". [_id] is the text [`${prod._id}`] evaluates to; [None] is
    a field that is missing or null. *)
Record Product : Type := {
  _id : jsstring;
  slug : option jsstring;
  updatedAt : option Date;
  createdAt : option Date
}.

(** What [serveSitemap] and other callers can pass as [siteUrl] *)
Inductive jsvalue : Type :=
| VString (s : jsstring)
| VArray (items : list jsstring).

Definition not_a_function : exn :=
  TypeError (lit "siteUrl.replace is not a function").

(** [siteUrl.replace(/\/$/, "")]: arrays have no [replace] method. *)
Definition replace_trailing_slash (siteUrl : jsvalue) : result jsstring :=
  match siteUrl with
  | VString s => Ok (strip_trailing_slash s)
  | VArray _ => Throw not_a_function
  end.

(** Body of the loop over [staticPages] *)
Definition staticEntry (siteUrl : jsvalue) (p : StaticPage) : result jsstring :=
  (base <- replace_trailing_slash siteUrl ;;
   urlEntry (base ++ path p) None (changefreq p) (priority p))%result.

(** [prod.slug ? `product/${encodeURIComponent(prod.slug)}`
              : `product/${prod._id}`] *)
Definition identifier (prod : Product) : result jsstring :=
  match slug prod with
  | Some (c :: s) =>
      (enc <- encodeURIComponent (c :: s) ;; Ok (lit "product/" ++ enc))%result
  | Some [] | None => Ok (lit "product/" ++ _id prod)
  end.

(** [prod.updatedAt ?? prod.createdAt ?? null] *)
Definition lastmod_of (prod : Product) : option Date :=
  match updatedAt prod with
  | Some d => Some d
  | None => createdAt prod
  end.

(** Body of the loop over [products] *)
Definition productEntry (siteUrl : jsvalue) (prod : Product) : result jsstring :=
  (ident <- identifier prod ;;
   base <- replace_trailing_slash siteUrl ;;
   urlEntry (base ++ lit "/" ++ ident) (lastmod_of prod) (lit "weekly") 80)%result.

Definition xml_declaration : jsstring :=
  lit "<?xml version=" ++ DQ ++ lit "1.0" ++ DQ
  ++ lit " encoding=" ++ DQ ++ lit "UTF-8" ++ DQ ++ lit "?>".

Definition sitemap_namespace : jsstring :=
  lit "http://www.sitemaps.org/schemas/sitemap/0.9".

Definition urlset_open : jsstring :=
  lit "<urlset" ++ NL ++ lit "    xmlns=" ++ DQ ++ sitemap_namespace ++ DQ
  ++ lit ">".

Definition document (items : list jsstring) : jsstring :=
  xml_declaration ++ NL ++ urlset_open ++ NL ++ join NL items ++ NL
  ++ lit "</urlset>".

(** Everything of [buildSitemapXml] after the catalog query has
    resolved to [products] *)
Definition build (siteUrl : jsvalue) (products : list Product) : result jsstring :=
  (statics <- for_of (staticEntry siteUrl) staticPages ;;
   prods <- for_of (productEntry siteUrl) products ;;
   Ok (document (statics ++ prods)))%result.

(** ** The process: module state, environment, clock, catalog, console *)

Record Env : Type := {
  SITE_URL : option jsstring;
  CLIENT_URL : option jsstring;
  SITEMAP_CACHE_TTL_MS : option jsstring
}.

(** [process.env.X ? ... : ...]: unset and empty are falsy. *)
Definition env_truthy (v : option jsstring) : bool :=
  match v with
  | Some s => truthy s
  | None => false
  end.

(** The second argument of [console.error]: [err?.message || err] *)
Inductive LogArg : Type :=
| LogMessage (m : jsstring)
| LogError (e : exn).

(** The values of the clock are time values: integers, each of them a
    double. [cacheTimestamp] is 0 or a value of the clock. *)
Record World : Type := mkWorld {
  process_env : Env;
  cachedXml : option jsstring;            (* [None] is null *)
  cacheTimestamp : Z;
  clock : nat -> Z;                       (* the successive values of Date.now() *)
  clockReads : nat;
  catalog : nat -> result (list Product); (* how the k-th catalog query settles *)
  catalogCalls : nat;
  console : list (jsstring * LogArg)
}.

Definition initial (env : Env) (clock : nat -> Z)
    (catalog : nat -> result (list Product)) : World :=
  {| process_env := env; cachedXml := None; cacheTimestamp := 0;
     clock := clock; clockReads := 0;
     catalog := catalog; catalogCalls := 0; console := [] |}.

(** Computations that read and write the process state and may throw;
    the state written before a throw stays written. *)
Definition M (A : Type) : Type := World -> World * result A.

Definition ret {A} (a : A) : M A := fun w => (w, Ok a).
Definition throw {A} (e : exn) : M A := fun w => (w, Throw e).
Definition bind {A B} (m : M A) (k : A -> M B) : M B :=
  fun w => match m w with
           | (w', Ok a) => k a w'
           | (w', Throw e) => (w', Throw e)
           end.
Definition try_catch {A} (m : M A) (handler : exn -> M A) : M A :=
  fun w => match m w with
           | (w', Ok a) => (w', Ok a)
           | (w', Throw e) => handler e w'
           end.
Definition lift {A} (r : result A) : M A := fun w => (w, r).

Declare Scope world_scope.
Delimit Scope world_scope with world.
Notation "x <~ m ;; k" := (bind m (fun x => k))
  (at level 61, m at next level, right associativity) : world_scope.
Notation "m ;;; k" := (bind m (fun _ => k))
  (at level 61, right associativity) : world_scope.

Definition get_env : M Env := fun w => (w, Ok (process_env w)).
Definition get_cachedXml : M (option jsstring) := fun w => (w, Ok (cachedXml w)).
Definition get_cacheTimestamp : M Z := fun w => (w, Ok (cacheTimestamp w)).

Definition set_cachedXml (xml : jsstring) : M unit := fun w =>
  (mkWorld (process_env w) (Some xml) (cacheTimestamp w) (clock w)
     (clockReads w) (catalog w) (catalogCalls w) (console w), Ok tt).

Definition set_cacheTimestamp (t : Z) : M unit := fun w =>
  (mkWorld (process_env w) (cachedXml w) t (clock w)
     (clockReads w) (catalog w) (catalogCalls w) (console w), Ok tt).

Definition Date_now : M Z := fun w =>
  (mkWorld (process_env w) (cachedXml w) (cacheTimestamp w) (clock w)
     (S (clockReads w)) (catalog w) (catalogCalls w) (console w),
   Ok (clock w (clockReads w))).

(** [await Product.find({}, "slug updatedAt createdAt").lean().exec()] *)
Definition Product_find : M (list Product) := fun w =>
  (mkWorld (process_env w) (cachedXml w) (cacheTimestamp w) (clock w)
     (clockReads w) (catalog w) (S (catalogCalls w)) (console w),
   catalog w (catalogCalls w)).

Definition console_error (label : jsstring) (arg : LogArg) : M unit := fun w =>
  (mkWorld (process_env w) (cachedXml w) (cacheTimestamp w) (clock w)
     (clockReads w) (catalog w) (catalogCalls w) (console w ++ [(label, arg)]),
   Ok tt).

(** [export async function buildSitemapXml({ siteUrl })] *)
Definition buildSitemapXml (siteUrl : jsvalue) : M jsstring :=
  (products <~ Product_find ;;
   lift (build siteUrl products))%world.

(** ** serveSitemap *)

Record Response : Type := {
  status : Z;
  contentType : option jsstring;   (* the header the handler sets, if any *)
  body : jsstring
}.

(** [res.header("Content-Type", "application/xml"); res.send(xml)] *)
Definition send_xml (xml : jsstring) : Response :=
  {| status := 200; contentType := Some (lit "application/xml"); body := xml |}.

(** [res.status(500).send("Server error generating sitemap")] *)
Definition send_error : Response :=
  {| status := 500; contentType := None;
     body := lit "Server error generating sitemap" |}.

Definition constant_assignment : exn :=
  TypeError (lit "Assignment to constant variable.").

(** An assignment to a [const] binding: the right-hand side is evaluated,
    then the assignment throws. *)
Definition assign_const {A} (value : A) : M unit :=
  throw constant_assignment.

Definition default_SITE_URL : list jsstring := [lit "http://localhost:5173"].

(** [process.env.SITEMAP_CACHE_TTL_MS
      ? Number(process.env.SITEMAP_CACHE_TTL_MS) : 60 * 60 * 1000] *)
Definition CACHE_TTL_MS (env : Env) : jsnum :=
  match SITEMAP_CACHE_TTL_MS env with
  | Some (c :: s) => Number (c :: s)
  | Some [] | None => of_int (60 * 60 * 1000)
  end.

(** [cachedXml && now - cacheTimestamp < CACHE_TTL_MS]; an empty string
    is falsy like null, and the subtraction is the one of doubles. *)
Definition fresh (cached : option jsstring) (now timestamp : Z) (ttl : jsnum) : bool :=
  match cached with
  | Some xml => truthy xml && num_lt (int_sub now timestamp) ttl
  | None => false
  end.

(** The [try] block *)
Definition serveSitemap_try : M Response :=
  (env <~ get_env ;;
   let SITE_URL_const := default_SITE_URL in
   (match SITE_URL env, CLIENT_URL env with
    | Some (c :: s), _ => assign_const (split_on 44 (c :: s))
    | _, Some (c :: s) => assign_const (split_on 44 (c :: s))
    | _, _ => ret tt
    end) ;;;
   let ttl := CACHE_TTL_MS env in
   now <~ Date_now ;;
   cached <~ get_cachedXml ;;
   timestamp <~ get_cacheTimestamp ;;
   if fresh cached now timestamp ttl then
     ret (send_xml (match cached with Some xml => xml | None => [] end))
   else
     xml <~ buildSitemapXml (VArray SITE_URL_const) ;;
     set_cachedXml xml ;;;
     t <~ Date_now ;;
     set_cacheTimestamp t ;;;
     ret (send_xml xml))%world.

(** The [catch] block *)
Definition serveSitemap_catch (err : exn) : M Response :=
  (console_error (lit "Error generating sitemap:")
     (if truthy (message err) then LogMessage (message err) else LogError err) ;;;
   ret send_error)%world.

Definition serveSitemap : M Response :=
  try_catch serveSitemap_try serveSitemap_catch.

(** * Vocabulary of the statements *)

(** ** Text *)

(** What escaping is to do to one code unit: a reserved character becomes
    its entity, anything else is kept. *)
Definition xml_entity (c : Z) : jsstring :=
  if c =? c_amp then lit "&amp;"
  else if c =? c_lt then lit "&lt;"
  else if c =? c_gt then lit "&gt;"
  else if c =? c_quot then lit "&quot;"
  else if c =? c_apos then lit "&apos;"
  else [c].

Definition reserved (c : Z) : bool :=
  (c =? c_amp) || (c =? c_lt) || (c =? c_gt) || (c =? c_quot) || (c =? c_apos).

(** [c] does not occur in [s] *)
Definition lacks (c : Z) (s : jsstring) : bool := forallb (fun x => negb (x =? c)) s.

(** No reserved character occurs in [s] *)
Definition plain (s : jsstring) : bool := forallb (fun c => negb (reserved c)) s.

(** The characters of a printed date: digits, [-] and [+] *)
Definition datechar (c : Z) : bool := is_digit c || (c =? 45) || (c =? 43).

(** The code units of a string: 0 .. 65535 *)
Definition code_units (s : jsstring) : bool := forallb (in_range 0 65535) s.

(** No decimal digit occurs in [s] *)
Definition digitless (s : jsstring) : bool := forallb (fun c => negb (is_digit c)) s.

(** [p] is a prefix of [s] *)
Fixpoint prefixb (p s : jsstring) : bool :=
  match p, s with
  | [], _ => true
  | _ :: _, [] => false
  | a :: p', b :: s' => (a =? b) && prefixb p' s'
  end.

(** Number of positions of [s] at which [p] occurs *)
Fixpoint occ (p s : jsstring) : nat :=
  match s with
  | [] => O
  | _ :: rest => ((if prefixb p s then 1 else 0) + occ p rest)%nat
  end.

(** [s] contains [p] *)
Definition contains (s p : jsstring) : Prop :=
  exists before after, s = before ++ p ++ after.

(** Whether [p] occurs at the head of [s] is settled inside [s] *)
Fixpoint decided (p s : jsstring) : bool :=
  match p, s with
  | [], _ => true
  | _ :: _, [] => false
  | a :: p', b :: s' => if a =? b then decided p' s' else true
  end.

(** No occurrence of [p] can start in [s] and end after it *)
Fixpoint closed (p s : jsstring) : bool :=
  match s with
  | [] => true
  | _ :: rest => decided p s && closed p rest
  end.

(** [p] occurs [n] times in [s], and whatever follows [s] adds no
    occurrence that starts in [s]. *)
Definition counts (p : jsstring) (n : nat) (s : jsstring) : Prop :=
  closed p s = true /\ occ p s = n.

(** Every ampersand of [s] starts one of the five entities. *)
Definition ampersands_escaped (s : jsstring) : Prop :=
  occ [c_amp] s
  = (occ (lit "&amp;") s + occ (lit "&lt;") s + occ (lit "&gt;") s
     + occ (lit "&quot;") s + occ (lit "&apos;") s)%nat.

Definition amp_patterns : list jsstring :=
  [[c_amp]; lit "&amp;"; lit "&lt;"; lit "&gt;"; lit "&quot;"; lit "&apos;"].

(** Every ampersand of [s] starts an entity that ends inside [s]. *)
Definition tidy (s : jsstring) : Prop :=
  forallb (fun q => closed q s) amp_patterns = true /\ ampersands_escaped s.

(** String.prototype.isWellFormed: no lone surrogate *)
Fixpoint isWellFormed (s : jsstring) : bool :=
  match s with
  | [] => true
  | c :: rest =>
      if is_trailing_surrogate c then false
      else if is_leading_surrogate c then
        match rest with
        | c2 :: rest2 => is_trailing_surrogate c2 && isWellFormed rest2
        | [] => false
        end
      else isWellFormed rest
  end.

(** A code unit of a percent-encoded component: unreserved, [%], or an
    upper-case hexadecimal digit *)
Definition uri_safe (c : Z) : bool :=
  uri_unescaped c || (c =? 37) || in_range 48 57 c || in_range 65 70 c.

(** ** The calendar *)

Definition leap_year (y : Z) : Z :=
  if (y mod 4 =? 0) && (negb (y mod 100 =? 0) || (y mod 400 =? 0)) then 1 else 0.

(** Days of the year before month [m] (1 .. 12), leap day included *)
Definition days_before_month (leap m : Z) : Z :=
  match m with
  | 1 => 0 | 2 => 31 | 3 => 59 + leap | 4 => 90 + leap | 5 => 120 + leap
  | 6 => 151 + leap | 7 => 181 + leap | 8 => 212 + leap | 9 => 243 + leap
  | 10 => 273 + leap | 11 => 304 + leap | _ => 334 + leap
  end.

Definition days_in_month (y m : Z) : Z :=
  match m with
  | 2 => 28 + leap_year y
  | 4 | 6 | 9 | 11 => 30
  | _ => 31
  end.

(** Day number, counted from the epoch, of the civil date y-m-d *)
Definition day_of_civil (y m d : Z) : Z :=
  DayFromYear y + days_before_month (leap_year y) m + (d - 1).

(** [text] is the ISO 8601 calendar date, without time of day, of the
    day the time value [t] falls in. *)
Definition date_only (t : Z) (text : jsstring) : Prop :=
  exists y m d,
    text = iso_year y ++ lit "-" ++ decimal 2 m ++ lit "-" ++ decimal 2 d
    /\ 1 <= m <= 12 /\ 1 <= d <= days_in_month y m
    /\ day_of_civil y m d = Day t
    /\ lacks 84 text = true.

(** ** Entries and items *)

(** The text of an entry, given what goes into its four elements *)
Definition entry_text (loc tag cf pr : jsstring) : jsstring :=
  NL ++ lit "  <url>" ++ NL
  ++ lit "    <loc>" ++ escapeXml loc ++ lit "</loc>" ++ NL
  ++ lit "    " ++ tag ++ NL
  ++ lit "    <changefreq>" ++ cf ++ lit "</changefreq>" ++ NL
  ++ lit "    <priority>" ++ pr ++ lit "</priority>" ++ NL
  ++ lit "  </url>".

(** The entry of a static page *)
Definition static_text (site : jsstring) (pg : StaticPage) : jsstring :=
  entry_text (strip_trailing_slash site ++ path pg) []
    (changefreq pg) (priority_toString (priority pg)).

Definition valid_date (d : Date) : bool :=
  match new_Date d with
  | InvalidDate => false
  | DateOf _ => true
  end.

(** The items the builder accepts: a slug, if any, without lone
    surrogate, and a valid date where one is printed *)
Definition buildable (prod : Product) : bool :=
  match slug prod with
  | Some s => isWellFormed s
  | None => true
  end
  && match lastmod_of prod with
     | Some d => valid_date d
     | None => true
     end.

(** The errors an item can make the builder throw *)
Definition item_error (e : exn) : Prop :=
  e = URI_malformed \/ e = Invalid_time_value.

Definition has_lastmod (prod : Product) : bool :=
  match lastmod_of prod with Some _ => true | None => false end.

(** Occurrences per entry: [k0] without a lastmod line, [k1] with one *)
Definition per_entry (k0 k1 : nat) (lm : option Date) : nat :=
  match lm with None => k0 | Some _ => k1 end.

Definition entry_counts_of (k0 k1 : nat) (products : list Product) : list nat :=
  map (fun _ => k0) staticPages
  ++ map (fun prod => per_entry k0 k1 (lastmod_of prod)) products.

(** ** The process *)

(** What the [catch] block writes to the console for [err] *)
Definition error_log (err : exn) : jsstring * LogArg :=
  (lit "Error generating sitemap:",
   if truthy (message err) then LogMessage (message err) else LogError err).

(** [process.env.SITE_URL] or, failing that, [process.env.CLIENT_URL] is
    set to something non-empty. *)
Definition site_configured (env : Env) : bool :=
  env_truthy (SITE_URL env) || env_truthy (CLIENT_URL env).

(** The freshness test of the request that [w] is about to serve *)
Definition cache_fresh (w : World) : bool :=
  fresh (cachedXml w) (clock w (clockReads w)) (cacheTimestamp w)
    (CACHE_TTL_MS (process_env w)).

(** The error a rebuild ends with: the catalog's, or the builder's own *)
Definition rebuild_error (w : World) : exn :=
  match catalog w (catalogCalls w) with
  | Throw e => e
  | Ok _ => not_a_function
  end.

(** [n] requests in a row, with their responses *)
Fixpoint requests (n : nat) (w : World) : World * list (result Response) :=
  match n with
  | O => (w, [])
  | S n' => let (w1, r) := serveSitemap w in
            let (w2, rs) := requests n' w1 in
            (w2, r :: rs)
  end.

(** ** Sample inputs *)

Definition env_unset : Env :=
  {| SITE_URL := None; CLIENT_URL := None; SITEMAP_CACHE_TTL_MS := None |}.

Definition env_site : Env :=
  {| SITE_URL := Some (lit "https://example.com"); CLIENT_URL := None;
     SITEMAP_CACHE_TTL_MS := None |}.

Definition env_client : Env :=
  {| SITE_URL := None; CLIENT_URL := Some (lit "https://shop.example.com");
     SITEMAP_CACHE_TTL_MS := None |}.

Definition env_ttl (setting : string) : Env :=
  {| SITE_URL := None; CLIENT_URL := None;
     SITEMAP_CACHE_TTL_MS := Some (lit setting) |}.

(** 2024-01-15T10:00:00Z and 2023-11-14T22:13:20Z *)
Definition red_shoes : Product :=
  {| _id := lit "65a4f0c2e1b2c3d4e5f60718";
     slug := Some (lit "red shoes");
     updatedAt := Some (DateOf 1705312800000);
     createdAt := Some (DateOf 1700000000000) |}.

Definition unnamed_item : Product :=
  {| _id := lit "65a4f0c2e1b2c3d4e5f60719";
     slug := None;
     updatedAt := None;
     createdAt := Some (DateOf 1700000000000) |}.

(** A slug and an identifier made of reserved characters *)
Definition awkward_slug : Product :=
  {| _id := lit "1"; slug := Some (lit "a&b<c>'d" ++ DQ);
     updatedAt := None; createdAt := None |}.

Definition awkward_id : Product :=
  {| _id := lit "<&>'" ++ DQ; slug := None;
     updatedAt := Some (DateOf 0); createdAt := None |}.

Definition awkward_site : jsstring :=
  lit "https://example.com/?a=1&b=<2>'" ++ DQ ++ lit "/".

(** An item whose update timestamp is an invalid Date *)
Definition undated : Product :=
  {| _id := lit "65a4f0c2e1b2c3d4e5f6071a";
     slug := Some (lit "blue-hat");
     updatedAt := Some InvalidDate;
     createdAt := Some (DateOf 1700000000000) |}.

(** An item whose slug ends in a lone leading surrogate *)
Definition torn_slug : Product :=
  {| _id := lit "65a4f0c2e1b2c3d4e5f6071b";
     slug := Some (lit "hat" ++ [55357]);
     updatedAt := None; createdAt := None |}.

Definition down : exn := CatalogError (lit "connect ECONNREFUSED 127.0.0.1:27017").

(** A process that holds a document built at time 1000 *)
Definition warm (env : Env) (now : Z) (catalog : nat -> result (list Product)) : World :=
  {| process_env := env; cachedXml := Some (lit "<urlset/>");
     cacheTimestamp := 1000; clock := fun _ => now; clockReads := 0;
     catalog := catalog; catalogCalls := 0; console := [] |}.

(** ** Settings and slugs *)

(** A character of a decimal literal: a digit, [.], [e], [E], [+], [-] *)
Definition decimal_char (c : Z) : bool :=
  existsb (Z.eqb c) (lit "0123456789.eE+-").

(** A text that begins with 0x, 0o or 0b, in either case *)
Definition radix_prefixed (t : jsstring) : bool :=
  match t with
  | 48 :: x :: _ => existsb (Z.eqb x) (lit "xXoObB")
  | _ => false
  end.

(** The characters RFC 3986 percent-encoding as done by
    encodeURIComponent leaves alone *)
Definition ascii_unreserved (c : Z) : bool :=
  existsb (Z.eqb c)
    (lit "ABCDEFGHIJKLMNOPQRSTUVWXYZabcdefghijklmnopqrstuvwxyz0123456789-_.!~*'()").

Definition hex_char (d : Z) : Z := nth (Z.to_nat d) (lit "0123456789ABCDEF") 0.

(** The percent-encoding of an ASCII character *)
Definition percent_ascii (c : Z) : jsstring :=
  if ascii_unreserved c then [c] else [37; hex_char (c / 16); hex_char (c mod 16)].

(** The twelve static pages of the sitemap: path, change frequency and
    priority as printed *)
Definition listed_pages : list (jsstring * jsstring * jsstring) :=
  [ (lit "/", lit "daily", lit "1");
    (lit "/about", lit "monthly", lit "0.7");
    (lit "/fashion", lit "weekly", lit "0.9");
    (lit "/featured", lit "weekly", lit "0.9");
    (lit "/electronics", lit "weekly", lit "0.9");
    (lit "/beauty", lit "weekly", lit "0.85");
    (lit "/sports", lit "weekly", lit "0.85");
    (lit "/products", lit "daily", lit "1");
    (lit "/cart", lit "daily", lit "0.8");
    (lit "/my-orders", lit "daily", lit "0.7");
    (lit "/login", lit "monthly", lit "0.5");
    (lit "/policy", lit "monthly", lit "0.6") ].

(** ** Printed dates *)

(** The [w] low decimal digits of [n], most significant first *)
Definition printed (w : nat) (n : Z) : jsstring :=
  map (fun k => 48 + (n / 10 ^ Z.of_nat k) mod 10) (rev (seq 0 w)).

(** Four digits for the years 0 .. 9999, otherwise a sign and six digits *)
Definition year_text (y : Z) : jsstring :=
  if (0 <=? y) && (y <=? 9999) then printed 4 y
  else (if 0 <=? y then [43] else [45]) ++ printed 6 (Z.abs y).

(** Days from the epoch to the first of January of year [y] *)
Definition days_before_year (y : Z) : Z :=
  365 * (y - 1970) + (y - 1969) / 4 - (y - 1901) / 100 + (y - 1601) / 400.

(** [text] is year-month-day, with no time of day, for the civil date of
    the UTC day that the time value [t] falls in. *)
Definition calendar_date (t : Z) (text : jsstring) : Prop :=
  exists y m d,
    text = year_text y ++ [45] ++ printed 2 m ++ [45] ++ printed 2 d
    /\ 1 <= m <= 12 /\ 1 <= d <= days_in_month y m
    /\ days_before_year y + days_before_month (leap_year y) m + (d - 1)
       = t / 86400000
    /\ lacks 84 text = true.

(** * The server (server.js) and the health route (routes/healthRoutes.js) *)

(** ** String and array methods *)

(** [str.startsWith(p)] *)
Definition startsWith (str p : jsstring) : bool := prefixb p str.

(** [str.endsWith(p)] *)
Definition endsWith (str p : jsstring) : bool := prefixb (rev p) (rev str).

(** [arr.includes(x)] for an array of strings *)
Definition includes (arr : list jsstring) (x : jsstring) : bool :=
  existsb (jsstring_eqb x) arr.

(** [str.slice(1)] *)
Definition slice_1 (str : jsstring) : jsstring := tl str.

(** ** Allowed origins *)

Definition localhost_dev : jsstring := lit "http://localhost:5173".

(** [process.env.CLIENT_URL || ""] *)
Definition rawClientEnv (client_url : option jsstring) : jsstring :=
  match client_url with
  | Some s => s
  | None => []
  end.

(** [rawClientEnv.split(",").map(u => (u || "").trim()).filter(Boolean)
      .map(u => u.replace(/\/$/, ""))] *)
Definition listedOrigins (client_url : option jsstring) : list jsstring :=
  map strip_trailing_slash
    (filter truthy (map trim (split_on 44 (rawClientEnv client_url)))).

(** The list after the local development origin has been pushed when it
    was not there *)
Definition allowedOrigins (client_url : option jsstring) : list jsstring :=
  let listed := listedOrigins client_url in
  if includes listed localhost_dev then listed else listed ++ [localhost_dev].

(** [origin ? origin.replace(/\/$/, "") : origin]; [None] is undefined. *)
Definition normalizeOrigin (origin : option jsstring) : option jsstring :=
  match origin with
  | Some (c :: s) => Some (strip_trailing_slash (c :: s))
  | Some [] => Some []
  | None => None
  end.

(** ** The origin callback of the CORS middleware *)

(** An error object as the handlers read it: [message] and [status] *)
Record ServerError : Type := {
  err_message : jsstring;
  err_stack : jsstring;
  err_status : option Z
}.

(** [new Error("Not allowed by CORS: " + origin)]; the stack, which the
    runtime fills in, is left empty. *)
Definition cors_error (origin : jsstring) : ServerError :=
  {| err_message := lit "Not allowed by CORS: " ++ origin;
     err_stack := [];
     err_status := None |}.

(** [callback(null, true)] or [callback(err, false)] *)
Inductive CorsDecision : Type :=
| Allow
| Deny (err : ServerError).

(** The test of [allowedOrigins.some(...)] on one entry *)
Definition matchesPattern (incoming a : jsstring) : bool :=
  if startsWith a (lit "*.") then endsWith incoming (slice_1 a)
  else if startsWith a (lit ".") then endsWith incoming a
  else false.

(** The [origin] function: its decision, and what it writes with
    [console.log] *)
Definition corsOrigin (allowed : list jsstring) (origin : option jsstring)
  : list (jsstring * jsstring) * CorsDecision :=
  match origin with
  | None | Some [] => ([], Allow)
  | Some (c :: s) =>
      let o := c :: s in
      let incoming := strip_trailing_slash o in
      if includes allowed incoming then ([], Allow)
      else if includes allowed (lit "*") then ([], Allow)
      else if endsWith incoming (lit ".nip.io") then ([], Allow)
      else if existsb (matchesPattern incoming) allowed then ([], Allow)
      else ([([10060] ++ lit " CORS Blocked Origin:", o)], Deny (cors_error o))
  end.

(** ** The global error handler *)

Record JsonResponse : Type := {
  res_status : Z;
  res_success : bool;
  res_message : jsstring
}.

(** [err.status || 500] *)
Definition status_or_500 (st : option Z) : Z :=
  match st with
  | Some n => if n =? 0 then 500 else n
  | None => 500
  end.

(** The lines written with [console.error], then the response *)
Definition errorHandler (err : ServerError) : list jsstring * JsonResponse :=
  let lines :=
    [ [55357; 56613] ++ lit " Global Error Handler Triggered:";
      lit "   " ++ [8226] ++ lit " Message: " ++ err_message err;
      lit "   " ++ [8226] ++ lit " Stack: " ++ err_stack err ] in
  if truthy (err_message err)
     && startsWith (err_message err) (lit "Not allowed by CORS")
  then (lines, {| res_status := 403; res_success := false;
                  res_message := err_message err |})
  else (lines, {| res_status := status_or_500 (err_status err);
                  res_success := false;
                  res_message := if truthy (err_message err)
                                 then err_message err
                                 else lit "Internal Server Error" |}).

(** A request with the given Origin header passing the CORS middleware:
    the middleware hands the callback's error to the error handler. [None]
    is a request that goes on to the routes. *)
Definition cors_gate (client_url : option jsstring) (origin : option jsstring)
  : option JsonResponse :=
  match snd (corsOrigin (allowedOrigins client_url) origin) with
  | Allow => None
  | Deny err => Some (snd (errorHandler err))
  end.

(** ** GET /health *)

Record Health : Type := {
  health_status : jsstring;
  health_uptime : Z;
  health_timestamp : jsstring
}.

(** [process.uptime()] is a number of seconds, given by its exact value;
    [now] is the time value of [new Date()]. *)
Definition health (uptimeSeconds : Q) (now : Z) : result Health :=
  (timestamp <- toISOString (new_Date (DateOf now)) ;;
   Ok {| health_status := lit "ok";
         health_uptime := Qfloor uptimeSeconds;
         health_timestamp := timestamp |})%result.

(** ** Vocabulary of the further statements *)

(** One of the four rules of the origin callback accepts [o]. *)
Definition allows (allowed : list jsstring) (o : jsstring) : bool :=
  let incoming := strip_trailing_slash o in
  includes allowed incoming || includes allowed (lit "*")
  || endsWith incoming (lit ".nip.io")
  || existsb (matchesPattern incoming) allowed.

(** The answer to a request whose origin was refused *)
Definition forbidden (o : jsstring) : JsonResponse :=
  {| res_status := 403; res_success := false;
     res_message := lit "Not allowed by CORS: " ++ o |}.

(** What an item that cannot be built makes the builder throw: the slug
    is encoded before the date is printed. *)
Definition item_throws (prod : Product) : exn :=
  match slug prod with
  | Some s => if isWellFormed s then Invalid_time_value else URI_malformed
  | None => Invalid_time_value
  end.

(** A text fits a shape when it has a digit where the shape says [None]
    and the given character where it says [Some]. *)
Fixpoint fits (shape : list (option Z)) (s : jsstring) : bool :=
  match shape, s with
  | [], [] => true
  | Some c :: sh, x :: r => (x =? c) && fits sh r
  | None :: sh, x :: r => is_digit x && fits sh r
  | _, _ => false
  end.

(** dddd-dd-ddTdd:dd:dd.dddZ *)
Definition timestamp_shape : list (option Z) :=
  repeat None 4 ++ [Some 45] ++ repeat None 2 ++ [Some 45] ++ repeat None 2
  ++ [Some 84] ++ repeat None 2 ++ [Some 58] ++ repeat None 2 ++ [Some 58]
  ++ repeat None 2 ++ [Some 46] ++ repeat None 3 ++ [Some 90].

(** * Proofs *)

(** ** The runtime model on known values *)

Example escapeXml_sample :
  escapeXml (lit "Tom & Jerry's <b>" ++ DQ)
  = lit "Tom &amp; Jerry&apos;s &lt;b&gt;&quot;".
Proof. reflexivity. Qed.

Example strip_trailing_slash_samples :
  strip_trailing_slash (lit "https://example.com/") = lit "https://example.com"
  /\ strip_trailing_slash (lit "https://example.com//") = lit "https://example.com/"
  /\ strip_trailing_slash (lit "https://example.com") = lit "https://example.com"
  /\ strip_trailing_slash (lit "/") = [].
Proof. repeat split. Qed.

Example encodeURIComponent_samples :
  encodeURIComponent (lit "red shoes") = Ok (lit "red%20shoes")
  /\ encodeURIComponent (lit "a&b<c>'d/e?f=g") = Ok (lit "a%26b%3Cc%3E'd%2Fe%3Ff%3Dg")
  /\ encodeURIComponent [233; 8364; 55357; 56832]
     = Ok (lit "%C3%A9%E2%82%AC%F0%9F%98%80")
  /\ encodeURIComponent [55357] = Throw URI_malformed
  /\ encodeURIComponent [56832; 55357] = Throw URI_malformed.
Proof. repeat split. Qed.

Example toISOString_samples :
  toISOString (DateOf 1705312800000) = Ok (lit "2024-01-15T10:00:00.000Z")
  /\ toISOString (DateOf 0) = Ok (lit "1970-01-01T00:00:00.000Z")
  /\ toISOString (DateOf (-1)) = Ok (lit "1969-12-31T23:59:59.999Z")
  /\ toISOString (DateOf 951782400000) = Ok (lit "2000-02-29T00:00:00.000Z")
  /\ toISOString (DateOf 4107542400000) = Ok (lit "2100-03-01T00:00:00.000Z")
  /\ toISOString (DateOf maxTime) = Ok (lit "+275760-09-13T00:00:00.000Z")
  /\ toISOString (DateOf (- maxTime)) = Ok (lit "-271821-04-20T00:00:00.000Z")
  /\ toISOString (new_Date (DateOf (maxTime + 1))) = Throw Invalid_time_value.
Proof. repeat split. Qed.

Example Number_samples :
  Number (lit "3600000") = of_int 3600000
  /\ Number (lit " 60e3 ") = of_int 60000
  /\ Number (lit "0x10") = of_int 16
  /\ Number (lit "1.5") = Finite (3 # 2)
  /\ Number (lit "-7") = of_int (-7)
  /\ Number (lit "Infinity") = Infinity false
  /\ Number (lit "1e400") = Infinity false
  /\ Number (lit "9007199254740993") = of_int 9007199254740992
  /\ Number (lit "abc") = NaN
  /\ Number (lit "1h") = NaN
  /\ Number (lit "1 000") = NaN
  /\ Number (lit "1,5") = NaN.
Proof. repeat split. Qed.

Example priority_toString_samples :
  map priority_toString [100; 90; 85; 80; 70; 60; 50]
  = [lit "1"; lit "0.9"; lit "0.85"; lit "0.8"; lit "0.7"; lit "0.6"; lit "0.5"].
Proof. reflexivity. Qed.

(** ** Replacing and escaping *)

Lemma replaceAll_app pat rep a b :
  replaceAll pat rep (a ++ b) = replaceAll pat rep a ++ replaceAll pat rep b.
Proof.
  induction a as [|c a IH]; simpl; [reflexivity|].
  now rewrite IH, app_assoc.
Qed.

Lemma escapeXml_app a b : escapeXml (a ++ b) = escapeXml a ++ escapeXml b.
Proof. unfold escapeXml. now rewrite !replaceAll_app. Qed.

Lemma escapeXml_unit c : escapeXml [c] = xml_entity c.
Proof.
  unfold escapeXml, xml_entity, c_amp, c_lt, c_gt, c_quot, c_apos.
  simpl replaceAll at 5.
  destruct (Z.eqb_spec c 38) as [->|H1]; [reflexivity|].
  simpl.
  destruct (Z.eqb_spec c 60) as [->|H2]; [reflexivity|].
  simpl.
  destruct (Z.eqb_spec c 62) as [->|H3]; [reflexivity|].
  simpl.
  destruct (Z.eqb_spec c 34) as [->|H4]; [reflexivity|].
  simpl.
  destruct (Z.eqb_spec c 39) as [->|H5]; reflexivity.
Qed.

Lemma escapeXml_cons c s : escapeXml (c :: s) = xml_entity c ++ escapeXml s.
Proof. change (c :: s) with ([c] ++ s). now rewrite escapeXml_app, escapeXml_unit. Qed.

Lemma escapeXml_flat_map s : escapeXml s = flat_map xml_entity s.
Proof.
  induction s as [|c s IH]; [reflexivity|].
  rewrite escapeXml_cons, IH. reflexivity.
Qed.

(** ** Occurrences of a pattern *)

Lemma decided_prefixb p s r :
  decided p s = true -> prefixb p (s ++ r) = prefixb p s.
Proof.
  revert s; induction p as [|a p IH]; intros [|b s] H; simpl in *;
    try reflexivity; try discriminate.
  destruct (a =? b); simpl; auto.
Qed.

Lemma occ_closed p s r :
  closed p s = true -> (occ p (s ++ r) = occ p s + occ p r)%nat.
Proof.
  induction s as [|b s IH]; intros H; simpl in *; [reflexivity|].
  apply andb_prop in H as [Hd Hc].
  change (b :: s ++ r) with ((b :: s) ++ r).
  rewrite (decided_prefixb p (b :: s) r Hd), (IH Hc). simpl. lia.
Qed.

Lemma closed_app p a b :
  closed p a = true -> closed p b = true -> closed p (a ++ b) = true.
Proof.
  induction a as [|x a IH]; intros Ha Hb; simpl in *; [assumption|].
  apply andb_prop in Ha as [Hd Hc]. rewrite (IH Hc Hb), andb_true_r.
  clear IH Hc Hb. revert x a Hd.
  induction p as [|y p IHp]; intros x a Hd; [reflexivity|].
  simpl in *. destruct (y =? x); [|reflexivity].
  destruct a as [|x' a]; simpl in *.
  - destruct p; [reflexivity|discriminate].
  - destruct p as [|y' p']; [reflexivity|].
    specialize (IHp x' a). simpl in IHp. apply IHp, Hd.
Qed.

Lemma prefixb_app p r : prefixb p (p ++ r) = true.
Proof.
  induction p as [|a p IH]; [reflexivity|].
  cbn [prefixb app]. now rewrite Z.eqb_refl, IH.
Qed.

Lemma lacks_app c a b : lacks c (a ++ b) = lacks c a && lacks c b.
Proof. apply forallb_app. Qed.

Lemma occ_lacks c p s r :
  lacks c s = true -> occ (c :: p) (s ++ r) = occ (c :: p) r.
Proof.
  induction s as [|b s IH]; intros H; simpl in *; [reflexivity|].
  apply andb_prop in H as [Hb Hs].
  rewrite (IH Hs).
  destruct (Z.eqb_spec c b) as [->|Hne]; simpl.
  - rewrite Z.eqb_refl in Hb. discriminate.
  - reflexivity.
Qed.

Lemma occ_lacks_nil c p s : lacks c s = true -> occ (c :: p) s = O.
Proof.
  intros H. rewrite <- (app_nil_r s). now rewrite occ_lacks.
Qed.

Lemma closed_lacks c p s : lacks c s = true -> closed (c :: p) s = true.
Proof.
  induction s as [|b s IH]; intros H; simpl in *; [reflexivity|].
  apply andb_prop in H as [Hb Hs]. rewrite (IH Hs), andb_true_r.
  destruct (Z.eqb_spec c b) as [->|Hne]; [|reflexivity].
  rewrite Z.eqb_refl in Hb. discriminate.
Qed.

(** Counting is additive over pieces that are closed for the pattern. *)
Section Counting.

Variable p : jsstring.

Lemma counts_app n m a b :
  counts p n a -> counts p m b -> counts p (n + m) (a ++ b).
Proof.
  intros [Ca Oa] [Cb Ob]. split.
  - now apply closed_app.
  - rewrite occ_closed by assumption. congruence.
Qed.

Lemma counts_fixed s : closed p s = true -> counts p (occ p s) s.
Proof. now split. Qed.

Lemma counts_known n s : closed p s = true -> occ p s = n -> counts p n s.
Proof. now split. Qed.

Lemma counts_nil : counts p 0 [].
Proof. now split. Qed.

Lemma counts_eq n m s : counts p n s -> n = m -> counts p m s.
Proof. now intros H <-. Qed.

Lemma counts_join sep ns items :
  counts p 0 sep -> Forall2 (counts p) ns items ->
  counts p (list_sum ns) (join sep items).
Proof.
  intros Hsep H. induction H as [|n e ns items He Hrest IH]; [apply counts_nil|].
  simpl. destruct items as [|e' items'].
  - inversion Hrest; subst. simpl. now rewrite Nat.add_0_r.
  - apply counts_app; [assumption|].
    change (list_sum ns) with (0 + list_sum ns)%nat.
    apply counts_app; assumption.
Qed.

Lemma Forall2_counts {A} (f : A -> result jsstring) (k : A -> nat) l es :
  (forall a e, In a l -> f a = Ok e -> counts p (k a) e) ->
  Forall2 (fun a e => f a = Ok e) l es ->
  Forall2 (counts p) (map k l) es.
Proof.
  intros Hk H. induction H as [|a e l es Hae Hrest IH]; simpl; constructor.
  - apply Hk; [now left | assumption].
  - apply IH. intros; apply Hk; [now right | assumption].
Qed.

End Counting.

Lemma counts_lacks c p s : lacks c s = true -> counts (c :: p) 0 s.
Proof.
  intros H. split; [now apply closed_lacks | now apply occ_lacks_nil].
Qed.

(** ** Containment *)

Lemma contains_refl p : contains p p.
Proof. exists [], []. now rewrite app_nil_r. Qed.

Lemma contains_app_l s r p : contains s p -> contains (s ++ r) p.
Proof.
  intros (b & a & ->). exists b, (a ++ r). now rewrite <- !app_assoc.
Qed.

Lemma contains_app_r s r p : contains s p -> contains (r ++ s) p.
Proof.
  intros (b & a & ->). exists (r ++ b), a. now rewrite <- !app_assoc.
Qed.

Lemma join_contains sep items e : In e items -> contains (join sep items) e.
Proof.
  induction items as [|x items IH]; [intros []|].
  intros [->|H]; cbn [join]; destruct items as [|y items'].
  - apply contains_refl.
  - apply contains_app_l, contains_refl.
  - destruct H.
  - apply contains_app_r, contains_app_r, IH, H.
Qed.

(** ** Loops *)

Lemma for_of_Forall2 {A B} (f : A -> result B) l bs :
  for_of f l = Ok bs -> Forall2 (fun a b => f a = Ok b) l bs.
Proof.
  revert bs; induction l as [|a l IH]; simpl; intros bs H.
  - injection H as <-. constructor.
  - destruct (f a) as [b|] eqn:Fa; simpl in H; [|discriminate].
    destruct (for_of f l) as [bs'|]; simpl in H; [|discriminate].
    injection H as <-. constructor; auto.
Qed.

Lemma for_of_map {A B} (f : A -> result B) (g : A -> B) l :
  (forall a, f a = Ok (g a)) -> for_of f l = Ok (map g l).
Proof.
  intros H. induction l as [|a l IH]; [reflexivity|].
  cbn [for_of map]. now rewrite H, IH.
Qed.

Lemma for_of_forallb {A B} (f : A -> result B) (P : A -> bool) (E : exn -> Prop) :
  (forall a, if P a then exists b, f a = Ok b else exists e, f a = Throw e /\ E e) ->
  forall l, if forallb P l then exists bs, for_of f l = Ok bs
            else exists e, for_of f l = Throw e /\ E e.
Proof.
  intros H. induction l as [|a l IH]; [cbn; now eexists|].
  cbn [forallb for_of]. specialize (H a). destruct (P a); cbn [andb].
  - destruct H as [b ->]. cbn [rbind].
    destruct (forallb P l).
    + destruct IH as [bs ->]. cbn. now eexists.
    + destruct IH as (e & -> & He). cbn. now exists e.
  - destruct H as (e & -> & He). cbn. now exists e.
Qed.

(** ** Character classes *)

Ltac bool_to_prop :=
  repeat match goal with
         | H : _ || _ = true |- _ => apply orb_true_iff in H
         | H : _ || _ = false |- _ => apply orb_false_iff in H
         | H : _ && _ = true |- _ => apply andb_true_iff in H
         | H : _ && _ = false |- _ => apply andb_false_iff in H
         | H : negb _ = true |- _ => apply negb_true_iff in H
         | H : negb _ = false |- _ => apply negb_false_iff in H
         | H : (_ <=? _) = true |- _ => apply Z.leb_le in H
         | H : (_ <=? _) = false |- _ => apply Z.leb_gt in H
         | H : (_ <? _) = true |- _ => apply Z.ltb_lt in H
         | H : (_ <? _) = false |- _ => apply Z.ltb_ge in H
         | H : (_ =? _) = true |- _ => apply Z.eqb_eq in H
         | H : (_ =? _) = false |- _ => apply Z.eqb_neq in H
         | H : _ /\ _ |- _ => destruct H
         | H : _ \/ _ |- _ => destruct H
         end.

Lemma forallb_impl (p q : Z -> bool) s :
  (forall c, p c = true -> q c = true) -> forallb p s = true -> forallb q s = true.
Proof. intros H. rewrite !forallb_forall. auto. Qed.

Lemma plain_app a b : plain (a ++ b) = plain a && plain b.
Proof. apply forallb_app. Qed.

Lemma plain_lacks c s : reserved c = true -> plain s = true -> lacks c s = true.
Proof.
  intros Hc H. unfold plain, lacks in *. rewrite forallb_forall in *.
  intros x Hx. specialize (H x Hx).
  destruct (Z.eqb_spec x c) as [->|]; [|reflexivity].
  now rewrite Hc in H.
Qed.

Lemma decimal_digits w n : forallb is_digit (decimal w n) = true.
Proof.
  revert n; induction w as [|w IH]; intros n; cbn [decimal]; [reflexivity|].
  rewrite forallb_app, IH. cbn [forallb andb]. unfold is_digit, in_range.
  pose proof (Z.mod_pos_bound n 10 ltac:(lia)).
  rewrite andb_true_r. apply andb_true_intro; split; apply Z.leb_le; lia.
Qed.

Lemma digit_datechar c : is_digit c = true -> datechar c = true.
Proof. unfold datechar. now intros ->. Qed.

Lemma datechar_plain c : datechar c = true -> negb (reserved c) = true.
Proof.
  unfold datechar, is_digit, in_range, reserved, c_amp, c_lt, c_gt, c_quot, c_apos.
  intros H.
  destruct (Z.eqb_spec c 38), (Z.eqb_spec c 60), (Z.eqb_spec c 62),
    (Z.eqb_spec c 34), (Z.eqb_spec c 39); subst; try discriminate; reflexivity.
Qed.

Lemma datechar_not_T c : datechar c = true -> negb (c =? 84) = true.
Proof.
  unfold datechar, is_digit, in_range. intros H.
  destruct (Z.eqb_spec c 84); subst; [discriminate|reflexivity].
Qed.

Lemma decimal_plain w n : plain (decimal w n) = true.
Proof.
  apply (forallb_impl is_digit); [|apply decimal_digits].
  intros c H. now apply datechar_plain, digit_datechar.
Qed.

Lemma iso_date_datechar t : forallb datechar (iso_date t) = true.
Proof.
  unfold iso_date, iso_year.
  assert (D : forall w n, forallb datechar (decimal w n) = true).
  { intros. apply (forallb_impl is_digit); [apply digit_datechar|apply decimal_digits]. }
  rewrite !forallb_app, !D.
  destruct (in_range 0 9999 _); [now rewrite D|].
  rewrite forallb_app, D. now destruct (0 <=? _).
Qed.

Lemma iso_date_plain t : plain (iso_date t) = true.
Proof.
  apply (forallb_impl datechar); [apply datechar_plain|apply iso_date_datechar].
Qed.

Lemma priority_toString_plain h : plain (priority_toString h) = true.
Proof.
  unfold priority_toString.
  destruct (_ =? 0); [apply decimal_plain|].
  destruct (_ =? 0); rewrite plain_app, decimal_plain; reflexivity.
Qed.

Lemma xml_entity_lacks c x :
  negb (c =? c_amp) && reserved c = true -> lacks c (xml_entity x) = true.
Proof.
  unfold reserved, xml_entity, c_amp, c_lt, c_gt, c_quot, c_apos. intros H.
  destruct (Z.eqb_spec x 38); [subst|
  destruct (Z.eqb_spec x 60); [subst|
  destruct (Z.eqb_spec x 62); [subst|
  destruct (Z.eqb_spec x 34); [subst|
  destruct (Z.eqb_spec x 39); [subst|]]]]];
  try (destruct (Z.eqb_spec c 38), (Z.eqb_spec c 60), (Z.eqb_spec c 62),
    (Z.eqb_spec c 34), (Z.eqb_spec c 39); subst; try discriminate; reflexivity).
  simpl. rewrite andb_true_r.
  destruct (Z.eqb_spec c 38), (Z.eqb_spec c 60), (Z.eqb_spec c 62),
    (Z.eqb_spec c 34), (Z.eqb_spec c 39); subst; try discriminate;
  destruct (Z.eqb_spec x 60), (Z.eqb_spec x 62), (Z.eqb_spec x 34), (Z.eqb_spec x 39);
  try reflexivity; try contradiction; try lia.
Qed.

Lemma escapeXml_lacks c s :
  negb (c =? c_amp) && reserved c = true -> lacks c (escapeXml s) = true.
Proof.
  intros H. induction s as [|x s IH]; [reflexivity|].
  rewrite escapeXml_cons, lacks_app, IH, andb_true_r.
  now apply xml_entity_lacks.
Qed.

(** ** Number *)

Lemma digitless_drop_while p s :
  digitless s = true -> digitless (drop_while p s) = true.
Proof.
  induction s as [|c s IH]; [reflexivity|].
  intros H. cbn [drop_while]. destruct (p c); [|assumption].
  apply IH. cbn in H. now apply andb_prop in H.
Qed.

Lemma digitless_rev s : digitless s = true -> digitless (rev s) = true.
Proof.
  unfold digitless. rewrite !forallb_forall. intros H c Hc.
  apply H. now apply in_rev.
Qed.

Lemma digitless_trim s : digitless s = true -> digitless (trim s) = true.
Proof.
  intros H. unfold trim.
  now apply digitless_rev, digitless_drop_while, digitless_rev, digitless_drop_while.
Qed.

Lemma take_digits_digitless s : digitless s = true -> take_digits s = ([], s).
Proof.
  destruct s as [|c s]; [reflexivity|].
  cbn [digitless forallb take_digits]. intros H. apply andb_prop in H as [Hc _].
  now destruct (is_digit c).
Qed.

Lemma unsigned_decimal_digitless s :
  digitless s = true -> unsigned_decimal s = None.
Proof.
  intros H. unfold unsigned_decimal. rewrite (take_digits_digitless s H).
  destruct s as [|c r]; [reflexivity|].
  destruct (c =? 46); [|reflexivity].
  rewrite take_digits_digitless; [reflexivity|].
  cbn in H. now apply andb_prop in H.
Qed.

Lemma jsstring_eqb_eq a b : jsstring_eqb a b = true -> a = b.
Proof. unfold jsstring_eqb. now destruct (list_eq_dec Z.eq_dec a b). Qed.

Lemma StrUnsignedDecimalLiteral_digitless s :
  digitless s = true ->
  s = lit "Infinity" \/ StrUnsignedDecimalLiteral s = NaN.
Proof.
  intros H. unfold StrUnsignedDecimalLiteral.
  destruct (jsstring_eqb s (lit "Infinity")) eqn:E.
  - left. now apply jsstring_eqb_eq.
  - right. now rewrite unsigned_decimal_digitless.
Qed.

(** A setting without a digit is a number only when it is blank or names
    an infinity. *)
Lemma Number_digitless s :
  digitless s = true ->
  trim s = [] \/ trim s = lit "Infinity" \/ trim s = lit "+Infinity"
  \/ trim s = lit "-Infinity" \/ Number s = NaN.
Proof.
  intros H. apply digitless_trim in H. unfold Number.
  destruct (trim s) as [|c r]; [now left|]. right.
  pose proof H as Hr. cbn in Hr. apply andb_prop in Hr as [Hc Hr].
  destruct (Z.eqb_spec c 43) as [->|N43].
  { destruct (StrUnsignedDecimalLiteral_digitless r Hr) as [->| ->]; auto. }
  destruct (Z.eqb_spec c 45) as [->|N45].
  { destruct (StrUnsignedDecimalLiteral_digitless r Hr) as [->| ->]; auto. }
  destruct (Z.eqb_spec c 48) as [->|N48]; [discriminate Hc|].
  destruct (StrUnsignedDecimalLiteral_digitless (c :: r) H) as [->| ->]; auto.
Qed.

(** ** The calendar of toISOString *)

Lemma YearFromTime_spec t :
  DayFromYear (YearFromTime t) <= Day t < DayFromYear (YearFromTime t + 1).
Proof.
  unfold YearFromTime. generalize (Day t). intro d. cbv zeta.
  destruct (Z.ltb_spec d (DayFromYear (1970 + d * 400 / 146097))) as [H|H];
    [|destruct (Z.leb_spec (DayFromYear (1970 + d * 400 / 146097 + 1)) d) as [H1|H1]];
    unfold DayFromYear in *; Z.to_euclidean_division_equations; lia.
Qed.

(** No other year qualifies: [DayFromYear] is strictly increasing. *)
Lemma DayFromYear_step y : DayFromYear (y + 1) = DayFromYear y + DaysInYear y.
Proof.
  unfold DayFromYear, DaysInYear.
  destruct (Z.eqb_spec (y mod 4) 0), (Z.eqb_spec (y mod 100) 0),
    (Z.eqb_spec (y mod 400) 0); cbn [negb];
    Z.to_euclidean_division_equations; lia.
Qed.

Lemma DaysInYear_leap y : DaysInYear y = 365 + leap_year y.
Proof.
  unfold DaysInYear, leap_year.
  destruct (Z.eqb_spec (y mod 4) 0), (Z.eqb_spec (y mod 100) 0),
    (Z.eqb_spec (y mod 400) 0); cbn [negb andb orb]; try reflexivity;
    Z.to_euclidean_division_equations; lia.
Qed.

Lemma DayFromYear_mono y1 y2 : y1 <= y2 -> DayFromYear y1 <= DayFromYear y2.
Proof.
  intros H. unfold DayFromYear. Z.to_euclidean_division_equations; lia.
Qed.

Lemma YearFromTime_unique t y :
  DayFromYear y <= Day t < DayFromYear (y + 1) -> y = YearFromTime t.
Proof.
  intros H. pose proof (YearFromTime_spec t) as S.
  destruct (Z.lt_trichotomy y (YearFromTime t)) as [L|[E|G]]; [|assumption|].
  - pose proof (DayFromYear_mono (y + 1) (YearFromTime t) ltac:(lia)). lia.
  - pose proof (DayFromYear_mono (YearFromTime t + 1) y ltac:(lia)). lia.
Qed.

Lemma YearFromTime_range t :
  Z.abs t <= maxTime -> -271821 <= YearFromTime t <= 275760.
Proof.
  intros H. pose proof (YearFromTime_spec t) as S.
  assert (D : -100000000 <= Day t <= 100000000).
  { unfold Day, msPerDay, maxTime in *. Z.to_euclidean_division_equations; lia. }
  unfold DayFromYear in S. Z.to_euclidean_division_equations; lia.
Qed.

Lemma InLeapYear_leap t : InLeapYear t = leap_year (YearFromTime t).
Proof.
  unfold InLeapYear. rewrite DaysInYear_leap. unfold leap_year.
  destruct (_ && _); reflexivity.
Qed.

Lemma DayWithinYear_range t :
  0 <= DayWithinYear t < 365 + leap_year (YearFromTime t).
Proof.
  unfold DayWithinYear. pose proof (YearFromTime_spec t) as S.
  rewrite DayFromYear_step, DaysInYear_leap in S. lia.
Qed.

(** The year, month and day that [iso_date] prints are the civil date of
    the day [Day t]. *)
Lemma civil_date t :
  let y := YearFromTime t in
  let m := MonthFromTime t + 1 in
  let d := DateFromTime t in
  1 <= m <= 12 /\ 1 <= d <= days_in_month y m /\ day_of_civil y m d = Day t.
Proof.
  cbv zeta. pose proof (DayWithinYear_range t) as R.
  unfold day_of_civil, days_in_month, DateFromTime, MonthFromTime.
  rewrite InLeapYear_leap.
  assert (L : leap_year (YearFromTime t) = 0 \/ leap_year (YearFromTime t) = 1).
  { unfold leap_year. destruct (_ && _); auto. }
  unfold DayWithinYear in *.
  set (dy := Day t - DayFromYear (YearFromTime t)) in *.
  assert (E : Day t = DayFromYear (YearFromTime t) + dy) by (unfold dy; lia).
  rewrite E. clearbody dy. clear E.
  set (l := leap_year (YearFromTime t)) in *. clearbody l.
  repeat match goal with
         | |- context [?a <? ?b] => destruct (Z.ltb_spec a b)
         end;
    destruct L; subst l; cbn; lia.
Qed.

Lemma iso_date_date_only t : date_only t (iso_date t).
Proof.
  exists (YearFromTime t), (MonthFromTime t + 1), (DateFromTime t).
  destruct (civil_date t) as (Hm & Hd & Hc).
  repeat split; try assumption; try lia.
  apply (forallb_impl datechar); [apply datechar_not_T|apply iso_date_datechar].
Qed.

Lemma split_T_0_app a b :
  lacks 84 a = true -> split_T_0 (a ++ 84 :: b) = a.
Proof.
  induction a as [|c a IH]; simpl; intros H; [reflexivity|].
  apply andb_prop in H as [Hc Ha].
  destruct (c =? 84); [discriminate|]. now rewrite IH.
Qed.

(** The date-only text of a time value: [toISOString] cut at its "T" *)
Lemma split_T_0_toISOString t r :
  toISOString (DateOf t) = Ok r -> split_T_0 r = iso_date t.
Proof.
  unfold toISOString. intros H; injection H as <-.
  change (lit "T" ++ iso_time t ++ lit "Z") with (84 :: iso_time t ++ lit "Z").
  apply split_T_0_app.
  apply (forallb_impl datechar); [apply datechar_not_T|apply iso_date_datechar].
Qed.

(** ** encodeURIComponent *)

Lemma pair_induction (P : jsstring -> Prop) :
  P [] -> (forall c, P [c]) ->
  (forall c c2 s, P s -> P (c2 :: s) -> P (c :: c2 :: s)) ->
  forall s, P s.
Proof.
  intros H0 H1 H2 s.
  assert (H : P s /\ forall c, P (c :: s)); [|apply H].
  induction s as [|c2 s [IH1 IH2]]; split; auto.
Qed.

Lemma encodeURIComponent_cons c rest :
  encodeURIComponent (c :: rest) =
  if uri_unescaped c then
    rbind (encodeURIComponent rest) (fun r => Ok (c :: r))
  else if is_trailing_surrogate c then Throw URI_malformed
  else if is_leading_surrogate c then
    match rest with
    | [] => Throw URI_malformed
    | c2 :: rest2 =>
        if is_trailing_surrogate c2 then
          rbind (encodeURIComponent rest2) (fun r =>
            Ok (percent_encode (surrogate_pair_to_code_point c c2) ++ r))
        else Throw URI_malformed
    end
  else
    rbind (encodeURIComponent rest) (fun r => Ok (percent_encode c ++ r)).
Proof. reflexivity. Qed.

Lemma isWellFormed_cons c rest :
  isWellFormed (c :: rest) =
  if is_trailing_surrogate c then false
  else if is_leading_surrogate c then
    match rest with
    | c2 :: rest2 => is_trailing_surrogate c2 && isWellFormed rest2
    | [] => false
    end
  else isWellFormed rest.
Proof. reflexivity. Qed.

Lemma unescaped_not_surrogate c :
  uri_unescaped c = true ->
  is_trailing_surrogate c = false /\ is_leading_surrogate c = false.
Proof.
  unfold uri_unescaped, is_trailing_surrogate, is_leading_surrogate, in_range.
  intros H.
  split; apply andb_false_iff; rewrite !Z.leb_gt; bool_to_prop; lia.
Qed.

Lemma encodeURIComponent_wellFormed s :
  if isWellFormed s
  then exists enc, encodeURIComponent s = Ok enc
  else encodeURIComponent s = Throw URI_malformed.
Proof.
  induction s as [| c | c c2 s IH IH2] using pair_induction.
  - cbn. now eexists.
  - rewrite encodeURIComponent_cons, isWellFormed_cons.
    destruct (uri_unescaped c) eqn:U.
    + destruct (unescaped_not_surrogate c U) as [-> ->]. cbn. now eexists.
    + destruct (is_trailing_surrogate c); [reflexivity|].
      destruct (is_leading_surrogate c); [reflexivity|]. cbn. now eexists.
  - rewrite encodeURIComponent_cons, isWellFormed_cons.
    destruct (uri_unescaped c) eqn:U.
    + destruct (unescaped_not_surrogate c U) as [-> ->].
      destruct (isWellFormed (c2 :: s)).
      * destruct IH2 as [enc ->]. cbn. now eexists.
      * now rewrite IH2.
    + destruct (is_trailing_surrogate c); [reflexivity|].
      destruct (is_leading_surrogate c).
      * destruct (is_trailing_surrogate c2); [|reflexivity].
        cbn [andb]. destruct (isWellFormed s).
        -- destruct IH as [enc ->]. cbn. now eexists.
        -- now rewrite IH.
      * destruct (isWellFormed (c2 :: s)).
        -- destruct IH2 as [enc ->]. cbn. now eexists.
        -- now rewrite IH2.
Qed.

Lemma encodeURIComponent_Ok s :
  isWellFormed s = true -> exists enc, encodeURIComponent s = Ok enc.
Proof. intros H. pose proof (encodeURIComponent_wellFormed s) as W. now rewrite H in W. Qed.

Lemma encodeURIComponent_Throw s :
  isWellFormed s = false -> encodeURIComponent s = Throw URI_malformed.
Proof. intros H. pose proof (encodeURIComponent_wellFormed s) as W. now rewrite H in W. Qed.

Lemma hex_digit_safe d : 0 <= d < 16 -> uri_safe (hex_digit d) = true.
Proof.
  intros H. unfold uri_safe, hex_digit, in_range.
  destruct (Z.ltb_spec d 10).
  - replace ((48 <=? 48 + d) && (48 + d <=? 57)) with true; [now rewrite !orb_true_r|].
    symmetry. apply andb_true_iff. rewrite !Z.leb_le. lia.
  - replace ((65 <=? 55 + d) && (55 + d <=? 70)) with true; [now rewrite !orb_true_r|].
    symmetry. apply andb_true_iff. rewrite !Z.leb_le. lia.
Qed.

Lemma percent_octet_safe o :
  0 <= o < 256 -> forallb uri_safe (percent_octet o) = true.
Proof.
  intros H. unfold percent_octet. cbn [forallb].
  rewrite !hex_digit_safe by (Z.to_euclidean_division_equations; lia).
  reflexivity.
Qed.

Lemma percent_encode_safe cp :
  0 <= cp < 1114112 -> forallb uri_safe (percent_encode cp) = true.
Proof.
  intros H. unfold percent_encode, utf8_octets.
  repeat match goal with
         | |- context [?a <? ?b] => destruct (Z.ltb_spec a b)
         end;
    cbn [flat_map]; rewrite ?forallb_app;
    rewrite !percent_octet_safe by (Z.to_euclidean_division_equations; lia);
    reflexivity.
Qed.

Lemma encodeURIComponent_safe s enc :
  code_units s = true -> encodeURIComponent s = Ok enc ->
  forallb uri_safe enc = true.
Proof.
  revert enc. induction s as [| c | c c2 s IH IH2] using pair_induction;
    intros enc Hu.
  - cbn. now intros H; injection H as <-.
  - rewrite encodeURIComponent_cons.
    cbn in Hu. apply andb_prop in Hu as [Hc _].
    destruct (uri_unescaped c) eqn:U.
    + cbn. intros H; injection H as <-. cbn. unfold uri_safe. now rewrite U.
    + destruct (is_trailing_surrogate c); [discriminate|].
      destruct (is_leading_surrogate c); [discriminate|].
      cbn [encodeURIComponent rbind]. intros H; injection H as <-.
      rewrite app_nil_r. apply percent_encode_safe.
      unfold in_range in Hc. bool_to_prop. lia.
  - rewrite encodeURIComponent_cons.
    unfold code_units in Hu. cbn [forallb] in Hu.
    apply andb_prop in Hu as [Hc Hu]. pose proof Hu as Hu2.
    apply andb_prop in Hu2 as [Hc2 Hs].
    destruct (uri_unescaped c) eqn:U.
    + destruct (encodeURIComponent (c2 :: s)) as [r|]; [|discriminate].
      cbn [rbind]. intros H; injection H as <-. cbn [forallb].
      rewrite (IH2 r Hu eq_refl). unfold uri_safe. now rewrite U.
    + destruct (is_trailing_surrogate c) eqn:T; [discriminate|].
      destruct (is_leading_surrogate c) eqn:L.
      * destruct (is_trailing_surrogate c2) eqn:T2; [|discriminate].
        destruct (encodeURIComponent s) as [r|]; [|discriminate].
        cbn [rbind]. intros H; injection H as <-.
        rewrite forallb_app, (IH r Hs eq_refl), andb_true_r.
        apply percent_encode_safe.
        unfold surrogate_pair_to_code_point, is_leading_surrogate,
          is_trailing_surrogate, in_range in *. bool_to_prop; lia.
      * destruct (encodeURIComponent (c2 :: s)) as [r|]; [|discriminate].
        cbn [rbind]. intros H; injection H as <-.
        rewrite forallb_app, (IH2 r Hu eq_refl), andb_true_r.
        apply percent_encode_safe. unfold in_range in Hc. bool_to_prop. lia.
Qed.

(** ** The shape of one entry *)

Lemma lastmodTag_Ok lm tag :
  lastmodTag lm = Ok tag ->
  match lm with
  | None => tag = []
  | Some d => exists t, new_Date d = DateOf t
                        /\ tag = lit "<lastmod>" ++ iso_date t ++ lit "</lastmod>"
  end.
Proof.
  destruct lm as [d|]; unfold lastmodTag.
  - destruct (new_Date d) as [|t] eqn:E; [discriminate|].
    destruct (toISOString (DateOf t)) as [r|] eqn:R; [|discriminate].
    cbn [rbind]. intros H; injection H as <-. exists t. split; [reflexivity|].
    now rewrite (split_T_0_toISOString t r R).
  - now intros H; injection H as <-.
Qed.

Lemma lastmodTag_valid d :
  valid_date d = true ->
  exists t, new_Date d = DateOf t
            /\ lastmodTag (Some d) = Ok (lit "<lastmod>" ++ iso_date t ++ lit "</lastmod>").
Proof.
  unfold valid_date. intros H.
  destruct (lastmodTag (Some d)) as [tag|e] eqn:E.
  - apply lastmodTag_Ok in E as (t & Ht & ->). now exists t.
  - unfold lastmodTag in E. destruct (new_Date d); [discriminate|].
    unfold toISOString in E. discriminate.
Qed.

Lemma lastmodTag_invalid d :
  valid_date d = false -> lastmodTag (Some d) = Throw Invalid_time_value.
Proof.
  unfold valid_date, lastmodTag. destruct (new_Date d); [reflexivity|discriminate].
Qed.

Lemma urlEntry_Ok loc lm cf pr e :
  urlEntry loc lm cf pr = Ok e ->
  exists tag, lastmodTag lm = Ok tag
              /\ e = entry_text loc tag cf (priority_toString pr).
Proof.
  unfold urlEntry. destruct (lastmodTag lm) as [tag|]; cbn [rbind]; [|discriminate].
  intros H; injection H as <-. now exists tag.
Qed.

Lemma urlEntry_dated loc lm cf pr :
  match lm with
  | Some d => if valid_date d
              then exists e, urlEntry loc lm cf pr = Ok e
              else urlEntry loc lm cf pr = Throw Invalid_time_value
  | None => exists e, urlEntry loc lm cf pr = Ok e
  end.
Proof.
  unfold urlEntry. destruct lm as [d|]; [|now eexists].
  destruct (valid_date d) eqn:V.
  - destruct (lastmodTag_valid d V) as (t & _ & ->). cbn [rbind]. now eexists.
  - now rewrite (lastmodTag_invalid d V).
Qed.

Lemma entry_text_contains_loc loc tag cf pr :
  contains (entry_text loc tag cf pr) (lit "<loc>" ++ escapeXml loc ++ lit "</loc>").
Proof.
  unfold entry_text.
  exists (NL ++ lit "  <url>" ++ NL ++ lit "    ").
  eexists. rewrite <- !app_assoc. reflexivity.
Qed.

Lemma staticEntry_text site pg :
  staticEntry (VString site) pg = Ok (static_text site pg).
Proof. reflexivity. Qed.

Lemma staticEntry_Ok site pg e :
  staticEntry (VString site) pg = Ok e ->
  urlEntry (strip_trailing_slash site ++ path pg) None
    (changefreq pg) (priority pg) = Ok e.
Proof. intros H; exact H. Qed.

Lemma productEntry_Ok site prod e :
  productEntry (VString site) prod = Ok e ->
  exists ident, identifier prod = Ok ident
    /\ urlEntry (strip_trailing_slash site ++ lit "/" ++ ident)
         (lastmod_of prod) (lit "weekly") 80 = Ok e.
Proof.
  unfold productEntry. destruct (identifier prod) as [ident|]; [|discriminate].
  cbn [rbind replace_trailing_slash]. intros H. now exists ident.
Qed.

Lemma identifier_Ok prod :
  match slug prod with
  | Some s => isWellFormed s = true
  | None => True
  end ->
  exists ident, identifier prod = Ok ident
    /\ match slug prod with
       | Some (c :: s) =>
           exists enc, encodeURIComponent (c :: s) = Ok enc
                       /\ ident = lit "product/" ++ enc
       | Some [] | None => ident = lit "product/" ++ _id prod
       end.
Proof.
  unfold identifier. destruct (slug prod) as [[|c s]|]; intros H.
  - now eexists.
  - destruct (encodeURIComponent_Ok _ H) as [enc E]. rewrite E. cbn [rbind].
    eexists. split; [reflexivity|]. now exists enc.
  - now eexists.
Qed.

Lemma productEntry_buildable site prod :
  if buildable prod
  then exists e, productEntry (VString site) prod = Ok e
  else exists e, productEntry (VString site) prod = Throw e /\ item_error e.
Proof.
  unfold buildable, productEntry.
  assert (D : forall ident,
             match lastmod_of prod with
             | Some d => valid_date d
             | None => true
             end = true ->
             exists e, urlEntry (strip_trailing_slash site ++ lit "/" ++ ident)
                         (lastmod_of prod) (lit "weekly") 80 = Ok e).
  { intros ident H.
    pose proof (urlEntry_dated (strip_trailing_slash site ++ lit "/" ++ ident)
                  (lastmod_of prod) (lit "weekly") 80) as U.
    destruct (lastmod_of prod) as [d|]; [now rewrite H in U|assumption]. }
  assert (N : forall ident,
             match lastmod_of prod with
             | Some d => valid_date d
             | None => true
             end = false ->
             urlEntry (strip_trailing_slash site ++ lit "/" ++ ident)
               (lastmod_of prod) (lit "weekly") 80 = Throw Invalid_time_value).
  { intros ident H.
    pose proof (urlEntry_dated (strip_trailing_slash site ++ lit "/" ++ ident)
                  (lastmod_of prod) (lit "weekly") 80) as U.
    destruct (lastmod_of prod) as [d|]; [now rewrite H in U|discriminate]. }
  unfold identifier.
  destruct (slug prod) as [[|c s]|].
  - cbn [isWellFormed andb rbind replace_trailing_slash].
    destruct (match lastmod_of prod with Some d => valid_date d | None => true end).
    + now apply D.
    + rewrite (N _ eq_refl). eexists; split; [reflexivity | now right].
  - destruct (isWellFormed (c :: s)) eqn:W; cbn [andb].
    + destruct (encodeURIComponent_Ok _ W) as [enc ->].
      cbn [rbind replace_trailing_slash].
      destruct (match lastmod_of prod with Some d => valid_date d | None => true end).
      * now apply D.
      * rewrite (N _ eq_refl). eexists; split; [reflexivity | now right].
    + rewrite (encodeURIComponent_Throw _ W). cbn [rbind].
      eexists; split; [reflexivity | now left].
  - cbn [andb rbind replace_trailing_slash].
    destruct (match lastmod_of prod with Some d => valid_date d | None => true end).
    + now apply D.
    + rewrite (N _ eq_refl). eexists; split; [reflexivity | now right].
Qed.

(** ** Markup in one entry *)

Create HintDb plain.
#[local] Hint Resolve iso_date_plain priority_toString_plain decimal_plain : plain.

Ltac plain_solver :=
  first [ assumption | solve [auto with plain] | reflexivity ].

Ltac count_parts :=
  lazymatch goal with
  | |- counts _ _ (_ ++ _) => eapply counts_app; count_parts
  | |- counts _ _ [] => apply counts_nil
  | |- counts _ _ (lit _) => apply counts_fixed; vm_compute; reflexivity
  | |- counts _ _ NL => apply counts_fixed; vm_compute; reflexivity
  | |- counts _ _ DQ => apply counts_fixed; vm_compute; reflexivity
  | |- counts _ _ (escapeXml _) =>
      apply counts_lacks, escapeXml_lacks; reflexivity
  | |- counts _ _ _ =>
      apply counts_lacks, plain_lacks; [reflexivity | plain_solver]
  end.

(** Occurrences of a markup pattern in one entry: [k0] without a lastmod
    line, [k1] with one *)
Ltac entry_counts :=
  let He := fresh "He" in
  let Hp := fresh "Hp" in
  let Ht := fresh "Ht" in
  let tag := fresh "tag" in
  let t := fresh "t" in
  intros He Hp; apply urlEntry_Ok in He as (tag & Ht & ->);
  apply lastmodTag_Ok in Ht;
  lazymatch goal with
  | lm : option Date |- _ =>
      destruct lm as [?|]; [destruct Ht as (t & _ & ->)|subst tag];
      unfold entry_text; (eapply counts_eq; [count_parts | vm_compute; reflexivity])
  end.

Lemma urlEntry_url_open loc lm cf pr e :
  urlEntry loc lm cf pr = Ok e -> plain cf = true ->
  counts (lit "<url>") 1 e.
Proof. entry_counts. Qed.

Lemma urlEntry_urlset_open loc lm cf pr e :
  urlEntry loc lm cf pr = Ok e -> plain cf = true ->
  counts (lit "<urlset") 0 e.
Proof. entry_counts. Qed.

Lemma urlEntry_urlset_close loc lm cf pr e :
  urlEntry loc lm cf pr = Ok e -> plain cf = true ->
  counts (lit "</urlset>") 0 e.
Proof. entry_counts. Qed.

Lemma urlEntry_url_open_any loc lm cf pr e :
  urlEntry loc lm cf pr = Ok e -> plain cf = true ->
  counts (lit "<url>") (per_entry 1 1 lm) e.
Proof.
  intros He Hp. replace (per_entry 1 1 lm) with 1%nat by now destruct lm.
  now apply (urlEntry_url_open loc lm cf pr).
Qed.

Lemma urlEntry_urlset_open_any loc lm cf pr e :
  urlEntry loc lm cf pr = Ok e -> plain cf = true ->
  counts (lit "<urlset") (per_entry 0 0 lm) e.
Proof.
  intros He Hp. replace (per_entry 0 0 lm) with 0%nat by now destruct lm.
  now apply (urlEntry_urlset_open loc lm cf pr).
Qed.

Lemma urlEntry_urlset_close_any loc lm cf pr e :
  urlEntry loc lm cf pr = Ok e -> plain cf = true ->
  counts (lit "</urlset>") (per_entry 0 0 lm) e.
Proof.
  intros He Hp. replace (per_entry 0 0 lm) with 0%nat by now destruct lm.
  now apply (urlEntry_urlset_close loc lm cf pr).
Qed.

Lemma urlEntry_lt loc lm cf pr e :
  urlEntry loc lm cf pr = Ok e -> plain cf = true ->
  counts [c_lt] (per_entry 8 10 lm) e.
Proof. entry_counts. Qed.

Lemma urlEntry_gt loc lm cf pr e :
  urlEntry loc lm cf pr = Ok e -> plain cf = true ->
  counts [c_gt] (per_entry 8 10 lm) e.
Proof. entry_counts. Qed.

Lemma urlEntry_quot loc lm cf pr e :
  urlEntry loc lm cf pr = Ok e -> plain cf = true ->
  counts [c_quot] 0 e.
Proof. entry_counts. Qed.

Lemma urlEntry_apos loc lm cf pr e :
  urlEntry loc lm cf pr = Ok e -> plain cf = true ->
  counts [c_apos] 0 e.
Proof. entry_counts. Qed.

(** ** Ampersands *)

Lemma tidy_app a b : tidy a -> tidy b -> tidy (a ++ b).
Proof.
  unfold tidy, ampersands_escaped, amp_patterns. cbn [forallb].
  intros [Ca Ea] [Cb Eb].
  repeat match goal with
         | H : _ && _ = true |- _ => apply andb_prop in H as [? ?]
         end.
  split.
  - rewrite !closed_app by assumption. reflexivity.
  - rewrite !occ_closed by assumption. lia.
Qed.

Lemma tidy_lacks s : lacks c_amp s = true -> tidy s.
Proof.
  intros H. split.
  - unfold amp_patterns. cbn [forallb]. unfold lit; cbn [N_of_ascii Z.of_N].
    change (Z.of_N (N_of_ascii "&")) with c_amp.
    rewrite !(closed_lacks c_amp) by assumption. reflexivity.
  - unfold ampersands_escaped.
    change (lit "&amp;") with (c_amp :: lit "amp;").
    change (lit "&lt;") with (c_amp :: lit "lt;").
    change (lit "&gt;") with (c_amp :: lit "gt;").
    change (lit "&quot;") with (c_amp :: lit "quot;").
    change (lit "&apos;") with (c_amp :: lit "apos;").
    rewrite !(occ_lacks_nil c_amp) by assumption. reflexivity.
Qed.

Lemma tidy_fixed s :
  forallb (fun q => closed q s) amp_patterns = true ->
  (occ [c_amp] s =? occ (lit "&amp;") s + occ (lit "&lt;") s + occ (lit "&gt;") s
     + occ (lit "&quot;") s + occ (lit "&apos;") s)%nat = true ->
  tidy s.
Proof. intros H1 H2. split; [assumption|now apply Nat.eqb_eq]. Qed.

Lemma tidy_xml_entity c : tidy (xml_entity c).
Proof.
  unfold xml_entity.
  destruct (Z.eqb_spec c c_amp); [apply tidy_fixed; reflexivity|].
  destruct (Z.eqb_spec c c_lt); [apply tidy_fixed; reflexivity|].
  destruct (Z.eqb_spec c c_gt); [apply tidy_fixed; reflexivity|].
  destruct (Z.eqb_spec c c_quot); [apply tidy_fixed; reflexivity|].
  destruct (Z.eqb_spec c c_apos); [apply tidy_fixed; reflexivity|].
  apply tidy_lacks. unfold lacks. cbn [forallb].
  destruct (Z.eqb_spec c c_amp); [contradiction|reflexivity].
Qed.

Lemma tidy_escapeXml s : tidy (escapeXml s).
Proof.
  induction s as [|c s IH]; [now apply tidy_lacks|].
  rewrite escapeXml_cons. apply tidy_app; [apply tidy_xml_entity|assumption].
Qed.

Lemma tidy_join sep items :
  tidy sep -> Forall tidy items -> tidy (join sep items).
Proof.
  intros Hs H. induction H as [|e items He Hrest IH]; [now apply tidy_lacks|].
  cbn [join]. destruct items; [assumption|].
  repeat apply tidy_app; assumption.
Qed.

Ltac tidy_parts :=
  lazymatch goal with
  | |- tidy (_ ++ _) => apply tidy_app; tidy_parts
  | |- tidy (escapeXml _) => apply tidy_escapeXml
  | |- tidy (join _ _) => apply tidy_join; [tidy_parts | assumption]
  | |- tidy (lit _) => apply tidy_lacks; reflexivity
  | |- tidy NL => apply tidy_lacks; reflexivity
  | |- tidy DQ => apply tidy_lacks; reflexivity
  | |- tidy xml_declaration => apply tidy_lacks; reflexivity
  | |- tidy urlset_open => apply tidy_lacks; reflexivity
  | |- tidy _ => apply tidy_lacks, plain_lacks; [reflexivity | plain_solver]
  end.

Lemma urlEntry_tidy loc lm cf pr e :
  urlEntry loc lm cf pr = Ok e -> plain cf = true -> tidy e.
Proof.
  intros He Hp. apply urlEntry_Ok in He as (tag & Ht & ->).
  apply lastmodTag_Ok in Ht.
  destruct lm as [d|]; [destruct Ht as (t & _ & ->)|subst tag];
    unfold entry_text; tidy_parts.
Qed.

(** ** The shape of the document *)

Lemma staticPages_plain :
  forallb (fun pg => plain (changefreq pg)) staticPages = true.
Proof. reflexivity. Qed.

Lemma build_Ok site products xml :
  build (VString site) products = Ok xml ->
  exists statics prods,
    Forall2 (fun pg e => staticEntry (VString site) pg = Ok e) staticPages statics
    /\ Forall2 (fun prod e => productEntry (VString site) prod = Ok e) products prods
    /\ xml = document (statics ++ prods).
Proof.
  unfold build.
  destruct (for_of (staticEntry (VString site)) staticPages) as [statics|] eqn:Hs;
    [|discriminate].
  destruct (for_of (productEntry (VString site)) products) as [prods|] eqn:Hp;
    [|discriminate].
  cbn [rbind]. intros H; injection H as <-.
  exists statics, prods. repeat split; now apply for_of_Forall2.
Qed.

Lemma build_array items products :
  build (VArray items) products = Throw not_a_function.
Proof. reflexivity. Qed.

Lemma build_buildable site products :
  if forallb buildable products
  then exists xml, build (VString site) products = Ok xml
  else exists e, build (VString site) products = Throw e /\ item_error e.
Proof.
  unfold build.
  rewrite (for_of_map _ (static_text site)) by apply staticEntry_text.
  cbn [rbind].
  pose proof (for_of_forallb (productEntry (VString site)) buildable item_error
                (productEntry_buildable site) products) as H.
  destruct (forallb buildable products).
  - destruct H as [prods ->]. cbn [rbind]. now eexists.
  - destruct H as (e & -> & He). cbn [rbind]. now exists e.
Qed.

Lemma entries_counts p k0 k1 site products statics prods :
  (forall loc lm cf pr e,
      urlEntry loc lm cf pr = Ok e -> plain cf = true ->
      counts p (per_entry k0 k1 lm) e) ->
  Forall2 (fun pg e => staticEntry (VString site) pg = Ok e) staticPages statics ->
  Forall2 (fun prod e => productEntry (VString site) prod = Ok e) products prods ->
  Forall2 (counts p) (entry_counts_of k0 k1 products) (statics ++ prods).
Proof.
  intros Hk Hs Hp. apply Forall2_app.
  - eapply Forall2_counts; [|exact Hs].
    intros pg e Hin He. apply staticEntry_Ok in He.
    apply (Hk _ _ _ _ _ He).
    pose proof staticPages_plain as P. rewrite forallb_forall in P. now apply P.
  - eapply Forall2_counts; [|exact Hp].
    intros prod e _ He. apply productEntry_Ok in He as (ident & _ & He).
    now apply (Hk _ _ _ _ _ He).
Qed.

Lemma entries_tidy site products statics prods :
  Forall2 (fun pg e => staticEntry (VString site) pg = Ok e) staticPages statics ->
  Forall2 (fun prod e => productEntry (VString site) prod = Ok e) products prods ->
  Forall tidy (statics ++ prods).
Proof.
  intros Hs Hp. apply Forall_app. split.
  - pose proof staticPages_plain as P. rewrite forallb_forall in P.
    induction Hs as [|pg e l es He _ IH]; constructor.
    + apply staticEntry_Ok in He. eapply urlEntry_tidy; [exact He|].
      apply P. now left.
    + apply IH. intros; apply P. now right.
  - induction Hp as [|prod e l es He _ IH]; constructor; [|assumption].
    apply productEntry_Ok in He as (ident & _ & He).
    now eapply urlEntry_tidy; [exact He|].
Qed.

Ltac document_counts :=
  unfold document;
  lazymatch goal with
  | H : Forall2 (counts _) _ _ |- _ =>
      eapply counts_eq;
      [ repeat lazymatch goal with
          | |- counts _ _ (join NL _ ++ _) =>
              eapply counts_app;
              [ eapply counts_join; [apply counts_fixed; reflexivity | exact H] |]
          | |- counts _ _ (_ ++ _) => eapply counts_app
          | |- counts _ _ _ =>
              apply counts_known; [vm_compute; reflexivity | vm_compute; reflexivity]
          end
      | lia ]
  end.

Lemma list_sum_const {A} (k : nat) (l : list A) :
  list_sum (map (fun _ => k) l) = (k * List.length l)%nat.
Proof. induction l; simpl; lia. Qed.

Lemma list_sum_per_entry k0 d products :
  list_sum (map (fun prod => per_entry k0 (k0 + d) (lastmod_of prod)) products)
  = (k0 * List.length products
     + d * List.length (filter has_lastmod products))%nat.
Proof.
  induction products as [|prod l IH]; [simpl; lia|].
  rewrite map_cons.
  change (list_sum (?x :: ?r)) with (x + list_sum r)%nat.
  rewrite IH. cbn [filter]. unfold has_lastmod.
  destruct (lastmod_of prod); cbn [per_entry List.length]; lia.
Qed.

Lemma list_sum_entry_counts k0 d products :
  list_sum (entry_counts_of k0 (k0 + d) products)
  = (k0 * (12 + List.length products)
     + d * List.length (filter has_lastmod products))%nat.
Proof.
  unfold entry_counts_of. rewrite list_sum_app, list_sum_const, list_sum_per_entry.
  change (List.length staticPages) with 12%nat. lia.
Qed.

Lemma document_url_open items ns :
  Forall2 (counts (lit "<url>")) ns items ->
  occ (lit "<url>") (document items) = (0 + list_sum ns)%nat.
Proof.
  intros H.
  assert (C : counts (lit "<url>") (list_sum ns) (document items)).
  { document_counts. }
  apply C.
Qed.

Lemma document_urlset_open items ns :
  Forall2 (counts (lit "<urlset")) ns items ->
  occ (lit "<urlset") (document items) = (1 + list_sum ns)%nat.
Proof.
  intros H.
  assert (C : counts (lit "<urlset") (1 + list_sum ns) (document items))
    by document_counts.
  apply C.
Qed.

Lemma document_urlset_close items ns :
  Forall2 (counts (lit "</urlset>")) ns items ->
  occ (lit "</urlset>") (document items) = (1 + list_sum ns)%nat.
Proof.
  intros H.
  assert (C : counts (lit "</urlset>") (1 + list_sum ns) (document items))
    by document_counts.
  apply C.
Qed.

Lemma document_lt items ns :
  Forall2 (counts [c_lt]) ns items ->
  occ [c_lt] (document items) = (3 + list_sum ns)%nat.
Proof.
  intros H.
  assert (C : counts [c_lt] (3 + list_sum ns) (document items)) by document_counts.
  apply C.
Qed.

Lemma document_gt items ns :
  Forall2 (counts [c_gt]) ns items ->
  occ [c_gt] (document items) = (3 + list_sum ns)%nat.
Proof.
  intros H.
  assert (C : counts [c_gt] (3 + list_sum ns) (document items)) by document_counts.
  apply C.
Qed.

Lemma document_quot items ns :
  Forall2 (counts [c_quot]) ns items ->
  occ [c_quot] (document items) = (6 + list_sum ns)%nat.
Proof.
  intros H.
  assert (C : counts [c_quot] (6 + list_sum ns) (document items)) by document_counts.
  apply C.
Qed.

Lemma document_apos items ns :
  Forall2 (counts [c_apos]) ns items ->
  occ [c_apos] (document items) = list_sum ns.
Proof.
  intros H.
  assert (C : counts [c_apos] (list_sum ns) (document items)) by document_counts.
  apply C.
Qed.

Lemma document_tidy items : Forall tidy items -> tidy (document items).
Proof. intros H. unfold document. tidy_parts. Qed.

Lemma document_contains items e : In e items -> contains (document items) e.
Proof.
  intros H. unfold document.
  do 4 apply contains_app_r. apply contains_app_l. now apply join_contains.
Qed.

(** Occurrences of a markup pattern in what the builder returns *)
Lemma build_occ p k0 k1 K site products xml :
  (forall loc lm cf pr e,
      urlEntry loc lm cf pr = Ok e -> plain cf = true ->
      counts p (per_entry k0 k1 lm) e) ->
  (forall items ns,
      Forall2 (counts p) ns items -> occ p (document items) = (K + list_sum ns)%nat) ->
  build (VString site) products = Ok xml ->
  occ p xml = (K + list_sum (entry_counts_of k0 k1 products))%nat.
Proof.
  intros He Hd Hb. apply build_Ok in Hb as (statics & prods & Hs & Hp & ->).
  apply Hd. now apply (entries_counts p k0 k1 site).
Qed.

Lemma build_tidy site products xml :
  build (VString site) products = Ok xml -> ampersands_escaped xml.
Proof.
  intros Hb. apply build_Ok in Hb as (statics & prods & Hs & Hp & ->).
  apply document_tidy. now apply (entries_tidy site products).
Qed.

(** One [url] element per entry, inside one [urlset] element *)
Lemma url_elements site products xml :
  build (VString site) products = Ok xml ->
  occ (lit "<urlset") xml = 1%nat
  /\ occ (lit "</urlset>") xml = 1%nat
  /\ occ (lit "<url>") xml = (List.length staticPages + List.length products)%nat.
Proof.
  intros Hb. split; [|split].
  - rewrite (build_occ _ 0 0 1 site products xml
               urlEntry_urlset_open_any document_urlset_open Hb).
    change (entry_counts_of 0 0 products) with (entry_counts_of 0 (0 + 0) products).
    rewrite list_sum_entry_counts. lia.
  - rewrite (build_occ _ 0 0 1 site products xml
               urlEntry_urlset_close_any document_urlset_close Hb).
    change (entry_counts_of 0 0 products) with (entry_counts_of 0 (0 + 0) products).
    rewrite list_sum_entry_counts. lia.
  - rewrite (build_occ _ 1 1 0 site products xml
               urlEntry_url_open_any document_url_open Hb).
    change (entry_counts_of 1 1 products) with (entry_counts_of 1 (1 + 0) products).
    rewrite list_sum_entry_counts. change (List.length staticPages) with 12%nat. lia.
Qed.

(** ** The builder in the process *)

Lemma buildSitemapXml_run siteUrl w :
  buildSitemapXml siteUrl w =
  (mkWorld (process_env w) (cachedXml w) (cacheTimestamp w) (clock w)
     (clockReads w) (catalog w) (S (catalogCalls w)) (console w),
   rbind (catalog w (catalogCalls w)) (build siteUrl)).
Proof.
  unfold buildSitemapXml, bind, Product_find, lift.
  destruct (catalog w (catalogCalls w)); reflexivity.
Qed.

Lemma buildSitemapXml_Ok siteUrl w xml :
  snd (buildSitemapXml siteUrl w) = Ok xml ->
  exists products,
    catalog w (catalogCalls w) = Ok products /\ build siteUrl products = Ok xml.
Proof.
  rewrite buildSitemapXml_run. cbn [snd].
  destruct (catalog w (catalogCalls w)) as [products|e]; [|discriminate].
  intros H. now exists products.
Qed.

(** ** The handler *)

Lemma serveSitemap_configured w :
  site_configured (process_env w) = true ->
  serveSitemap w =
  (mkWorld (process_env w) (cachedXml w) (cacheTimestamp w) (clock w)
     (clockReads w) (catalog w) (catalogCalls w)
     (console w ++ [error_log constant_assignment]),
   Ok send_error).
Proof.
  unfold site_configured, env_truthy, truthy. intros H.
  unfold serveSitemap, try_catch, serveSitemap_try, bind, get_env.
  destruct (SITE_URL (process_env w)) as [[|c s]|];
    destruct (CLIENT_URL (process_env w)) as [[|c' s']|];
    try discriminate; reflexivity.
Qed.

Lemma serveSitemap_fresh w :
  site_configured (process_env w) = false -> cache_fresh w = true ->
  exists xml, cachedXml w = Some xml /\
  serveSitemap w =
  (mkWorld (process_env w) (cachedXml w) (cacheTimestamp w) (clock w)
     (S (clockReads w)) (catalog w) (catalogCalls w) (console w),
   Ok (send_xml xml)).
Proof.
  unfold site_configured, env_truthy, truthy, cache_fresh. intros H F.
  destruct (cachedXml w) as [xml|] eqn:C; [|discriminate].
  exists xml. split; [reflexivity|].
  unfold serveSitemap, try_catch, serveSitemap_try, bind, get_env.
  destruct (SITE_URL (process_env w)) as [[|c s]|];
    destruct (CLIENT_URL (process_env w)) as [[|c' s']|];
    try discriminate;
    cbn [ret Date_now get_cachedXml get_cacheTimestamp cachedXml cacheTimestamp
         process_env clock clockReads];
    rewrite C, F; reflexivity.
Qed.

Lemma serveSitemap_rebuild w :
  site_configured (process_env w) = false -> cache_fresh w = false ->
  serveSitemap w =
  (mkWorld (process_env w) (cachedXml w) (cacheTimestamp w) (clock w)
     (S (clockReads w)) (catalog w) (S (catalogCalls w))
     (console w ++ [error_log (rebuild_error w)]),
   Ok send_error).
Proof.
  unfold site_configured, env_truthy, truthy, cache_fresh, rebuild_error.
  intros H F.
  unfold serveSitemap, try_catch, serveSitemap_try, bind, get_env.
  destruct (SITE_URL (process_env w)) as [[|c s]|];
    destruct (CLIENT_URL (process_env w)) as [[|c' s']|];
    try discriminate;
    cbn [ret Date_now get_cachedXml get_cacheTimestamp cachedXml cacheTimestamp
         process_env clock clockReads];
    rewrite F;
    unfold buildSitemapXml, bind, Product_find, lift;
    cbn [process_env cachedXml cacheTimestamp clock clockReads catalog
         catalogCalls console];
    destruct (catalog w (catalogCalls w)) as [products|e];
    rewrite ?build_array; reflexivity.
Qed.

(** The handler always answers: nothing escapes its [catch]. *)
Lemma serveSitemap_responds w : exists res, snd (serveSitemap w) = Ok res.
Proof.
  destruct (site_configured (process_env w)) eqn:Hs.
  - rewrite (serveSitemap_configured w Hs). now eexists.
  - destruct (cache_fresh w) eqn:Hf.
    + destruct (serveSitemap_fresh w Hs Hf) as (xml & _ & ->). now eexists.
    + rewrite (serveSitemap_rebuild w Hs Hf). now eexists.
Qed.

Lemma serveSitemap_keeps_cache w :
  cachedXml (fst (serveSitemap w)) = cachedXml w
  /\ cacheTimestamp (fst (serveSitemap w)) = cacheTimestamp w.
Proof.
  destruct (site_configured (process_env w)) eqn:Hs.
  - now rewrite (serveSitemap_configured w Hs).
  - destruct (cache_fresh w) eqn:Hf.
    + destruct (serveSitemap_fresh w Hs Hf) as (xml & _ & ->). now split.
    + now rewrite (serveSitemap_rebuild w Hs Hf).
Qed.

Lemma serveSitemap_empty_cache w :
  cachedXml w = None -> snd (serveSitemap w) = Ok send_error.
Proof.
  intros C. destruct (site_configured (process_env w)) eqn:Hs.
  - now rewrite (serveSitemap_configured w Hs).
  - rewrite (serveSitemap_rebuild w Hs); [reflexivity|].
    unfold cache_fresh. now rewrite C.
Qed.

(** A process that starts with an empty cache never answers with a
    sitemap, whatever the configuration, the clock and the catalog. *)
Lemma requests_all_fail n w :
  cachedXml w = None ->
  Forall (fun r => r = Ok send_error) (snd (requests n w))
  /\ cachedXml (fst (requests n w)) = None.
Proof.
  revert w; induction n as [|n IH]; intros w C; [now split|].
  cbn [requests].
  pose proof (serveSitemap_empty_cache w C) as R.
  pose proof (proj1 (serveSitemap_keeps_cache w)) as K.
  destruct (serveSitemap w) as [w1 r]. cbn [fst snd] in *.
  rewrite C in K. destruct (IH w1 K) as [A B].
  destruct (requests n w1) as [w2 rs]. cbn [fst snd] in *.
  split; [constructor|]; assumption.
Qed.

Lemma serveSitemap_process_env w :
  process_env (fst (serveSitemap w)) = process_env w.
Proof.
  destruct (site_configured (process_env w)) eqn:Hs.
  - now rewrite (serveSitemap_configured w Hs).
  - destruct (cache_fresh w) eqn:Hf.
    + now destruct (serveSitemap_fresh w Hs Hf) as (xml & _ & ->).
    + now rewrite (serveSitemap_rebuild w Hs Hf).
Qed.

Lemma requests_length n w : List.length (snd (requests n w)) = n.
Proof.
  revert w; induction n as [|n IH]; intros w; [reflexivity|].
  cbn [requests]. destruct (serveSitemap w) as [w1 r].
  specialize (IH w1). destruct (requests n w1) as [w2 rs].
  cbn [snd List.length] in *. now rewrite IH.
Qed.

(** With an empty cache every request without a configured site URL
    queries the catalog, and no request with one does. *)
Lemma requests_catalogCalls n w :
  cachedXml w = None ->
  catalogCalls (fst (requests n w))
  = (catalogCalls w + if site_configured (process_env w) then 0 else n)%nat.
Proof.
  revert w; induction n as [|n IH]; intros w C.
  - cbn [requests fst]. destruct (site_configured (process_env w)); lia.
  - cbn [requests].
    pose proof (proj1 (serveSitemap_keeps_cache w)) as K.
    pose proof (serveSitemap_process_env w) as P.
    assert (Q : catalogCalls (fst (serveSitemap w))
                = (catalogCalls w
                   + if site_configured (process_env w) then 0 else 1)%nat).
    { destruct (site_configured (process_env w)) eqn:Hs.
      - rewrite (serveSitemap_configured w Hs). cbn [fst catalogCalls]. lia.
      - rewrite (serveSitemap_rebuild w Hs); [cbn [fst catalogCalls]; lia|].
        unfold cache_fresh. now rewrite C. }
    destruct (serveSitemap w) as [w1 r]. cbn [fst snd] in *.
    rewrite C in K. specialize (IH w1 K).
    destruct (requests n w1) as [w2 rs]. cbn [fst snd] in *.
    rewrite IH, Q, P. destruct (site_configured (process_env w)); lia.
Qed.

(** * Proofs for the server and for the further statements *)

(** ** Strings and arrays of the server *)

Lemma jsstring_eqb_refl a : jsstring_eqb a a = true.
Proof. unfold jsstring_eqb. now destruct (list_eq_dec Z.eq_dec a a). Qed.

Lemma includes_In arr x : includes arr x = true <-> In x arr.
Proof.
  unfold includes. rewrite existsb_exists. split.
  - intros (y & Hy & E). apply jsstring_eqb_eq in E. now subst.
  - intros H. exists x. split; [assumption|apply jsstring_eqb_refl].
Qed.

Lemma includes_incl a b x : incl a b -> includes a x = true -> includes b x = true.
Proof. rewrite !includes_In. auto. Qed.

Lemma includes_app a b x : includes (a ++ b) x = includes a x || includes b x.
Proof. apply existsb_app. Qed.

Lemma prefixb_inv p s : prefixb p s = true -> exists r, s = p ++ r.
Proof.
  revert s; induction p as [|a p IH]; intros s H; [now exists s|].
  destruct s as [|b s]; [discriminate|].
  cbn [prefixb] in H. apply andb_prop in H as [E H]. apply Z.eqb_eq in E. subst b.
  destruct (IH s H) as [r ->]. now exists r.
Qed.

Lemma endsWith_app a p : endsWith (a ++ p) p = true.
Proof. unfold endsWith. rewrite rev_app_distr. apply prefixb_app. Qed.

Lemma endsWith_inv s p : endsWith s p = true -> exists a, s = a ++ p.
Proof.
  unfold endsWith. intros H. apply prefixb_inv in H as [r H].
  exists (rev r). apply (f_equal (@rev Z)) in H.
  now rewrite rev_involutive, rev_app_distr, rev_involutive in H.
Qed.

Lemma strip_trailing_slash_last s c :
  strip_trailing_slash (s ++ [c]) = if c =? c_slash then s else s ++ [c].
Proof.
  induction s as [|x s IH]; [reflexivity|].
  cbn [app strip_trailing_slash]. rewrite IH.
  destruct (s ++ [c]) eqn:E; [now destruct s|].
  now destruct (c =? c_slash).
Qed.

Lemma strip_trailing_slash_slash s : strip_trailing_slash (s ++ lit "/") = s.
Proof. exact (strip_trailing_slash_last s 47). Qed.

Lemma strip_trailing_slash_keeps s p c :
  c <> c_slash -> strip_trailing_slash (s ++ p ++ [c]) = s ++ p ++ [c].
Proof.
  intros H. rewrite app_assoc, strip_trailing_slash_last.
  destruct (Z.eqb_spec c c_slash); [contradiction|reflexivity].
Qed.

Lemma split_on_nonempty sep s : split_on sep s <> [].
Proof.
  induction s as [|c s IH]; [discriminate|].
  cbn [split_on]. destruct (c =? sep); [discriminate|].
  now destruct (split_on sep s).
Qed.

Lemma split_on_app sep a b :
  split_on sep (a ++ sep :: b) = split_on sep a ++ split_on sep b.
Proof.
  induction a as [|c a IH]; cbn [app split_on].
  - now rewrite Z.eqb_refl.
  - rewrite IH. destruct (c =? sep); [reflexivity|].
    pose proof (split_on_nonempty sep a).
    now destruct (split_on sep a).
Qed.

(** ** Allowed origins *)

Lemma allowedOrigins_listed client_url u :
  In u (listedOrigins client_url) -> In u (allowedOrigins client_url).
Proof.
  unfold allowedOrigins. destruct (includes _ _); [auto|].
  intros H. apply in_or_app. now left.
Qed.

Lemma allowedOrigins_localhost client_url :
  In localhost_dev (allowedOrigins client_url).
Proof.
  unfold allowedOrigins.
  destruct (includes (listedOrigins client_url) localhost_dev) eqn:E.
  - now apply includes_In.
  - apply in_or_app. right. now left.
Qed.

Lemma listedOrigins_app c1 c2 :
  listedOrigins (Some (c1 ++ lit "," ++ c2))
  = listedOrigins (Some c1) ++ listedOrigins (Some c2).
Proof.
  unfold listedOrigins, rawClientEnv.
  change (lit "," ++ c2) with (44 :: c2).
  now rewrite split_on_app, map_app, filter_app, map_app.
Qed.

(** ** The origin callback *)

Lemma corsOrigin_allows allowed c s :
  corsOrigin allowed (Some (c :: s))
  = if allows allowed (c :: s) then ([], Allow)
    else ([([10060] ++ lit " CORS Blocked Origin:", c :: s)],
          Deny (cors_error (c :: s))).
Proof.
  unfold corsOrigin, allows.
  destruct (includes allowed (strip_trailing_slash (c :: s))); [reflexivity|].
  destruct (includes allowed (lit "*")); [reflexivity|].
  destruct (endsWith (strip_trailing_slash (c :: s)) (lit ".nip.io")); [reflexivity|].
  now destruct (existsb _ allowed).
Qed.

Lemma corsOrigin_Allow allowed o :
  allows allowed o = true -> corsOrigin allowed (Some o) = ([], Allow).
Proof.
  destruct o as [|c s]; [reflexivity|].
  intros H. now rewrite corsOrigin_allows, H.
Qed.

Lemma allows_incl a b o : incl a b -> allows a o = true -> allows b o = true.
Proof.
  unfold allows. intros I H.
  repeat (apply orb_true_iff in H as [H|H]).
  - now rewrite (includes_incl a b _ I H).
  - rewrite (includes_incl a b _ I H). now rewrite orb_true_r.
  - rewrite H. now rewrite !orb_true_r.
  - apply existsb_exists in H as (x & Hx & Hm).
    assert (E : existsb (matchesPattern (strip_trailing_slash o)) b = true).
    { apply existsb_exists. exists x. split; [now apply I|assumption]. }
    rewrite E. now rewrite !orb_true_r.
Qed.

(** ** Decimal settings *)

Lemma Qred_inject_Z a : Qred (inject_Z a) = inject_Z a.
Proof.
  unfold Qred, inject_Z.
  pose proof (Z.ggcd_gcd a 1) as G.
  pose proof (Z.ggcd_correct_divisors a 1) as D.
  destruct (Z.ggcd a 1) as [g [r1 r2]]. cbn [fst snd] in *.
  rewrite Z.gcd_1_r in G. subst g. destruct D as [D1 D2].
  assert (E1 : r1 = a) by lia. assert (E2 : r2 = 1) by lia.
  rewrite E1, E2. reflexivity.
Qed.

Lemma round_binary64_exact a :
  0 <= a < 2 ^ 53 -> round_binary64 a 1 = of_int a.
Proof.
  intros H. unfold round_binary64.
  destruct (Z.eqb_spec a 0) as [->|N]; [reflexivity|].
  assert (Ha : 0 < a) by lia.
  pose proof (Z.log2_spec a Ha) as [L1 L2].
  pose proof (Z.log2_nonneg a) as L0.
  assert (L53 : Z.log2 a < 53) by (apply Z.log2_lt_pow2; lia).
  change (Z.log2 1) with 0. rewrite Z.sub_0_r.
  cbv zeta.
  rewrite (Z.max_r (- Z.log2 a) 0) by lia.
  rewrite (Z.max_l (Z.log2 a) 0) by lia.
  change (2 ^ 0) with 1. rewrite Z.mul_1_r, Z.mul_1_l.
  destruct (Z.leb_spec (2 ^ Z.log2 a) a) as [_|C]; [|lia].
  rewrite (Z.max_l (Z.log2 a - 52) (-1074)) by lia.
  rewrite (Z.max_r (Z.log2 a - 52) 0) by lia.
  change (2 ^ 0) with 1. rewrite Z.mul_1_l.
  rewrite Z.div_1_r, Z.mod_1_r.
  change (2 * 0 <? 1) with true. cbv iota.
  replace (Z.max (- (Z.log2 a - 52)) 0) with (52 - Z.log2 a) by lia.
  assert (P : 0 < 2 ^ (52 - Z.log2 a)) by (apply Z.pow_pos_nonneg; lia).
  destruct (Z.leb_spec 0 (Z.log2 a - 52)) as [E|E].
  - assert (E52 : Z.log2 a = 52) by lia. rewrite E52.
    change (2 ^ (52 - 52)) with 1. change (2 ^ (52 - 52)) with 1.
    rewrite Z.mul_1_r. change (2 ^ (52 - 52)) with 1. rewrite ?Z.mul_1_r.
    destruct (Z.leb_spec (2 ^ 1024) a) as [C|_]; [|reflexivity].
    exfalso. assert (2 ^ 53 < 2 ^ 1024) by (apply Z.pow_lt_mono_r; lia). lia.
  - unfold of_int. f_equal.
    replace (- (Z.log2 a - 52)) with (52 - Z.log2 a) by lia.
    rewrite <- (Qred_inject_Z a).
    apply Qred_complete. unfold Qeq, inject_Z. cbn [Qnum Qden].
    rewrite Z2Pos.id by assumption. lia.
Qed.

(** Beyond 2^53 the nearest double is at least 2^53. *)
Lemma round_binary64_big a :
  2 ^ 53 <= a ->
  round_binary64 a 1 = Infinity false
  \/ exists k, 2 ^ 53 <= k /\ round_binary64 a 1 = of_int k.
Proof.
  intros H. unfold round_binary64.
  assert (P53 : 0 < 2 ^ 53) by (apply Z.pow_pos_nonneg; lia).
  destruct (Z.eqb_spec a 0) as [E|N]; [lia|].
  assert (Ha : 0 < a) by lia.
  pose proof (Z.log2_spec a Ha) as [L1 L2].
  assert (L53 : 53 <= Z.log2 a) by (apply Z.log2_le_pow2; lia).
  change (Z.log2 1) with 0. rewrite Z.sub_0_r.
  cbv zeta.
  rewrite (Z.max_r (- Z.log2 a) 0) by lia.
  rewrite (Z.max_l (Z.log2 a) 0) by lia.
  change (2 ^ 0) with 1. rewrite Z.mul_1_r, Z.mul_1_l.
  destruct (Z.leb_spec (2 ^ Z.log2 a) a) as [_|C]; [|lia].
  rewrite (Z.max_l (Z.log2 a - 52) (-1074)) by lia.
  rewrite (Z.max_r (- (Z.log2 a - 52)) 0) by lia.
  rewrite (Z.max_l (Z.log2 a - 52) 0) by lia.
  change (2 ^ 0) with 1. rewrite Z.mul_1_r, Z.mul_1_l.
  set (ex := Z.log2 a - 52).
  assert (Pex : 0 < 2 ^ ex) by (apply Z.pow_pos_nonneg; lia).
  assert (Q52 : 2 ^ 52 <= a / 2 ^ ex).
  { apply Z.div_le_lower_bound; [assumption|].
    rewrite <- Z.pow_add_r by lia. replace (ex + 52) with (Z.log2 a) by lia.
    assumption. }
  set (q := a / 2 ^ ex) in *. set (r := a mod 2 ^ ex).
  set (m := if 2 * r <? 2 ^ ex then q
            else if 2 ^ ex <? 2 * r then q + 1
            else if Z.even q then q else q + 1).
  assert (Hm : q <= m).
  { unfold m. destruct (2 * r <? 2 ^ ex); [lia|].
    destruct (2 ^ ex <? 2 * r); [lia|]. destruct (Z.even q); lia. }
  destruct (Z.leb_spec 0 ex) as [_|C]; [|lia].
  destruct (2 ^ 1024 <=? m * 2 ^ ex); [now left|].
  right. exists (m * 2 ^ ex). split; [|reflexivity].
  assert (E2 : 2 <= 2 ^ ex).
  { change 2 with (2 ^ 1) at 1. apply Z.pow_le_mono_r; lia. }
  change (2 ^ 53) with (2 ^ 52 * 2). nia.
Qed.

Lemma int_sub_lt a b v :
  0 <= v < 2 ^ 53 -> num_lt (int_sub a b) (of_int v) = (a - b <? v).
Proof.
  intros Hv. unfold int_sub.
  assert (P53 : 0 < 2 ^ 53) by (apply Z.pow_pos_nonneg; lia).
  destruct (Z.ltb_spec (a - b) 0) as [Hn|Hp].
  - replace (a - b <? v) with true by (symmetry; apply Z.ltb_lt; lia).
    destruct (Z_lt_le_dec (b - a) (2 ^ 53)) as [S|B].
    + rewrite round_binary64_exact by lia. unfold of_int, negate.
      change (- inject_Z (b - a))%Q with (inject_Z (- (b - a))).
      rewrite Qred_inject_Z. unfold num_lt, inject_Z. cbn [Qnum Qden].
      apply Z.ltb_lt. lia.
    + destruct (round_binary64_big (b - a) B) as [->|(k & Hk & ->)];
        [reflexivity|].
      unfold of_int, negate.
      change (- inject_Z k)%Q with (inject_Z (- k)).
      rewrite Qred_inject_Z. unfold num_lt, inject_Z. cbn [Qnum Qden].
      apply Z.ltb_lt. lia.
  - destruct (Z_lt_le_dec (a - b) (2 ^ 53)) as [S|B].
    + rewrite round_binary64_exact by lia.
      unfold num_lt, of_int, inject_Z. cbn [Qnum Qden].
      now rewrite !Z.mul_1_r.
    + replace (a - b <? v) with false by (symmetry; apply Z.ltb_ge; lia).
      destruct (round_binary64_big (a - b) B) as [->|(k & Hk & ->)];
        [reflexivity|].
      unfold num_lt, of_int, inject_Z. cbn [Qnum Qden].
      apply Z.ltb_ge. lia.
Qed.

(** The age of a document is a difference of doubles: beyond 2^53 it is
    rounded before it is compared with the TTL. *)
Example fresh_rounds_the_age :
  fresh (Some (lit "<urlset/>")) 8640000000000000 (-8639999999999999)
    (Number (lit "17280000000000000")) = false
  /\ fresh (Some (lit "<urlset/>")) 1500 1000 (Number (lit "1000")) = true
  /\ fresh (Some (lit "<urlset/>")) 2000 1000 (Number (lit "1000")) = false.
Proof. repeat split. Qed.

Lemma digit_not_whitespace c : is_digit c = true -> is_whitespace c = false.
Proof.
  unfold is_digit, is_whitespace, in_range. intros H.
  apply andb_prop in H as [H1 H2]. apply Z.leb_le in H1, H2.
  repeat (apply orb_false_iff; split);
    try (apply Z.eqb_neq; lia);
    apply andb_false_iff; rewrite !Z.leb_gt; lia.
Qed.

Lemma drop_while_digits s :
  forallb is_digit s = true -> drop_while is_whitespace s = s.
Proof.
  destruct s as [|c s]; [reflexivity|].
  cbn [forallb drop_while]. intros H. apply andb_prop in H as [H _].
  now rewrite (digit_not_whitespace c H).
Qed.

Lemma trim_digits s : forallb is_digit s = true -> trim s = s.
Proof.
  intros H. unfold trim. rewrite (drop_while_digits s H).
  rewrite drop_while_digits; [apply rev_involutive|].
  rewrite forallb_forall in *. intros c Hc. apply H. now apply in_rev.
Qed.

Lemma take_digits_all s : forallb is_digit s = true -> take_digits s = (s, []).
Proof.
  induction s as [|c s IH]; [reflexivity|].
  cbn [forallb take_digits]. intros H. apply andb_prop in H as [Hc Hs].
  now rewrite Hc, (IH Hs).
Qed.

Lemma fold_digits_nonneg s acc :
  0 <= acc -> forallb is_digit s = true ->
  0 <= fold_left (fun a c => a * 10 + (c - 48)) s acc.
Proof.
  revert acc; induction s as [|c s IH]; intros acc Ha H; [assumption|].
  cbn [forallb fold_left] in *. apply andb_prop in H as [Hc Hs].
  apply IH; [|assumption].
  unfold is_digit, in_range in Hc. apply andb_prop in Hc as [H1 H2].
  apply Z.leb_le in H1, H2. lia.
Qed.

Lemma decimal_value_nonneg s : forallb is_digit s = true -> 0 <= decimal_value s.
Proof. apply fold_digits_nonneg. lia. Qed.

(** A setting made of decimal digits is a number, and the number is its
    value when that is below 2^53. *)
Lemma Number_digits s :
  s <> [] -> forallb is_digit s = true -> decimal_value s < 2 ^ 53 ->
  Number s = of_int (decimal_value s).
Proof.
  intros Hne Hd Hv. unfold Number. rewrite (trim_digits s Hd).
  destruct s as [|c r]; [contradiction|].
  pose proof Hd as Hd'. cbn [forallb] in Hd'. apply andb_prop in Hd' as [Hc Hr].
  assert (Rc : 48 <= c <= 57).
  { unfold is_digit, in_range in Hc. apply andb_prop in Hc as [H1 H2].
    apply Z.leb_le in H1, H2. lia. }
  destruct (Z.eqb_spec c 43); [lia|]. destruct (Z.eqb_spec c 45); [lia|].
  assert (Hradix : (if c =? 48
                    then match r with
                         | x :: ds => option_map (fun base => (base, ds)) (radix_of x)
                         | [] => None
                         end
                    else None) = None).
  { destruct (c =? 48); [|reflexivity]. destruct r as [|x ds]; [reflexivity|].
    cbn [forallb] in Hr. apply andb_prop in Hr as [Hx _].
    unfold is_digit, in_range in Hx. apply andb_prop in Hx as [H1 H2].
    apply Z.leb_le in H1, H2. unfold radix_of.
    destruct (Z.eqb_spec x 120); [lia|]. destruct (Z.eqb_spec x 88); [lia|].
    destruct (Z.eqb_spec x 111); [lia|]. destruct (Z.eqb_spec x 79); [lia|].
    destruct (Z.eqb_spec x 98); [lia|]. destruct (Z.eqb_spec x 66); [lia|].
    reflexivity. }
  rewrite Hradix. unfold StrUnsignedDecimalLiteral.
  assert (I : jsstring_eqb (c :: r) (lit "Infinity") = false).
  { unfold jsstring_eqb. destruct (list_eq_dec Z.eq_dec (c :: r) (lit "Infinity")) as [E|]; [|reflexivity].
    exfalso. injection E as E _. cbn in E. lia. }
  rewrite I. unfold unsigned_decimal. rewrite (take_digits_all _ Hd).
  cbn [truthy negb andb List.length Z.of_nat Z.opp]. rewrite app_nil_r.
  change (Z.max 0 0) with 0. change (10 ^ 0) with 1. rewrite Z.mul_1_r.
  apply round_binary64_exact. split; [now apply decimal_value_nonneg|assumption].
Qed.

(** ** More on escaping *)

Lemma xml_entity_cases c :
  (reserved c = false /\ xml_entity c = [c])
  \/ (c = c_amp /\ xml_entity c = lit "&amp;")
  \/ (c = c_lt /\ xml_entity c = lit "&lt;")
  \/ (c = c_gt /\ xml_entity c = lit "&gt;")
  \/ (c = c_quot /\ xml_entity c = lit "&quot;")
  \/ (c = c_apos /\ xml_entity c = lit "&apos;").
Proof.
  unfold xml_entity, reserved.
  destruct (Z.eqb_spec c c_amp) as [->|N1];
    [right; left; now split|].
  destruct (Z.eqb_spec c c_lt) as [->|N2];
    [right; right; left; now split|].
  destruct (Z.eqb_spec c c_gt) as [->|N3];
    [right; right; right; left; now split|].
  destruct (Z.eqb_spec c c_quot) as [->|N4];
    [right; right; right; right; left; now split|].
  destruct (Z.eqb_spec c c_apos) as [->|N5];
    [right; right; right; right; right; now split|].
  now left.
Qed.

Lemma escapeXml_plain s : plain s = true -> escapeXml s = s.
Proof.
  induction s as [|c s IH]; [reflexivity|].
  cbn [plain forallb]. intros H. apply andb_prop in H as [Hc Hs].
  rewrite escapeXml_cons, (IH Hs).
  destruct (xml_entity_cases c) as [[_ ->]|[[-> _]|[[-> _]|[[-> _]|[[-> _]|[-> _]]]]]];
    try discriminate Hc. reflexivity.
Qed.

Lemma escapeXml_length s : (List.length s <= List.length (escapeXml s))%nat.
Proof.
  induction s as [|c s IH]; [apply Nat.le_refl|].
  rewrite escapeXml_cons, length_app. cbn [List.length].
  destruct (xml_entity_cases c) as [[_ ->]|[[_ ->]|[[_ ->]|[[_ ->]|[[_ ->]|[_ ->]]]]]];
    cbn; lia.
Qed.

Lemma escapeXml_fixed s : escapeXml s = s -> plain s = true.
Proof.
  induction s as [|c s IH]; [reflexivity|].
  rewrite escapeXml_cons. cbn [plain forallb]. intros H.
  pose proof (escapeXml_length s) as L.
  destruct (xml_entity_cases c) as [[R E]|[[_ E]|[[_ E]|[[_ E]|[[_ E]|[_ E]]]]]];
    rewrite E in H.
  - injection H as H. rewrite R. now apply IH.
  - apply (f_equal (@List.length Z)) in H. rewrite length_app in H. cbn in H. lia.
  - apply (f_equal (@List.length Z)) in H. rewrite length_app in H. cbn in H. lia.
  - apply (f_equal (@List.length Z)) in H. rewrite length_app in H. cbn in H. lia.
  - apply (f_equal (@List.length Z)) in H. rewrite length_app in H. cbn in H. lia.
  - apply (f_equal (@List.length Z)) in H. rewrite length_app in H. cbn in H. lia.
Qed.

Lemma escapeXml_inj s1 s2 : escapeXml s1 = escapeXml s2 -> s1 = s2.
Proof.
  revert s2; induction s1 as [|c1 s1 IH]; intros [|c2 s2].
  - reflexivity.
  - rewrite escapeXml_cons.
    destruct (xml_entity_cases c2) as [[_ ->]|[[_ ->]|[[_ ->]|[[_ ->]|[[_ ->]|[_ ->]]]]]];
      discriminate.
  - rewrite escapeXml_cons.
    destruct (xml_entity_cases c1) as [[_ ->]|[[_ ->]|[[_ ->]|[[_ ->]|[[_ ->]|[_ ->]]]]]];
      discriminate.
  - rewrite !escapeXml_cons.
    destruct (xml_entity_cases c1) as [[R1 ->]|[[-> ->]|[[-> ->]|[[-> ->]|[[-> ->]|[-> ->]]]]]];
    destruct (xml_entity_cases c2) as [[R2 ->]|[[-> ->]|[[-> ->]|[[-> ->]|[[-> ->]|[-> ->]]]]]];
      cbn [lit app N_of_ascii Z.of_N]; intros H;
      first [ discriminate H
            | injection H; intros; subst;
              first [ f_equal; apply IH; assumption
                    | vm_compute in R1; discriminate R1
                    | vm_compute in R2; discriminate R2 ] ].
Qed.

(** ** The base URL *)

Lemma strip_trailing_slash_id s :
  endsWith s (lit "/") = false -> strip_trailing_slash s = s.
Proof.
  induction s as [|c s' _] using rev_ind; [reflexivity|].
  unfold endsWith. rewrite rev_app_distr, strip_trailing_slash_last.
  change (rev (lit "/")) with [c_slash].
  cbn [rev app prefixb]. rewrite Z.eqb_sym, andb_true_r. now intros ->.
Qed.

Lemma for_of_ext {A B} (f g : A -> result B) l :
  (forall a, f a = g a) -> for_of f l = for_of g l.
Proof.
  intros H. induction l as [|a l IH]; [reflexivity|].
  cbn [for_of]. now rewrite H, IH.
Qed.

Lemma build_same_base a b products :
  strip_trailing_slash a = strip_trailing_slash b ->
  build (VString a) products = build (VString b) products.
Proof.
  intros H. unfold build.
  rewrite (for_of_ext (staticEntry (VString a)) (staticEntry (VString b)));
    [|intros pg; unfold staticEntry, replace_trailing_slash; now rewrite H].
  rewrite (for_of_ext (productEntry (VString a)) (productEntry (VString b)));
    [reflexivity|].
  intros prod. unfold productEntry, replace_trailing_slash. now rewrite H.
Qed.

(** ** More elements *)

Lemma urlEntry_lastmod loc lm cf pr e :
  urlEntry loc lm cf pr = Ok e -> plain cf = true ->
  counts (lit "<lastmod>") (per_entry 0 1 lm) e.
Proof. entry_counts. Qed.

Lemma urlEntry_loc loc lm cf pr e :
  urlEntry loc lm cf pr = Ok e -> plain cf = true ->
  counts (lit "<loc>") (per_entry 1 1 lm) e.
Proof. entry_counts. Qed.

Lemma document_lastmod items ns :
  Forall2 (counts (lit "<lastmod>")) ns items ->
  occ (lit "<lastmod>") (document items) = (0 + list_sum ns)%nat.
Proof.
  intros H.
  assert (C : counts (lit "<lastmod>") (0 + list_sum ns) (document items))
    by document_counts.
  apply C.
Qed.

Lemma document_loc items ns :
  Forall2 (counts (lit "<loc>")) ns items ->
  occ (lit "<loc>") (document items) = (0 + list_sum ns)%nat.
Proof.
  intros H.
  assert (C : counts (lit "<loc>") (0 + list_sum ns) (document items))
    by document_counts.
  apply C.
Qed.

Lemma contains_trans a b c : contains a b -> contains b c -> contains a c.
Proof.
  intros (x & y & ->) (u & v & ->). exists (x ++ u), (v ++ y).
  now rewrite <- !app_assoc.
Qed.

Lemma Forall2_In_l {A B} (R : A -> B -> Prop) l1 l2 a :
  Forall2 R l1 l2 -> In a l1 -> exists b, In b l2 /\ R a b.
Proof.
  intros H. induction H as [|x y l1 l2 Hxy _ IH]; [intros []|].
  intros [->|Hin].
  - exists y. split; [now left|assumption].
  - destruct (IH Hin) as (b & Hb & Hr). exists b. split; [now right|assumption].
Qed.

(** ** The first item that cannot be built *)

Lemma for_of_app_Throw {A B} (f : A -> result B) good bad rest e :
  (exists bs, for_of f good = Ok bs) -> f bad = Throw e ->
  for_of f (good ++ bad :: rest) = Throw e.
Proof.
  intros [bs Hg] Hb. revert bs Hg.
  induction good as [|a good IH]; intros bs Hg.
  - cbn [app for_of]. now rewrite Hb.
  - cbn [app for_of] in *. destruct (f a) as [b|]; [|discriminate].
    cbn [rbind] in *. destruct (for_of f good) as [bs'|]; [|discriminate].
    now rewrite (IH bs' eq_refl).
Qed.

Lemma productEntry_throws site prod :
  buildable prod = false ->
  productEntry (VString site) prod = Throw (item_throws prod).
Proof.
  unfold buildable, item_throws, productEntry, identifier.
  assert (N : forall ident,
             match lastmod_of prod with
             | Some d => valid_date d
             | None => true
             end = false ->
             urlEntry (strip_trailing_slash site ++ lit "/" ++ ident)
               (lastmod_of prod) (lit "weekly") 80 = Throw Invalid_time_value).
  { intros ident H.
    pose proof (urlEntry_dated (strip_trailing_slash site ++ lit "/" ++ ident)
                  (lastmod_of prod) (lit "weekly") 80) as U.
    destruct (lastmod_of prod) as [d|]; [now rewrite H in U|discriminate]. }
  destruct (slug prod) as [[|c s]|].
  - cbn [isWellFormed andb rbind replace_trailing_slash]. intros H. now apply N.
  - destruct (isWellFormed (c :: s)) eqn:W; cbn [andb].
    + destruct (encodeURIComponent_Ok _ W) as [enc ->].
      cbn [rbind replace_trailing_slash]. intros H. now apply N.
    + intros _. now rewrite (encodeURIComponent_Throw _ W).
  - cbn [andb rbind replace_trailing_slash]. intros H. now apply N.
Qed.

Lemma for_of_buildable site good :
  forallb buildable good = true ->
  exists bs, for_of (productEntry (VString site)) good = Ok bs.
Proof.
  intros H.
  pose proof (for_of_forallb (productEntry (VString site)) buildable item_error
                (productEntry_buildable site) good) as F.
  now rewrite H in F.
Qed.

(** ** Printed numbers and dates *)

Lemma decimal_length w n : List.length (decimal w n) = w.
Proof.
  revert n; induction w as [|w IH]; intros n; [reflexivity|].
  cbn [decimal]. rewrite length_app, IH. cbn. lia.
Qed.

Lemma decimal_inj w n m :
  0 <= n < 10 ^ Z.of_nat w -> 0 <= m < 10 ^ Z.of_nat w ->
  decimal w n = decimal w m -> n = m.
Proof.
  revert n m; induction w as [|w IH]; intros n m Hn Hm H.
  - cbn in Hn, Hm. lia.
  - cbn [decimal] in H. apply app_inj_tail in H as [H1 H2].
    rewrite Nat2Z.inj_succ, Z.pow_succ_r in Hn, Hm by lia.
    assert (E : n / 10 = m / 10).
    { apply IH; [| |assumption]; split;
        try (apply Z.div_pos; lia); apply Z.div_lt_upper_bound; lia. }
    assert (E2 : n mod 10 = m mod 10) by lia.
    rewrite (Z.div_mod n 10), (Z.div_mod m 10) by lia. now rewrite E, E2.
Qed.

Lemma app_inj_length {A} (a1 a2 r1 r2 : list A) :
  List.length a1 = List.length a2 -> a1 ++ r1 = a2 ++ r2 -> a1 = a2 /\ r1 = r2.
Proof.
  revert a2; induction a1 as [|x a1 IH]; intros [|y a2] L H; try discriminate.
  - now split.
  - cbn in L, H. injection H as -> H. injection L as L.
    destruct (IH a2 L H) as [-> ->]. now split.
Qed.

Lemma cons_eq_inv {A} (a b : A) x y : a :: x = b :: y -> a = b /\ x = y.
Proof. intros H. now injection H. Qed.

Lemma decimal_head w n :
  exists c r, decimal (S w) n = c :: r /\ is_digit c = true.
Proof.
  pose proof (decimal_digits (S w) n) as D.
  pose proof (decimal_length (S w) n) as L.
  destruct (decimal (S w) n) as [|c r]; [discriminate|].
  cbn [forallb] in D. apply andb_prop in D as [D _]. now exists c, r.
Qed.

Lemma iso_year_inj y1 y2 r1 r2 :
  -999999 <= y1 <= 999999 -> -999999 <= y2 <= 999999 ->
  iso_year y1 ++ r1 = iso_year y2 ++ r2 -> y1 = y2 /\ r1 = r2.
Proof.
  intros H1 H2. unfold iso_year.
  assert (Sign : forall y r, exists c,
             ((if 0 <=? y then lit "+" else lit "-") ++ decimal 6 (Z.abs y)) ++ r
             = c :: decimal 6 (Z.abs y) ++ r
             /\ is_digit c = false /\ (c = 43 <-> 0 <= y)).
  { intros y r. destruct (Z.leb_spec 0 y); [exists 43|exists 45];
      (split; [reflexivity|]); (split; [reflexivity|]); lia. }
  destruct (in_range 0 9999 y1) eqn:R1, (in_range 0 9999 y2) eqn:R2;
    unfold in_range in R1, R2.
  - intros H. apply app_inj_length in H as [H ->];
      [|now rewrite !decimal_length].
    split; [|reflexivity].
    apply andb_prop in R1 as [A1 B1]. apply andb_prop in R2 as [A2 B2].
    apply Z.leb_le in A1, B1, A2, B2.
    apply (decimal_inj 4); [change (10 ^ Z.of_nat 4) with 10000; lia..|assumption].
  - destruct (decimal_head 3 y1) as (c & r & -> & Hc).
    destruct (Sign y2 r2) as (c2 & -> & Hc2 & _).
    cbn [app]. intros H. apply cons_eq_inv in H as [-> _]. congruence.
  - destruct (decimal_head 3 y2) as (c & r & -> & Hc).
    destruct (Sign y1 r1) as (c1 & -> & Hc1 & _).
    cbn [app]. intros H. apply cons_eq_inv in H as [-> _]. congruence.
  - destruct (Sign y1 r1) as (c1 & -> & _ & S1).
    destruct (Sign y2 r2) as (c2 & -> & _ & S2).
    intros H. apply cons_eq_inv in H as [-> H].
    apply app_inj_length in H as [H ->]; [|now rewrite !decimal_length].
    split; [|reflexivity].
    apply (decimal_inj 6) in H; [|change (10 ^ Z.of_nat 6) with 1000000; lia..].
    assert (0 <= y1 <-> 0 <= y2) by (rewrite <- S1, <- S2; reflexivity).
    lia.
Qed.

Lemma Day_determines_date t1 t2 : Day t1 = Day t2 -> iso_date t1 = iso_date t2.
Proof.
  intros H.
  assert (Y : YearFromTime t1 = YearFromTime t2)
    by (unfold YearFromTime; now rewrite H).
  assert (W : DayWithinYear t1 = DayWithinYear t2)
    by (unfold DayWithinYear; now rewrite H, Y).
  assert (L : InLeapYear t1 = InLeapYear t2)
    by (unfold InLeapYear; now rewrite Y).
  assert (M : MonthFromTime t1 = MonthFromTime t2)
    by (unfold MonthFromTime; now rewrite W, L).
  unfold iso_date, DateFromTime. now rewrite Y, M, W, L.
Qed.

Lemma days_in_month_le y m : days_in_month y m <= 31.
Proof.
  unfold days_in_month.
  assert (L : 0 <= leap_year y <= 1) by (unfold leap_year; destruct (_ && _); lia).
  destruct m as [|p|p]; try lia.
  do 4 (try destruct p as [p|p|]); lia.
Qed.

Lemma iso_date_inj t1 t2 :
  Z.abs t1 <= maxTime -> Z.abs t2 <= maxTime ->
  iso_date t1 = iso_date t2 -> Day t1 = Day t2.
Proof.
  intros V1 V2 H.
  pose proof (YearFromTime_range t1 V1) as Y1.
  pose proof (YearFromTime_range t2 V2) as Y2.
  destruct (civil_date t1) as (M1 & D1 & <-).
  destruct (civil_date t2) as (M2 & D2 & <-).
  unfold iso_date in H.
  apply iso_year_inj in H as [EY H]; [|lia..].
  change (lit "-" ++ ?x) with (45 :: x) in H. apply cons_eq_inv in H as [_ H].
  apply app_inj_length in H as [EM H]; [|now rewrite !decimal_length].
  apply cons_eq_inv in H as [_ H].
  pose proof (days_in_month_le (YearFromTime t1) (MonthFromTime t1 + 1)) as B1.
  pose proof (days_in_month_le (YearFromTime t2) (MonthFromTime t2 + 1)) as B2.
  apply (decimal_inj 2) in EM; [|change (10 ^ Z.of_nat 2) with 100; lia..].
  apply (decimal_inj 2) in H; [|change (10 ^ Z.of_nat 2) with 100; lia..].
  now rewrite EY, EM, H.
Qed.

Lemma time_of_day t :
  t = Day t * msPerDay + HourFromTime t * 3600000 + MinFromTime t * 60000
      + SecFromTime t * 1000 + msFromTime t.
Proof.
  unfold Day, msPerDay, HourFromTime, MinFromTime, SecFromTime, msFromTime.
  Z.to_euclidean_division_equations. lia.
Qed.

Lemma iso_time_inj t1 t2 r1 r2 :
  iso_time t1 ++ r1 = iso_time t2 ++ r2 ->
  HourFromTime t1 = HourFromTime t2 /\ MinFromTime t1 = MinFromTime t2
  /\ SecFromTime t1 = SecFromTime t2 /\ msFromTime t1 = msFromTime t2.
Proof.
  unfold iso_time. rewrite <- !app_assoc. intros H.
  apply app_inj_length in H as [EH H]; [|now rewrite !decimal_length].
  change (lit ":" ++ ?x) with (58 :: x) in H. apply cons_eq_inv in H as [_ H].
  apply app_inj_length in H as [EM H]; [|now rewrite !decimal_length].
  change (lit ":" ++ ?x) with (58 :: x) in H. apply cons_eq_inv in H as [_ H].
  apply app_inj_length in H as [ES H]; [|now rewrite !decimal_length].
  change (lit "." ++ ?x) with (46 :: x) in H. apply cons_eq_inv in H as [_ H].
  apply app_inj_length in H as [EMS _]; [|now rewrite !decimal_length].
  unfold HourFromTime, MinFromTime, SecFromTime, msFromTime in *.
  apply (decimal_inj 2) in EH;
    [|change (10 ^ Z.of_nat 2) with 100; Z.to_euclidean_division_equations; lia..].
  apply (decimal_inj 2) in EM;
    [|change (10 ^ Z.of_nat 2) with 100; Z.to_euclidean_division_equations; lia..].
  apply (decimal_inj 2) in ES;
    [|change (10 ^ Z.of_nat 2) with 100; Z.to_euclidean_division_equations; lia..].
  apply (decimal_inj 3) in EMS;
    [|change (10 ^ Z.of_nat 3) with 1000; Z.to_euclidean_division_equations; lia..].
  auto.
Qed.

Lemma Ok_inj {A} (a b : A) : Ok a = Ok b -> a = b.
Proof. intros H. now injection H. Qed.

Lemma iso_date_lacks_T t : lacks 84 (iso_date t) = true.
Proof.
  apply (forallb_impl datechar); [apply datechar_not_T|apply iso_date_datechar].
Qed.

Lemma toISOString_inj t1 t2 :
  Z.abs t1 <= maxTime -> Z.abs t2 <= maxTime ->
  toISOString (DateOf t1) = toISOString (DateOf t2) -> t1 = t2.
Proof.
  intros V1 V2 H. unfold toISOString in H. apply Ok_inj in H.
  change (lit "T" ++ ?x) with (84 :: x) in H.
  assert (D : iso_date t1 = iso_date t2).
  { apply (f_equal split_T_0) in H.
    now rewrite !split_T_0_app in H by apply iso_date_lacks_T. }
  rewrite D in H. apply app_inv_head in H. apply cons_eq_inv in H as [_ H].
  apply iso_time_inj in H as (EH & EM & ES & EMS).
  apply (iso_date_inj t1 t2 V1 V2) in D.
  rewrite (time_of_day t1), (time_of_day t2). now rewrite D, EH, EM, ES, EMS.
Qed.

Lemma four_digit_year t :
  -62167219200000 <= t <= 253402300799999 -> 0 <= YearFromTime t <= 9999.
Proof.
  intros H. pose proof (YearFromTime_spec t) as S.
  assert (D : -719528 <= Day t <= 2932896).
  { unfold Day, msPerDay. Z.to_euclidean_division_equations; lia. }
  unfold DayFromYear in S. Z.to_euclidean_division_equations; lia.
Qed.

Lemma fits_digits ds sh r :
  forallb is_digit ds = true ->
  fits (repeat None (List.length ds) ++ sh) (ds ++ r) = fits sh r.
Proof.
  induction ds as [|d ds IH]; [reflexivity|].
  cbn [forallb List.length repeat app fits]. intros H.
  apply andb_prop in H as [-> H]. now apply IH.
Qed.

Lemma fits_decimal w n sh r :
  fits (repeat None w ++ sh) (decimal w n ++ r) = fits sh r.
Proof.
  rewrite <- (decimal_length w n) at 1. apply fits_digits, decimal_digits.
Qed.

Lemma fits_char c sh r : fits (Some c :: sh) (c :: r) = fits sh r.
Proof. cbn [fits]. now rewrite Z.eqb_refl. Qed.

Lemma toISOString_shape t :
  0 <= YearFromTime t <= 9999 ->
  fits timestamp_shape (iso_date t ++ lit "T" ++ iso_time t ++ lit "Z") = true.
Proof.
  intros Y. unfold iso_date, iso_time, iso_year, timestamp_shape.
  replace (in_range 0 9999 (YearFromTime t)) with true
    by (symmetry; unfold in_range; apply andb_true_iff; rewrite !Z.leb_le; lia).
  rewrite <- !app_assoc.
  repeat first [ rewrite fits_decimal
               | progress change (lit "-" ++ ?x) with (45 :: x)
               | progress change (lit "T" ++ ?x) with (84 :: x)
               | progress change (lit ":" ++ ?x) with (58 :: x)
               | progress change (lit "." ++ ?x) with (46 :: x)
               | progress change ([Some ?c] ++ ?x) with (Some c :: x)
               | rewrite fits_char ].
  reflexivity.
Qed.

(** ** Percent-encoding loses nothing *)

Lemma hex_digit_inj a b :
  0 <= a < 16 -> 0 <= b < 16 -> hex_digit a = hex_digit b -> a = b.
Proof.
  unfold hex_digit. intros Ha Hb.
  destruct (Z.ltb_spec a 10), (Z.ltb_spec b 10); lia.
Qed.

Lemma percent_octet_app_inj o1 o2 r1 r2 :
  0 <= o1 < 256 -> 0 <= o2 < 256 ->
  percent_octet o1 ++ r1 = percent_octet o2 ++ r2 -> o1 = o2 /\ r1 = r2.
Proof.
  intros H1 H2 H. unfold percent_octet in H. cbn [app] in H.
  apply cons_eq_inv in H as [_ H].
  apply cons_eq_inv in H as [Eh H].
  apply cons_eq_inv in H as [El H].
  apply hex_digit_inj in Eh; [|Z.to_euclidean_division_equations; lia..].
  apply hex_digit_inj in El; [|Z.to_euclidean_division_equations; lia..].
  split; [|assumption].
  Z.to_euclidean_division_equations; lia.
Qed.

Lemma percent_encode_head cp : exists t, percent_encode cp = 37 :: t.
Proof.
  unfold percent_encode, utf8_octets.
  repeat match goal with
         | |- context [?a <? ?b] => destruct (Z.ltb_spec a b)
         end; cbn [flat_map percent_octet app]; now eexists.
Qed.

Ltac same_octet :=
  match goal with
  | H : percent_octet _ ++ _ = percent_octet _ ++ _ |- _ =>
      apply percent_octet_app_inj in H;
      [destruct H as [? ?]|Z.to_euclidean_division_equations; lia..]
  end.

Lemma percent_encode_app_inj cp1 cp2 r1 r2 :
  0 <= cp1 < 1114112 -> 0 <= cp2 < 1114112 ->
  percent_encode cp1 ++ r1 = percent_encode cp2 ++ r2 -> cp1 = cp2 /\ r1 = r2.
Proof.
  intros H1 H2. unfold percent_encode, utf8_octets.
  repeat match goal with
         | |- context [?a <? ?b] => destruct (Z.ltb_spec a b)
         end;
    cbn [flat_map]; rewrite <- ?app_assoc; intros Heq;
    same_octet;
    try (exfalso; Z.to_euclidean_division_equations; lia);
    repeat same_octet;
    (split; [Z.to_euclidean_division_equations; lia|assumption]).
Qed.

(** What the encoder does with the head of a string it accepts *)
Lemma encodeURIComponent_head c rest e :
  code_units (c :: rest) = true ->
  encodeURIComponent (c :: rest) = Ok e ->
  (uri_unescaped c = true
   /\ exists e', encodeURIComponent rest = Ok e' /\ e = c :: e')
  \/ (uri_unescaped c = false
      /\ exists cp tail e',
           encodeURIComponent tail = Ok e' /\ e = percent_encode cp ++ e'
           /\ code_units tail = true
           /\ ((cp = c /\ tail = rest /\ 0 <= c < 65536)
               \/ (exists c2, rest = c2 :: tail /\ 65536 <= cp < 1114112
                              /\ is_leading_surrogate c = true
                              /\ is_trailing_surrogate c2 = true
                              /\ cp = surrogate_pair_to_code_point c c2))).
Proof.
  intros Hu. rewrite encodeURIComponent_cons.
  unfold code_units in Hu. cbn [forallb] in Hu. apply andb_prop in Hu as [Hc Hr].
  destruct (uri_unescaped c) eqn:U.
  - destruct (encodeURIComponent rest) as [r|] eqn:Er; [|discriminate].
    cbn [rbind]. intros H. apply Ok_inj in H. left. split; [reflexivity|].
    now exists r.
  - destruct (is_trailing_surrogate c) eqn:T; [discriminate|].
    destruct (is_leading_surrogate c) eqn:L.
    + destruct rest as [|c2 rest2]; [discriminate|].
      destruct (is_trailing_surrogate c2) eqn:T2; [|discriminate].
      destruct (encodeURIComponent rest2) as [r|] eqn:Er; [|discriminate].
      cbn [rbind]. intros H. apply Ok_inj in H. right. split; [reflexivity|].
      exists (surrogate_pair_to_code_point c c2), rest2, r.
      cbn [forallb] in Hr. apply andb_prop in Hr as [Hc2 Hr].
      split; [assumption|]. split; [now symmetry|]. split; [exact Hr|].
      right. exists c2. split; [reflexivity|].
      split; [|split; [reflexivity|split; [assumption|reflexivity]]].
      unfold surrogate_pair_to_code_point, is_leading_surrogate,
        is_trailing_surrogate, in_range in *; bool_to_prop; lia.
    + destruct (encodeURIComponent rest) as [r|] eqn:Er; [|discriminate].
      cbn [rbind]. intros H. apply Ok_inj in H. right. split; [reflexivity|].
      exists c, rest, r.
      split; [assumption|]. split; [now symmetry|]. split; [exact Hr|].
      left. unfold in_range in Hc. bool_to_prop. repeat split; lia.
Qed.

Lemma encodeURIComponent_nil s :
  code_units s = true -> encodeURIComponent s = Ok [] -> s = [].
Proof.
  destruct s as [|c rest]; [reflexivity|]. intros Hu H.
  destruct (encodeURIComponent_head c rest [] Hu H)
    as [(_ & e' & _ & E)|(_ & cp & tail & e' & _ & E & _)].
  - discriminate.
  - destruct (percent_encode_head cp) as [t Ht]. rewrite Ht in E. discriminate.
Qed.

Lemma encodeURIComponent_inj_le (n : nat) :
  forall s1 s2 e,
    (List.length s1 <= n)%nat ->
    code_units s1 = true -> code_units s2 = true ->
    encodeURIComponent s1 = Ok e -> encodeURIComponent s2 = Ok e -> s1 = s2.
Proof.
  induction n as [|n IH]; intros s1 s2 e Hl U1 U2 E1 E2.
  - destruct s1; [|cbn in Hl; lia]. cbn in E1. apply Ok_inj in E1. subst e.
    symmetry. now apply encodeURIComponent_nil.
  - destruct s1 as [|c1 r1].
    { cbn in E1. apply Ok_inj in E1. subst e.
      symmetry. now apply encodeURIComponent_nil. }
    destruct s2 as [|c2 r2].
    { cbn in E2. apply Ok_inj in E2. subst e.
      now apply encodeURIComponent_nil. }
    cbn [List.length] in Hl.
    pose proof U1 as R1. pose proof U2 as R2.
    unfold code_units in R1, R2. cbn [forallb] in R1, R2.
    apply andb_prop in R1 as [_ R1]. apply andb_prop in R2 as [_ R2].
    destruct (encodeURIComponent_head c1 r1 e U1 E1)
      as [(A1 & e1 & T1 & ->)|(A1 & cp1 & t1 & e1 & T1 & -> & V1 & K1)];
      destruct (encodeURIComponent_head c2 r2 _ U2 E2)
        as [(A2 & e2 & T2 & X)|(A2 & cp2 & t2 & e2 & T2 & X & V2 & K2)].
    + apply cons_eq_inv in X as [-> ->]. f_equal.
      apply (IH r1 r2 e2); try assumption. lia.
    + destruct (percent_encode_head cp2) as [t Ht]. rewrite Ht in X.
      cbn [app] in X. apply cons_eq_inv in X as [-> _]. discriminate.
    + destruct (percent_encode_head cp1) as [t Ht]. rewrite Ht in X.
      cbn [app] in X. apply cons_eq_inv in X as [<- _]. discriminate.
    + assert (B1 : 0 <= cp1 < 1114112)
        by (destruct K1 as [(-> & _ & ?)|(? & _ & ? & _)]; lia).
      assert (B2 : 0 <= cp2 < 1114112)
        by (destruct K2 as [(-> & _ & ?)|(? & _ & ? & _)]; lia).
      apply percent_encode_app_inj in X as [Ecp Ee]; [|assumption..].
      subst e2.
      destruct K1 as [(-> & -> & B)|(d1 & -> & B & L1 & D1 & P1)];
        destruct K2 as [(-> & -> & B')|(d2 & -> & B' & L2 & D2 & P2)].
      * subst. f_equal. apply (IH r1 r2 e1); try assumption. lia.
      * lia.
      * lia.
      * assert (c1 = c2 /\ d1 = d2) as [-> ->].
        { unfold surrogate_pair_to_code_point, is_leading_surrogate,
            is_trailing_surrogate, in_range in *; bool_to_prop; lia. }
        do 2 f_equal. apply (IH t1 t2 e1); try assumption.
        cbn [List.length] in Hl. lia.
Qed.

Lemma encodeURIComponent_inj s1 s2 e :
  code_units s1 = true -> code_units s2 = true ->
  encodeURIComponent s1 = Ok e -> encodeURIComponent s2 = Ok e -> s1 = s2.
Proof. apply (encodeURIComponent_inj_le (List.length s1)). lia. Qed.

Lemma percent_encode_three cp : exists a b t, percent_encode cp = 37 :: a :: b :: t.
Proof.
  unfold percent_encode, utf8_octets.
  repeat match goal with
         | |- context [?a <? ?b] => destruct (Z.ltb_spec a b)
         end; cbn [flat_map percent_octet app]; now do 3 eexists.
Qed.

Lemma encodeURIComponent_length s :
  forall e, encodeURIComponent s = Ok e -> (List.length s <= List.length e)%nat.
Proof.
  induction s as [| c | c c2 s IH IH2] using pair_induction; intros e.
  - cbn. intros _. lia.
  - intros H. destruct e; [|cbn; lia]. exfalso. revert H.
    rewrite encodeURIComponent_cons.
    destruct (uri_unescaped c); [discriminate|].
    destruct (is_trailing_surrogate c); [discriminate|].
    destruct (is_leading_surrogate c); [discriminate|].
    cbn [encodeURIComponent rbind].
    destruct (percent_encode_three c) as (a & b & t & ->). discriminate.
  - rewrite encodeURIComponent_cons.
    destruct (uri_unescaped c).
    + destruct (encodeURIComponent (c2 :: s)) as [r|]; [|discriminate].
      cbn [rbind]. intros H. apply Ok_inj in H. subst e.
      specialize (IH2 r eq_refl). cbn [List.length] in *. lia.
    + destruct (is_trailing_surrogate c); [discriminate|].
      destruct (is_leading_surrogate c).
      * destruct (is_trailing_surrogate c2); [|discriminate].
        destruct (encodeURIComponent s) as [r|]; [|discriminate].
        cbn [rbind]. intros H. apply Ok_inj in H. subst e.
        destruct (percent_encode_three (surrogate_pair_to_code_point c c2))
          as (a & b & t & ->).
        specialize (IH r eq_refl). cbn [List.length app]. rewrite length_app. lia.
      * destruct (encodeURIComponent (c2 :: s)) as [r|]; [|discriminate].
        cbn [rbind]. intros H. apply Ok_inj in H. subst e.
        destruct (percent_encode_three c) as (a & b & t & ->).
        specialize (IH2 r eq_refl). cbn [List.length app] in *.
        rewrite length_app. lia.
Qed.

Lemma encodeURIComponent_unescaped s :
  forallb uri_unescaped s = true -> encodeURIComponent s = Ok s.
Proof.
  induction s as [|c s IH]; [reflexivity|].
  cbn [forallb]. intros H. apply andb_prop in H as [Hc Hs].
  rewrite encodeURIComponent_cons, Hc, (IH Hs). reflexivity.
Qed.

Lemma encodeURIComponent_fixed s :
  encodeURIComponent s = Ok s -> forallb uri_unescaped s = true.
Proof.
  induction s as [|c s IH]; [reflexivity|].
  rewrite encodeURIComponent_cons. cbn [forallb].
  destruct (uri_unescaped c) eqn:U.
  - destruct (encodeURIComponent s) as [r|] eqn:Er; [|discriminate].
    cbn [rbind]. intros H. apply Ok_inj, cons_eq_inv in H as [_ ->]. now apply IH.
  - destruct (is_trailing_surrogate c) eqn:T; [discriminate|].
    destruct (is_leading_surrogate c) eqn:L.
    + destruct s as [|c2 s2]; [discriminate|].
      destruct (is_trailing_surrogate c2); [|discriminate].
      destruct (encodeURIComponent s2) as [r|]; [|discriminate].
      cbn [rbind]. intros H. apply Ok_inj in H.
      destruct (percent_encode_three (surrogate_pair_to_code_point c c2))
        as (a & b & t & E).
      rewrite E in H. cbn [app] in H. apply cons_eq_inv in H as [<- _].
      discriminate L.
    + destruct (encodeURIComponent s) as [r|] eqn:Er; [|discriminate].
      cbn [rbind]. intros H. apply Ok_inj in H.
      destruct (percent_encode_three c) as (a & b & t & E).
      pose proof H as H'. rewrite E in H'. cbn [app] in H'.
      apply cons_eq_inv in H' as [<- _].
      change (percent_encode 37) with [37; 50; 53] in H. cbn [app] in H.
      apply cons_eq_inv in H as [_ H]. subst s.
      apply encodeURIComponent_length in Er. cbn [List.length] in Er. lia.
Qed.

(** ** Entries that are full origins *)

Lemma matchesPattern_exact incoming a :
  startsWith a (lit ".") = false -> startsWith a (lit "*") = false ->
  matchesPattern incoming a = false.
Proof.
  unfold matchesPattern, startsWith. intros Hd Hs.
  destruct a as [|x a]; [reflexivity|].
  rewrite Hd. cbn [lit prefixb] in Hs |- *.
  change (prefixb (lit "*.") (x :: a))
    with ((42 =? x) && prefixb (lit ".") a).
  change (prefixb (lit "*") (x :: a)) with ((42 =? x) && true) in Hs.
  rewrite andb_true_r in Hs. now rewrite Hs.
Qed.

(** ** Settings that are not decimal literals *)

Lemma digit_decimal_char c : is_digit c = true -> decimal_char c = true.
Proof.
  unfold is_digit, in_range. intros H. apply andb_prop in H as [H1 H2].
  apply Z.leb_le in H1, H2.
  assert (E : c = 48 \/ c = 49 \/ c = 50 \/ c = 51 \/ c = 52 \/ c = 53
              \/ c = 54 \/ c = 55 \/ c = 56 \/ c = 57) by lia.
  repeat (destruct E as [->|E]; [reflexivity|]). now subst.
Qed.

Lemma take_digits_chars s :
  forallb decimal_char (fst (take_digits s)) = true
  /\ s = fst (take_digits s) ++ snd (take_digits s).
Proof.
  induction s as [|c s [IH1 IH2]]; [now split|].
  cbn [take_digits]. destruct (is_digit c) eqn:D; [|now split].
  destruct (take_digits s) as [ds r]. cbn [fst snd] in *.
  cbn [forallb app]. rewrite (digit_decimal_char c D), IH1. split; [reflexivity|].
  now f_equal.
Qed.

Lemma unsigned_decimal_chars s :
  unsigned_decimal s <> None -> forallb decimal_char s = true.
Proof.
  unfold unsigned_decimal.
  pose proof (take_digits_chars s) as [I1 I2].
  destruct (take_digits s) as [ip r1]. cbn [fst snd] in *.
  assert (F : exists fp r2 dot,
             forallb decimal_char dot = true
             /\ forallb decimal_char fp = true
             /\ r1 = dot ++ fp ++ r2
             /\ (match r1 with
                 | c :: r => if c =? 46 then take_digits r else ([], r1)
                 | [] => ([], r1)
                 end) = (fp, r2)).
  { destruct r1 as [|c r]; [now exists [], [], []|].
    destruct (Z.eqb_spec c 46) as [->|N]; [|now exists [], (c :: r), []].
    pose proof (take_digits_chars r) as [F1 F2].
    destruct (take_digits r) as [fp r2]. cbn [fst snd] in *.
    exists fp, r2, [46]. repeat split; try assumption. cbn [app]. now f_equal. }
  destruct F as (fp & r2 & dot & Hdot & Hfp & E1 & ->).
  destruct (negb (truthy ip) && negb (truthy fp)); [intros H; now contradiction H|].
  subst s r1. rewrite !forallb_app, I1, Hdot, Hfp. cbn [andb].
  destruct r2 as [|c r3]; [reflexivity|].
  destruct ((c =? 101) || (c =? 69)) eqn:Ec; [|intros H; now contradiction H].
  assert (Hc : decimal_char c = true).
  { apply orb_prop in Ec as [Ec|Ec]; apply Z.eqb_eq in Ec; now subst. }
  assert (G : exists sg r4 sign,
             forallb decimal_char sg = true /\ r3 = sg ++ r4
             /\ (match r3 with
                 | x :: r => if x =? 43 then (1, r)
                             else if x =? 45 then (-1, r)
                             else (1, r3)
                 | [] => (1, r3)
                 end) = (sign, r4)).
  { destruct r3 as [|x r]; [now exists [], [], 1|].
    destruct (Z.eqb_spec x 43) as [->|N1]; [now exists [43], r, 1|].
    destruct (Z.eqb_spec x 45) as [->|N2]; [now exists [45], r, (-1)|].
    now exists [], (x :: r), 1. }
  destruct G as (sg & r4 & sign & Hsg & -> & ->).
  pose proof (take_digits_chars r4) as [D1 D2].
  destruct (take_digits r4) as [ed r5]. cbn [fst snd] in *.
  destruct r5 as [|y r5]; [|rewrite andb_false_r; intros H; now contradiction H].
  intros _. rewrite app_nil_r in D2. subst r4.
  cbn [forallb]. now rewrite Hc, forallb_app, Hsg, D1.
Qed.

Lemma StrUnsignedDecimalLiteral_chars s :
  forallb decimal_char s = false -> s <> lit "Infinity" ->
  StrUnsignedDecimalLiteral s = NaN.
Proof.
  intros H N. unfold StrUnsignedDecimalLiteral.
  destruct (jsstring_eqb s (lit "Infinity")) eqn:E.
  { apply jsstring_eqb_eq in E. contradiction. }
  destruct (unsigned_decimal s) as [[m e]|] eqn:U; [|reflexivity].
  rewrite unsigned_decimal_chars in H; [discriminate|]. now rewrite U.
Qed.

(** A setting that is not in radix form and holds a character no decimal
    literal has is not a number, the names of the infinities apart. *)
Lemma Number_not_decimal s :
  radix_prefixed (trim s) = false ->
  forallb decimal_char (trim s) = false ->
  trim s <> lit "Infinity" -> trim s <> lit "+Infinity" ->
  trim s <> lit "-Infinity" ->
  Number s = NaN.
Proof.
  unfold Number. destruct (trim s) as [|c r]; [discriminate|].
  intros R H N0 N1 N2.
  destruct (Z.eqb_spec c 43) as [->|N43].
  { apply StrUnsignedDecimalLiteral_chars; [exact H|]. intros ->. now apply N1. }
  destruct (Z.eqb_spec c 45) as [->|N45].
  { rewrite StrUnsignedDecimalLiteral_chars; [reflexivity|exact H|].
    intros ->. now apply N2. }
  assert (E : (if c =? 48
               then match r with
                    | x :: ds => option_map (fun base => (base, ds)) (radix_of x)
                    | [] => None
                    end
               else None) = None).
  { destruct (Z.eqb_spec c 48) as [->|N48]; [|reflexivity].
    destruct r as [|x ds]; [reflexivity|].
    cbn [radix_prefixed] in R. unfold radix_of.
    change (lit "xXoObB") with [120; 88; 111; 79; 98; 66] in R.
    cbn [existsb] in R.
    repeat (apply orb_false_iff in R as [? R]).
    repeat match goal with
           | K : (_ =? _) = false |- _ => rewrite K; clear K
           end.
    reflexivity. }
  rewrite E. now apply StrUnsignedDecimalLiteral_chars.
Qed.

(** ** Percent-encoding of ASCII text *)

Lemma ascii_step c :
  0 <= c < 128 ->
  uri_unescaped c = ascii_unreserved c
  /\ is_trailing_surrogate c = false /\ is_leading_surrogate c = false
  /\ percent_encode c = [37; hex_char (c / 16); hex_char (c mod 16)].
Proof.
  intros Hc.
  assert (T : forallb (fun c =>
                Bool.eqb (uri_unescaped c) (ascii_unreserved c)
                && negb (is_trailing_surrogate c)
                && negb (is_leading_surrogate c)
                && jsstring_eqb (percent_encode c)
                     [37; hex_char (c / 16); hex_char (c mod 16)])
              (map Z.of_nat (seq 0 128)) = true)
    by (vm_compute; reflexivity).
  assert (I : In c (map Z.of_nat (seq 0 128))).
  { rewrite <- (Z2Nat.id c) by lia. apply in_map, in_seq. lia. }
  rewrite forallb_forall in T. specialize (T c I).
  apply andb_prop in T as [T E4]. apply andb_prop in T as [T E3].
  apply andb_prop in T as [E1 E2].
  apply Bool.eqb_prop in E1. apply negb_true_iff in E2, E3.
  apply jsstring_eqb_eq in E4. now repeat split.
Qed.

Lemma encodeURIComponent_ascii s :
  forallb (in_range 0 127) s = true ->
  encodeURIComponent s = Ok (flat_map percent_ascii s).
Proof.
  induction s as [|c s IH]; [reflexivity|].
  cbn [forallb]. intros H. apply andb_prop in H as [Hc Hs].
  unfold in_range in Hc. apply andb_prop in Hc as [H0 H1].
  apply Z.leb_le in H0, H1.
  destruct (ascii_step c ltac:(lia)) as (U & T & L & P).
  assert (PA : percent_ascii c = if uri_unescaped c then [c] else percent_encode c).
  { unfold percent_ascii. now rewrite U, P. }
  rewrite encodeURIComponent_cons, (IH Hs), T, L. cbn [flat_map rbind].
  rewrite PA. now destruct (uri_unescaped c).
Qed.

(** ** The first item that cannot be built, found *)

Lemma first_unbuildable products :
  forallb buildable products = false ->
  exists good bad rest,
    products = good ++ bad :: rest
    /\ forallb buildable good = true /\ buildable bad = false.
Proof.
  induction products as [|p products IH]; [discriminate|].
  cbn [forallb]. destruct (buildable p) eqn:B.
  - cbn [andb]. intros H. destruct (IH H) as (good & bad & rest & -> & G & Bd).
    exists (p :: good), bad, rest. cbn [forallb app]. now rewrite B, G.
  - intros _. now exists [], p, products.
Qed.

Lemma build_first_bad site good bad rest :
  forallb buildable good = true -> buildable bad = false ->
  build (VString site) (good ++ bad :: rest) = Throw (item_throws bad).
Proof.
  intros Hg Hb. unfold build.
  rewrite (for_of_map _ (static_text site)) by apply staticEntry_text.
  cbn [rbind].
  rewrite (for_of_app_Throw (productEntry (VString site)) good bad rest
             (item_throws bad)); [reflexivity| |].
  - now apply for_of_buildable.
  - now apply productEntry_throws.
Qed.

(** ** The document, line by line *)

Lemma join_map_lines {A} (f : A -> jsstring) (l : list A) (r : jsstring) :
  l <> [] ->
  [10] ++ join [10] (map f l) ++ r = flat_map (fun a => [10] ++ f a) l ++ r.
Proof.
  induction l as [|a l IH]; [intros H; now contradiction H|]. intros _.
  destruct l as [|b l]; [cbn [map join flat_map]; now rewrite app_nil_r|].
  change (join [10] (map f (a :: b :: l)))
    with (f a ++ [10] ++ join [10] (map f (b :: l))).
  cbn [flat_map] in *. rewrite <- !app_assoc. do 2 f_equal.
  rewrite <- !app_assoc in IH. now apply IH.
Qed.

(** ** Digits, written out *)

Lemma decimal_printed w : forall n, decimal w n = printed w n.
Proof.
  induction w as [|w IH]; intros n; [reflexivity|].
  cbn [decimal]. rewrite IH. unfold printed.
  cbn [seq rev]. rewrite <- seq_shift, <- map_rev, map_app, map_map.
  cbn [map]. change (10 ^ Z.of_nat 0) with 1. rewrite Z.div_1_r.
  f_equal. apply map_ext. intros k.
  rewrite Nat2Z.inj_succ, Z.pow_succ_r by lia.
  rewrite Z.div_div by (try apply Z.pow_pos_nonneg; lia). reflexivity.
Qed.

Lemma iso_date_calendar_date t : calendar_date t (iso_date t).
Proof.
  destruct (iso_date_date_only t) as (y & m & d & E & Hm & Hd & Hc & Hl).
  exists y, m, d. repeat split; try assumption; try lia.
  rewrite E. unfold iso_year, year_text, in_range.
  now rewrite !decimal_printed.
Qed.

(** ** What a percent-encoded slug holds *)

Lemma uri_safe_lacks c enc :
  existsb (Z.eqb c) [38; 60; 62; 34] = true ->
  forallb uri_safe enc = true -> lacks c enc = true.
Proof.
  intros Hc. unfold lacks. apply forallb_impl. intros x Hx.
  destruct (Z.eqb_spec x c) as [->|N]; [|reflexivity].
  cbn [existsb] in Hc. rewrite orb_false_r in Hc.
  repeat (apply orb_prop in Hc as [Hc|Hc]);
    apply Z.eqb_eq in Hc; subst c; discriminate Hx.
Qed.

Lemma escapeXml_uri_safe enc :
  forallb uri_safe enc = true ->
  escapeXml enc = flat_map (fun x => if x =? 39 then lit "&apos;" else [x]) enc.
Proof.
  intros H. rewrite escapeXml_flat_map.
  induction enc as [|x enc IH]; [reflexivity|].
  cbn [forallb] in H. apply andb_prop in H as [Hx He].
  cbn [flat_map]. rewrite (IH He). f_equal.
  unfold xml_entity, c_amp, c_lt, c_gt, c_quot, c_apos.
  destruct (Z.eqb_spec x 38) as [->|_]; [discriminate Hx|].
  destruct (Z.eqb_spec x 60) as [->|_]; [discriminate Hx|].
  destruct (Z.eqb_spec x 62) as [->|_]; [discriminate Hx|].
  destruct (Z.eqb_spec x 34) as [->|_]; [discriminate Hx|].
  reflexivity.
Qed.

(** * Statements *)

(** ** The handler *)

(** C1. With SITE_URL set, the handler evaluates the split of the setting
    and then throws on the assignment to the [const] binding: the request
    is answered 500 before the clock or the catalog is consulted, and no
    document is built against the configured URL, although the builder
    does build one for that URL. The same happens with only CLIENT_URL
    set; with neither set the default reaches the builder as an array and
    the builder throws. *)
Theorem configured_site_url_answers_500 :
  serveSitemap (initial env_site (fun _ => 0) (fun _ => Ok []))
  = (mkWorld env_site None 0 (fun _ => 0) 0 (fun _ => Ok []) 0
       [error_log constant_assignment],
     Ok send_error)
  /\ serveSitemap (initial env_client (fun _ => 0) (fun _ => Ok []))
     = (mkWorld env_client None 0 (fun _ => 0) 0 (fun _ => Ok []) 0
          [error_log constant_assignment],
        Ok send_error)
  /\ serveSitemap (initial env_unset (fun _ => 0) (fun _ => Ok []))
     = (mkWorld env_unset None 0 (fun _ => 0) 1 (fun _ => Ok []) 1
          [error_log not_a_function],
        Ok send_error)
  /\ exists xml, build (VString (lit "https://example.com")) [] = Ok xml.
Proof.
  repeat split; try reflexivity.
  eexists. reflexivity.
Qed.

(** C2. With a TTL of 1000 ms and an empty cache, the request at t=0
    queries the catalog, stores nothing and is answered 500; the request
    at t=500 queries the catalog again and is answered 500 as well. *)
Theorem rebuild_stores_nothing :
  let w := initial (env_ttl "1000") (fun k => 500 * Z.of_nat k) (fun _ => Ok [red_shoes]) in
  snd (requests 2 w) = [Ok send_error; Ok send_error]
  /\ catalogCalls (fst (requests 2 w)) = 2%nat
  /\ cachedXml (fst (requests 2 w)) = None
  /\ cacheTimestamp (fst (requests 2 w)) = 0
  /\ console (fst (requests 2 w))
     = [error_log not_a_function; error_log not_a_function].
Proof. repeat split; reflexivity. Qed.

(** C4. When a request reaches the rebuild and the catalog query fails
    with [e], the handler logs [e] under the label "Error generating
    sitemap:", answers with status 500 and the text "Server error
    generating sitemap", has queried the catalog once, and leaves the
    cached document and its timestamp as they were, whether or not a
    stale document is held. *)
Theorem catalog_failure (w : World) (e : exn) :
  site_configured (process_env w) = false ->
  cache_fresh w = false ->
  catalog w (catalogCalls w) = Throw e ->
  serveSitemap w
  = (mkWorld (process_env w) (cachedXml w) (cacheTimestamp w) (clock w)
       (S (clockReads w)) (catalog w) (S (catalogCalls w))
       (console w
        ++ [(lit "Error generating sitemap:",
             if truthy (message e) then LogMessage (message e) else LogError e)]),
     Ok {| status := 500; contentType := None;
           body := lit "Server error generating sitemap" |}).
Proof.
  intros Hs Hf Hc. rewrite (serveSitemap_rebuild w Hs Hf).
  unfold rebuild_error. now rewrite Hc.
Qed.

Lemma catalog_failure_witness :
  serveSitemap (initial env_unset (fun _ => 1705312800000) (fun _ => Throw down))
  = (mkWorld env_unset None 0 (fun _ => 1705312800000) 1
       (fun _ => Throw down) 1
       [(lit "Error generating sitemap:",
         LogMessage (lit "connect ECONNREFUSED 127.0.0.1:27017"))],
     Ok {| status := 500; contentType := None;
           body := lit "Server error generating sitemap" |})
  /\ serveSitemap (warm env_unset 3601000 (fun _ => Throw down))
     = (mkWorld env_unset (Some (lit "<urlset/>")) 1000 (fun _ => 3601000) 1
          (fun _ => Throw down) 1
          [(lit "Error generating sitemap:",
            LogMessage (lit "connect ECONNREFUSED 127.0.0.1:27017"))],
        Ok {| status := 500; contentType := None;
              body := lit "Server error generating sitemap" |}).
Proof.
  split.
  - apply (catalog_failure
             (initial env_unset (fun _ => 1705312800000) (fun _ => Throw down)) down);
      reflexivity.
  - apply (catalog_failure (warm env_unset 3601000 (fun _ => Throw down)) down);
      reflexivity.
Defined.

(** C5, as stated, fails: the setting "abc" gives NaN, not the default,
    and with it a document built one millisecond ago is not served. *)
Lemma malformed_ttl_is_not_the_default :
  CACHE_TTL_MS (env_ttl "abc") = NaN
  /\ CACHE_TTL_MS (env_ttl "abc") <> of_int 3600000
  /\ cache_fresh (warm (env_ttl "abc") 1001 (fun _ => Ok [])) = false
  /\ cache_fresh (warm env_unset 1001 (fun _ => Ok [])) = true.
Proof. repeat split; try reflexivity. discriminate. Qed.

(** C5, amended. The TTL is one hour when the setting is unset or empty;
    a non-empty setting is converted by Number and used as it is, with no
    fallback. A setting is converted to NaN when, blanks around it
    removed, it holds no digit and is neither empty nor the name of an
    infinity, and also when it does not begin with 0x, 0o or 0b and
    holds a character other than the digits and [. e E + -], as 12abc,
    1h, 1 000 and 3600000ms do. With NaN no cached document is ever
    fresh, whatever the clock shows: no request is answered with status
    200, and a request with neither SITE_URL nor CLIENT_URL set queries
    the catalog. *)
Theorem cache_ttl_setting (env : Env) :
  (env_truthy (SITEMAP_CACHE_TTL_MS env) = false ->
   CACHE_TTL_MS env = of_int 3600000)
  /\ (forall s, SITEMAP_CACHE_TTL_MS env = Some s -> truthy s = true ->
                CACHE_TTL_MS env = Number s)
  /\ (forall s, SITEMAP_CACHE_TTL_MS env = Some s -> digitless s = true ->
                trim s <> [] -> trim s <> lit "Infinity" ->
                trim s <> lit "+Infinity" -> trim s <> lit "-Infinity" ->
                CACHE_TTL_MS env = NaN)
  /\ (forall s, SITEMAP_CACHE_TTL_MS env = Some s ->
                radix_prefixed (trim s) = false ->
                forallb decimal_char (trim s) = false ->
                trim s <> lit "Infinity" ->
                trim s <> lit "+Infinity" -> trim s <> lit "-Infinity" ->
                CACHE_TTL_MS env = NaN)
  /\ (CACHE_TTL_MS env = NaN ->
      (forall cached now timestamp,
          fresh cached now timestamp (CACHE_TTL_MS env) = false)
      /\ forall w,
           process_env w = env ->
           (forall res, snd (serveSitemap w) = Ok res -> status res <> 200)
           /\ (site_configured env = false ->
               catalogCalls (fst (serveSitemap w)) = S (catalogCalls w))).
Proof.
  split; [|split; [|split; [|split]]].
  - unfold CACHE_TTL_MS, env_truthy, truthy.
    destruct (SITEMAP_CACHE_TTL_MS env) as [[|c s]|];
      [reflexivity|discriminate|reflexivity].
  - unfold CACHE_TTL_MS, truthy.
    intros s -> H. destruct s; [discriminate|reflexivity].
  - unfold CACHE_TTL_MS. intros s -> Hd H0 H1 H2 H3.
    destruct s as [|c s]; [now contradiction H0|].
    destruct (Number_digitless (c :: s) Hd) as [E|[E|[E|[E|E]]]];
      [contradiction..|exact E].
  - unfold CACHE_TTL_MS. intros s -> R H N0 N1 N2.
    destruct s as [|c s]; [discriminate H|].
    now apply Number_not_decimal.
  - intros E.
    assert (F : forall cached now timestamp,
               fresh cached now timestamp (CACHE_TTL_MS env) = false).
    { intros cached now timestamp. rewrite E. unfold fresh.
      destruct cached; [apply andb_false_r|reflexivity]. }
    split; [exact F|]. intros w <-.
    assert (Hf : cache_fresh w = false) by apply F.
    split.
    + intros res. destruct (site_configured (process_env w)) eqn:Hs.
      * rewrite (serveSitemap_configured w Hs). cbn [snd].
        intros R. apply Ok_inj in R. subst res. discriminate.
      * rewrite (serveSitemap_rebuild w Hs Hf). cbn [snd].
        intros R. apply Ok_inj in R. subst res. discriminate.
    + intros Hs. now rewrite (serveSitemap_rebuild w Hs Hf).
Qed.

Lemma cache_ttl_setting_witness :
  CACHE_TTL_MS env_unset = of_int 3600000
  /\ CACHE_TTL_MS (env_ttl "1000") = Number (lit "1000")
  /\ CACHE_TTL_MS (env_ttl "one hour") = NaN
  /\ CACHE_TTL_MS (env_ttl "12abc") = NaN
  /\ CACHE_TTL_MS (env_ttl " 3600000ms ") = NaN
  /\ fresh (Some (lit "<urlset/>")) 1001 1000 (CACHE_TTL_MS (env_ttl "1 000")) = false
  /\ catalogCalls (fst (serveSitemap (warm (env_ttl "1h") 1001 (fun _ => Ok []))))
     = 1%nat.
Proof.
  split; [|split; [|split; [|split; [|split; [|split]]]]].
  - apply (proj1 (cache_ttl_setting env_unset)). reflexivity.
  - apply (proj1 (proj2 (cache_ttl_setting (env_ttl "1000"))) (lit "1000"));
      reflexivity.
  - apply (proj1 (proj2 (proj2 (cache_ttl_setting (env_ttl "one hour"))))
             (lit "one hour"));
      [reflexivity | reflexivity | discriminate..].
  - apply (proj1 (proj2 (proj2 (proj2 (cache_ttl_setting (env_ttl "12abc")))))
             (lit "12abc"));
      [reflexivity | reflexivity | reflexivity | discriminate..].
  - apply (proj1 (proj2 (proj2 (proj2 (cache_ttl_setting (env_ttl " 3600000ms ")))))
             (lit " 3600000ms "));
      [reflexivity | reflexivity | reflexivity | discriminate..].
  - apply (proj1 (proj2 (proj2 (proj2 (proj2 (cache_ttl_setting (env_ttl "1 000")))))
                   eq_refl)).
  - apply (proj2 (proj2 (proj2 (proj2 (proj2 (cache_ttl_setting (env_ttl "1h")))))
                   eq_refl)
             (warm (env_ttl "1h") 1001 (fun _ => Ok [])) eq_refl);
      reflexivity.
Defined.

(** ** The builder *)

(** C3, as stated, fails for slugs: the ampersand, the angle brackets and
    the double quote of a slug are percent-encoded, not replaced by
    their XML entities; only its apostrophe becomes an entity. With one
    ampersand in the input there is no [&amp;] in the entry. *)
Lemma slug_is_not_entity_escaped :
  slug awkward_slug = Some (lit "a&b<c>'d" ++ [34])
  /\ productEntry (VString (lit "https://example.com")) awkward_slug
     = Ok ([10] ++ lit "  <url>" ++ [10]
           ++ lit "    <loc>https://example.com/product/a%26b%3Cc%3E&apos;d%22</loc>"
           ++ [10] ++ lit "    " ++ [10]
           ++ lit "    <changefreq>weekly</changefreq>" ++ [10]
           ++ lit "    <priority>0.8</priority>" ++ [10]
           ++ lit "  </url>")
  /\ ~ (forall site prod s e,
           slug prod = Some s -> truthy s = true ->
           productEntry (VString site) prod = Ok e ->
           occ (lit "&amp;") e = (occ (lit "&") site + occ (lit "&") s)%nat
           /\ occ (lit "&lt;") e = (occ (lit "<") site + occ (lit "<") s)%nat).
Proof.
  split; [reflexivity|]. split; [reflexivity|].
  intros H.
  destruct (H (lit "https://example.com") awkward_slug _ _ eq_refl eq_refl eq_refl)
    as [E _].
  vm_compute in E. discriminate E.
Qed.

(** C3, amended. [escapeXml] replaces every reserved character of its
    argument by the entity of that character and keeps everything else,
    so its result holds no raw [<], [>], double quote or apostrophe, and
    every ampersand in it starts an entity. Every entry carries its
    location through [escapeXml], so the reserved characters of the base
    URL and of an identifier become entities. A slug is percent-encoded
    first: what is escaped holds none of [&], [<], [>] and the double
    quote, which have become %26, %3C, %3E and %22, and of the five only
    its apostrophe becomes an entity. In a document the builder returns,
    the reserved characters are those of the markup alone: their number
    is fixed by the number of entries and of lastmod lines, whatever the
    base URL, the slugs and the identifiers contain. *)
Theorem escaping_is_total :
  (forall str,
      escapeXml str = flat_map xml_entity str
      /\ lacks 60 (escapeXml str) = true
      /\ lacks 62 (escapeXml str) = true
      /\ lacks 34 (escapeXml str) = true
      /\ lacks 39 (escapeXml str) = true
      /\ ampersands_escaped (escapeXml str))
  /\ (forall loc lastmod changefreq priority e,
         urlEntry loc lastmod changefreq priority = Ok e ->
         contains e (lit "<loc>" ++ escapeXml loc ++ lit "</loc>"))
  /\ (forall site prod c s e,
         slug prod = Some (c :: s) -> code_units (c :: s) = true ->
         productEntry (VString site) prod = Ok e ->
         exists enc,
           encodeURIComponent (c :: s) = Ok enc
           /\ lacks 38 enc = true /\ lacks 60 enc = true
           /\ lacks 62 enc = true /\ lacks 34 enc = true
           /\ contains e
                (lit "<loc>" ++ escapeXml (strip_trailing_slash site)
                 ++ lit "/product/"
                 ++ flat_map (fun x => if x =? 39 then lit "&apos;" else [x]) enc
                 ++ lit "</loc>"))
  /\ (forall s, forallb (in_range 0 127) s = true ->
                encodeURIComponent s = Ok (flat_map percent_ascii s))
  /\ flat_map percent_ascii (lit "&<>'" ++ [34]) = lit "%26%3C%3E'%22"
  /\ (forall site prod e,
         slug prod = None \/ slug prod = Some [] ->
         productEntry (VString site) prod = Ok e ->
         contains e
           (lit "<loc>"
            ++ flat_map xml_entity
                 (strip_trailing_slash site ++ lit "/product/" ++ _id prod)
            ++ lit "</loc>"))
  /\ (forall site w products xml,
         catalog w (catalogCalls w) = Ok products ->
         snd (buildSitemapXml (VString site) w) = Ok xml ->
         let markup := (3 + 8 * (12 + List.length products)
                        + 2 * List.length (filter has_lastmod products))%nat in
         occ [60] xml = markup
         /\ occ [62] xml = markup
         /\ occ [34] xml = 6%nat
         /\ occ [39] xml = 0%nat
         /\ ampersands_escaped xml).
Proof.
  split; [|split; [|split; [|split; [|split; [|split]]]]].
  - intros str. split; [apply escapeXml_flat_map|].
    repeat split; try (apply escapeXml_lacks; reflexivity).
    apply tidy_escapeXml.
  - intros loc lastmod cf pr e H.
    apply urlEntry_Ok in H as (tag & _ & ->). apply entry_text_contains_loc.
  - intros site prod c s e Hs Hu He.
    apply productEntry_Ok in He as (ident & Hi & He).
    unfold identifier in Hi. rewrite Hs in Hi.
    destruct (encodeURIComponent (c :: s)) as [enc|] eqn:E; [|discriminate Hi].
    cbn [rbind] in Hi. apply Ok_inj in Hi. subst ident.
    pose proof (encodeURIComponent_safe (c :: s) enc Hu E) as Safe.
    exists enc. split; [reflexivity|].
    do 4 (split; [now apply uri_safe_lacks|]).
    apply urlEntry_Ok in He as (tag & _ & ->).
    pose proof (entry_text_contains_loc
                  (strip_trailing_slash site ++ lit "/" ++ lit "product/" ++ enc)
                  tag (lit "weekly") (priority_toString 80)) as C.
    rewrite !escapeXml_app, (escapeXml_uri_safe enc Safe) in C.
    rewrite <- !app_assoc in C. exact C.
  - exact encodeURIComponent_ascii.
  - reflexivity.
  - intros site prod e Hs He.
    apply productEntry_Ok in He as (ident & Hi & He).
    assert (E : ident = lit "product/" ++ _id prod).
    { unfold identifier in Hi.
      destruct Hs as [Hs|Hs]; rewrite Hs in Hi; apply Ok_inj in Hi;
        now symmetry. }
    subst ident. apply urlEntry_Ok in He as (tag & _ & ->).
    rewrite <- escapeXml_flat_map. apply entry_text_contains_loc.
  - intros site w products xml Hc Hb.
    apply buildSitemapXml_Ok in Hb as (products' & Hc' & Hb).
    rewrite Hc in Hc'. injection Hc' as <-.
    cbv zeta. repeat split.
    + rewrite (build_occ [60] 8 10 3 site products xml urlEntry_lt document_lt Hb).
      change 10%nat with (8 + 2)%nat. rewrite list_sum_entry_counts. lia.
    + rewrite (build_occ [62] 8 10 3 site products xml urlEntry_gt document_gt Hb).
      change 10%nat with (8 + 2)%nat. rewrite list_sum_entry_counts. lia.
    + rewrite (build_occ [34] 0 0 6 site products xml).
      * change 0%nat with (0 + 0)%nat at 3. rewrite list_sum_entry_counts. lia.
      * intros. replace (per_entry 0 0 lm) with 0%nat by now destruct lm.
        eapply urlEntry_quot; eassumption.
      * apply document_quot.
      * exact Hb.
    + rewrite (build_occ [39] 0 0 0 site products xml).
      * change 0%nat with (0 + 0)%nat at 3. rewrite list_sum_entry_counts. lia.
      * intros. replace (per_entry 0 0 lm) with 0%nat by now destruct lm.
        eapply urlEntry_apos; eassumption.
      * apply document_apos.
      * exact Hb.
    + now apply (build_tidy site products).
Qed.

Lemma escaping_is_total_witness :
  (exists e,
      urlEntry awkward_site None (lit "weekly") 80 = Ok e
      /\ contains e (lit "<loc>" ++ escapeXml awkward_site ++ lit "</loc>"))
  /\ (exists enc,
         encodeURIComponent (lit "a&b<c>'d" ++ [34]) = Ok enc
         /\ lacks 38 enc = true /\ lacks 60 enc = true
         /\ lacks 62 enc = true /\ lacks 34 enc = true
         /\ contains
              ([10] ++ lit "  <url>" ++ [10]
               ++ lit "    <loc>https://example.com/product/a%26b%3Cc%3E&apos;d%22</loc>"
               ++ [10] ++ lit "    " ++ [10]
               ++ lit "    <changefreq>weekly</changefreq>" ++ [10]
               ++ lit "    <priority>0.8</priority>" ++ [10]
               ++ lit "  </url>")
              (lit "<loc>" ++ escapeXml (strip_trailing_slash (lit "https://example.com/"))
               ++ lit "/product/"
               ++ flat_map (fun x => if x =? 39 then lit "&apos;" else [x]) enc
               ++ lit "</loc>"))
  /\ exists xml,
       snd (buildSitemapXml (VString awkward_site)
              (initial env_unset (fun _ => 0) (fun _ => Ok [awkward_slug; awkward_id])))
       = Ok xml
       /\ occ [60] xml = 117%nat
       /\ occ [62] xml = 117%nat
       /\ occ [34] xml = 6%nat
       /\ occ [39] xml = 0%nat
       /\ ampersands_escaped xml.
Proof.
  split; [|split].
  - eexists. split; [reflexivity|].
    apply (proj1 (proj2 escaping_is_total) awkward_site None (lit "weekly") 80).
    reflexivity.
  - apply (proj1 (proj2 (proj2 escaping_is_total)) (lit "https://example.com/")
             awkward_slug 97 (lit "&b<c>'d" ++ [34]));
      reflexivity.
  - eexists. split; [reflexivity|].
    apply (proj2 (proj2 (proj2 (proj2 (proj2 (proj2 escaping_is_total))))) awkward_site
             (initial env_unset (fun _ => 0) (fun _ => Ok [awkward_slug; awkward_id]))
             [awkward_slug; awkward_id]);
      reflexivity.
Defined.

(** C6, as stated, fails: not every item gets an entry. An item whose
    update timestamp is an invalid Date gets none although its creation
    timestamp is valid: the builder throws RangeError("Invalid time
    value") instead of falling back. An item whose slug holds a lone
    surrogate gets none either: the builder throws URIError("URI
    malformed"). *)
Lemma invalid_update_date_is_no_fallback :
  updatedAt undated = Some InvalidDate
  /\ createdAt undated = Some (DateOf 1700000000000)
  /\ productEntry (VString (lit "https://example.com")) undated
     = Throw (RangeError (lit "Invalid time value"))
  /\ productEntry (VString (lit "https://example.com")) torn_slug
     = Throw (URIError (lit "URI malformed"))
  /\ ~ (forall site prod, exists e, productEntry (VString site) prod = Ok e).
Proof.
  repeat split; try reflexivity.
  intros H. destruct (H (lit "https://example.com") undated) as [e E].
  discriminate E.
Qed.

(** C6, amended. For an item whose slug holds no lone surrogate and whose
    timestamp to print is a valid date, the entry's location is the base
    URL followed by [/product/] and the percent-encoded slug when the
    slug is a non-empty string, and by the identifier otherwise. The
    encoded slug is made of unreserved characters, [%] and upper-case
    hexadecimal digits; for a slug of ASCII characters it is the slug
    with every character other than letters, digits and
    [- _ . ! ~ * ' ( )] replaced by [%] and its two hexadecimal digits.
    The lastmod line shows the update timestamp if there is one, else
    the creation timestamp, else it is left out; and what it shows is
    the calendar date of that timestamp, year-month-day, without time of
    day. Any other item gets no entry: the builder throws
    URIError("URI malformed") when the slug holds a lone surrogate, and
    else RangeError("Invalid time value"), also when the update
    timestamp is invalid and the creation timestamp is valid. *)
Theorem product_location_and_lastmod (site : jsstring) (prod : Product) :
  (buildable prod = true ->
   exists ident tag,
     productEntry (VString site) prod
     = Ok (entry_text (strip_trailing_slash site ++ lit "/" ++ ident) tag
             (lit "weekly") (lit "0.8"))
     /\ match slug prod with
        | Some (c :: s) =>
            exists enc,
              encodeURIComponent (c :: s) = Ok enc
              /\ ident = lit "product/" ++ enc
              /\ (code_units (c :: s) = true -> forallb uri_safe enc = true)
              /\ (forallb (in_range 0 127) (c :: s) = true ->
                  enc = flat_map percent_ascii (c :: s))
        | Some [] | None => ident = lit "product/" ++ _id prod
        end
     /\ match updatedAt prod, createdAt prod with
        | Some d, _ | None, Some d =>
            exists t text,
              new_Date d = DateOf t
              /\ tag = lit "<lastmod>" ++ text ++ lit "</lastmod>"
              /\ calendar_date t text
        | None, None => tag = []
        end)
  /\ (buildable prod = false ->
      productEntry (VString site) prod
      = Throw (match slug prod with
               | Some s => if isWellFormed s
                           then RangeError (lit "Invalid time value")
                           else URIError (lit "URI malformed")
               | None => RangeError (lit "Invalid time value")
               end)).
Proof.
  split; [|intros H; now rewrite (productEntry_throws site prod H)].
  unfold buildable. intros H. apply andb_prop in H as [Hs Hd].
  destruct (identifier_Ok prod) as (ident & Hi & Hpath).
  { destruct (slug prod); [assumption|exact I]. }
  assert (Htag : exists tag,
             lastmodTag (lastmod_of prod) = Ok tag
             /\ match updatedAt prod, createdAt prod with
                | Some d, _ | None, Some d =>
                    exists t text,
                      new_Date d = DateOf t
                      /\ tag = lit "<lastmod>" ++ text ++ lit "</lastmod>"
                      /\ calendar_date t text
                | None, None => tag = []
                end).
  { unfold lastmod_of in *.
    destruct (updatedAt prod) as [d|]; [|destruct (createdAt prod) as [d|]].
    1,2: destruct (lastmodTag_valid d Hd) as (t & Ht & E);
      eexists; split; [exact E|];
      exists t, (iso_date t); repeat split; try assumption;
      apply iso_date_calendar_date.
    now exists []. }
  destruct Htag as (tag & Ht & Hlast).
  exists ident, tag. split; [|split]; [|clear Hlast|exact Hlast].
  - unfold productEntry, urlEntry. rewrite Hi. cbn [rbind replace_trailing_slash].
    now rewrite Ht.
  - destruct (slug prod) as [[|c s]|]; try assumption.
    destruct Hpath as (enc & He & ->). exists enc.
    split; [assumption|]. split; [reflexivity|]. split.
    + intros Hu. now apply (encodeURIComponent_safe (c :: s)).
    + intros Ha. rewrite (encodeURIComponent_ascii _ Ha) in He.
      apply Ok_inj in He. now symmetry.
Qed.

Lemma product_location_and_lastmod_witness :
  (exists ident tag,
      productEntry (VString (lit "https://example.com/")) red_shoes
      = Ok (entry_text (lit "https://example.com" ++ lit "/" ++ ident) tag
              (lit "weekly") (lit "0.8"))
      /\ (exists enc,
             encodeURIComponent (lit "red shoes") = Ok enc
             /\ ident = lit "product/" ++ enc
             /\ (code_units (lit "red shoes") = true -> forallb uri_safe enc = true)
             /\ (forallb (in_range 0 127) (lit "red shoes") = true ->
                 enc = flat_map percent_ascii (lit "red shoes")))
      /\ exists t text,
           new_Date (DateOf 1705312800000) = DateOf t
           /\ tag = lit "<lastmod>" ++ text ++ lit "</lastmod>"
           /\ calendar_date t text)
  /\ productEntry (VString (lit "https://example.com/")) undated
     = Throw (RangeError (lit "Invalid time value")).
Proof.
  split.
  - apply (proj1 (product_location_and_lastmod (lit "https://example.com/") red_shoes)).
    reflexivity.
  - apply (proj2 (product_location_and_lastmod (lit "https://example.com/") undated)).
    reflexivity.
Defined.

(** The entry of the sample item, spelled out *)
Example red_shoes_entry :
  flat_map percent_ascii (lit "red shoes") = lit "red%20shoes"
  /\ productEntry (VString (lit "https://example.com/")) red_shoes
     = Ok ([10] ++ lit "  <url>" ++ [10]
           ++ lit "    <loc>https://example.com/product/red%20shoes</loc>" ++ [10]
           ++ lit "    <lastmod>2024-01-15</lastmod>" ++ [10]
           ++ lit "    <changefreq>weekly</changefreq>" ++ [10]
           ++ lit "    <priority>0.8</priority>" ++ [10]
           ++ lit "  </url>").
Proof. split; reflexivity. Qed.

(** C7, as stated, fails: an item whose update timestamp is an invalid
    Date makes the builder throw RangeError("Invalid time value"), and so
    does not return a string for every sequence of items. *)
Lemma builder_throws_on_invalid_date :
  snd (buildSitemapXml (VString (lit "https://example.com"))
         (initial env_unset (fun _ => 0) (fun _ => Ok [red_shoes; undated])))
  = Throw (RangeError (lit "Invalid time value"))
  /\ ~ (forall site w products,
           catalog w (catalogCalls w) = Ok products ->
           exists xml, snd (buildSitemapXml (VString site) w) = Ok xml).
Proof.
  split; [reflexivity|].
  intros H.
  destruct (H (lit "https://example.com")
              (initial env_unset (fun _ => 0) (fun _ => Ok [red_shoes; undated]))
              [red_shoes; undated] eq_refl) as [xml E].
  discriminate E.
Qed.

(** C7, amended. For every base URL that is a string, well formed as a
    URL or not, and every sequence of items the catalog returns, the
    builder returns a string when no slug holds a lone surrogate and
    every timestamp it prints is a valid date. Otherwise it returns
    nothing: it throws at the first item that breaks one of the two
    rules, URIError("URI malformed") when the slug of that item holds a
    lone surrogate, and RangeError("Invalid time value") when it does
    not, whatever the items after it are. *)
Theorem builder_returns_or_throws (site : jsstring) (w : World)
    (products : list Product) :
  catalog w (catalogCalls w) = Ok products ->
  (forallb buildable products = true ->
   exists xml, snd (buildSitemapXml (VString site) w) = Ok xml)
  /\ (forallb buildable products = false ->
      exists good bad rest,
        products = good ++ bad :: rest
        /\ forallb buildable good = true
        /\ buildable bad = false
        /\ snd (buildSitemapXml (VString site) w)
           = Throw (match slug bad with
                    | Some s => if isWellFormed s
                                then RangeError (lit "Invalid time value")
                                else URIError (lit "URI malformed")
                    | None => RangeError (lit "Invalid time value")
                    end)).
Proof.
  intros Hc. rewrite buildSitemapXml_run, Hc. cbn [snd rbind]. split.
  - intros H. pose proof (build_buildable site products) as B.
    now rewrite H in B.
  - intros H. destruct (first_unbuildable products H)
      as (good & bad & rest & -> & Hg & Hb).
    exists good, bad, rest. repeat split; try assumption.
    rewrite (build_first_bad site good bad rest Hg Hb). reflexivity.
Qed.

Lemma builder_returns_or_throws_witness :
  (exists xml,
      snd (buildSitemapXml (VString (lit "not a url"))
             (initial env_unset (fun _ => 0)
                (fun _ => Ok [red_shoes; unnamed_item; awkward_slug; awkward_id])))
      = Ok xml)
  /\ exists good bad rest,
       [red_shoes; torn_slug; undated] = good ++ bad :: rest
       /\ forallb buildable good = true
       /\ buildable bad = false
       /\ snd (buildSitemapXml (VString (lit "https://example.com"))
                 (initial env_unset (fun _ => 0)
                    (fun _ => Ok [red_shoes; torn_slug; undated])))
          = Throw (match slug bad with
                   | Some s => if isWellFormed s
                               then RangeError (lit "Invalid time value")
                               else URIError (lit "URI malformed")
                   | None => RangeError (lit "Invalid time value")
                   end).
Proof.
  split.
  - apply (proj1 (builder_returns_or_throws (lit "not a url")
                    (initial env_unset (fun _ => 0)
                       (fun _ => Ok [red_shoes; unnamed_item; awkward_slug; awkward_id]))
                    [red_shoes; unnamed_item; awkward_slug; awkward_id] eq_refl)).
    reflexivity.
  - apply (proj2 (builder_returns_or_throws (lit "https://example.com")
                    (initial env_unset (fun _ => 0)
                       (fun _ => Ok [red_shoes; torn_slug; undated]))
                    [red_shoes; torn_slug; undated] eq_refl)).
    reflexivity.
Defined.

(** The two errors, spelled out: the first item at fault decides. *)
Example builder_errors :
  snd (buildSitemapXml (VString (lit "https://example.com"))
         (initial env_unset (fun _ => 0) (fun _ => Ok [red_shoes; torn_slug; undated])))
  = Throw (URIError (lit "URI malformed"))
  /\ snd (buildSitemapXml (VString (lit "https://example.com"))
            (initial env_unset (fun _ => 0) (fun _ => Ok [undated; torn_slug])))
     = Throw (RangeError (lit "Invalid time value")).
Proof. split; reflexivity. Qed.

(** C8. What the builder returns depends on its argument and on what the
    catalog answers, and on nothing else of the process: not on the
    clock, the cache, the environment or the console. It reads no clock
    value and writes neither the cache nor the console; the one trace it
    leaves is the catalog query. Called again after itself, with the
    catalog answering the same, it returns the same. *)
Theorem builder_is_deterministic (siteUrl : jsvalue) :
  (forall w1 w2,
      catalog w1 (catalogCalls w1) = catalog w2 (catalogCalls w2) ->
      snd (buildSitemapXml siteUrl w1) = snd (buildSitemapXml siteUrl w2))
  /\ (forall w,
         fst (buildSitemapXml siteUrl w)
         = mkWorld (process_env w) (cachedXml w) (cacheTimestamp w) (clock w)
             (clockReads w) (catalog w) (S (catalogCalls w)) (console w))
  /\ (forall w,
         catalog w (S (catalogCalls w)) = catalog w (catalogCalls w) ->
         snd (buildSitemapXml siteUrl (fst (buildSitemapXml siteUrl w)))
         = snd (buildSitemapXml siteUrl w)).
Proof.
  split; [|split].
  - intros w1 w2 H. rewrite !buildSitemapXml_run. cbn [snd]. now rewrite H.
  - intros w. now rewrite buildSitemapXml_run.
  - intros w H. rewrite !buildSitemapXml_run. cbn [fst snd catalog catalogCalls].
    now rewrite H.
Qed.

Lemma builder_is_deterministic_witness :
  snd (buildSitemapXml (VString (lit "https://example.com"))
         (initial env_unset (fun _ => 0) (fun _ => Ok [red_shoes])))
  = snd (buildSitemapXml (VString (lit "https://example.com"))
           (warm env_site 1705312800000
              (fun k => match k with O => Ok [red_shoes] | _ => Throw down end)))
  /\ snd (buildSitemapXml (VString (lit "https://example.com"))
            (fst (buildSitemapXml (VString (lit "https://example.com"))
                    (initial env_unset (fun _ => 0) (fun _ => Ok [red_shoes])))))
     = snd (buildSitemapXml (VString (lit "https://example.com"))
              (initial env_unset (fun _ => 0) (fun _ => Ok [red_shoes]))).
Proof.
  split.
  - apply (proj1 (builder_is_deterministic (VString (lit "https://example.com")))).
    reflexivity.
  - apply (proj2 (proj2 (builder_is_deterministic (VString (lit "https://example.com"))))).
    reflexivity.
Defined.

(** C9. When the catalog is empty the builder returns the XML
    declaration, then the one [urlset] element in the namespace
    http://www.sitemaps.org/schemas/sitemap/0.9, opened once and closed
    once, holding one [url] element for each of the twelve static pages,
    in the order of the list, and nothing else. *)
Theorem empty_catalog_document (site : jsstring) (w : World) :
  catalog w (catalogCalls w) = Ok [] ->
  exists xml,
    snd (buildSitemapXml (VString site) w) = Ok xml
    /\ xml = lit "<?xml version=" ++ [34] ++ lit "1.0" ++ [34]
             ++ lit " encoding=" ++ [34] ++ lit "UTF-8" ++ [34] ++ lit "?>"
             ++ [10] ++ lit "<urlset" ++ [10] ++ lit "    xmlns=" ++ [34]
             ++ lit "http://www.sitemaps.org/schemas/sitemap/0.9" ++ [34]
             ++ lit ">"
             ++ flat_map
                  (fun pg =>
                     [10]
                     ++ entry_text (strip_trailing_slash site ++ fst (fst pg)) []
                          (snd (fst pg)) (snd pg))
                  listed_pages
             ++ [10] ++ lit "</urlset>"
    /\ List.length listed_pages = 12%nat
    /\ occ (lit "<urlset") xml = 1%nat
    /\ occ (lit "</urlset>") xml = 1%nat
    /\ occ (lit "<url>") xml = 12%nat.
Proof.
  intros Hc.
  assert (Hb : build (VString site) [] = Ok (document (map (static_text site) staticPages))).
  { unfold build.
    rewrite (for_of_map _ (static_text site)) by apply staticEntry_text.
    cbn [rbind for_of]. now rewrite app_nil_r. }
  exists (document (map (static_text site) staticPages)).
  split; [rewrite buildSitemapXml_run, Hc; exact Hb|].
  destruct (url_elements site [] _ Hb) as (Hopen & Hclose & Hurl).
  rewrite Nat.add_0_r in Hurl.
  split; [|now repeat split].
  unfold document, xml_declaration, urlset_open, sitemap_namespace, NL, DQ.
  rewrite <- !app_assoc. do 17 f_equal.
  change (map (static_text site) staticPages)
    with (map (fun pg => entry_text (strip_trailing_slash site ++ fst (fst pg)) []
                           (snd (fst pg)) (snd pg)) listed_pages).
  apply join_map_lines. discriminate.
Qed.

Lemma empty_catalog_document_witness :
  exists xml,
    snd (buildSitemapXml (VString (lit "https://example.com/"))
           (initial env_unset (fun _ => 0) (fun _ => Ok [])))
    = Ok xml
    /\ xml = lit "<?xml version=" ++ [34] ++ lit "1.0" ++ [34]
             ++ lit " encoding=" ++ [34] ++ lit "UTF-8" ++ [34] ++ lit "?>"
             ++ [10] ++ lit "<urlset" ++ [10] ++ lit "    xmlns=" ++ [34]
             ++ lit "http://www.sitemaps.org/schemas/sitemap/0.9" ++ [34]
             ++ lit ">"
             ++ flat_map
                  (fun pg =>
                     [10]
                     ++ entry_text (lit "https://example.com" ++ fst (fst pg)) []
                          (snd (fst pg)) (snd pg))
                  listed_pages
             ++ [10] ++ lit "</urlset>"
    /\ List.length listed_pages = 12%nat
    /\ occ (lit "<urlset") xml = 1%nat
    /\ occ (lit "</urlset>") xml = 1%nat
    /\ occ (lit "<url>") xml = 12%nat.
Proof.
  apply (empty_catalog_document (lit "https://example.com/")
           (initial env_unset (fun _ => 0) (fun _ => Ok []))).
  reflexivity.
Defined.

(** C10. An item whose slug is the empty string gets the entry of the
    same item without a slug: its location is built from the identifier. *)
Theorem empty_slug_uses_identifier (siteUrl : jsvalue) (id : jsstring)
    (updated created : option Date) :
  identifier {| _id := id; slug := Some [];
                updatedAt := updated; createdAt := created |}
  = Ok (lit "product/" ++ id)
  /\ productEntry siteUrl {| _id := id; slug := Some [];
                             updatedAt := updated; createdAt := created |}
     = productEntry siteUrl {| _id := id; slug := None;
                               updatedAt := updated; createdAt := created |}
  /\ forall site,
       productEntry (VString site) {| _id := id; slug := Some [];
                                      updatedAt := None; createdAt := None |}
       = Ok (entry_text (strip_trailing_slash site ++ lit "/product/" ++ id) []
               (lit "weekly") (lit "0.8")).
Proof. repeat split. Qed.

(** * Further statements *)

(** ** Cross-origin requests (server.js) *)

(** X1. Whatever CLIENT_URL holds, the list of allowed origins contains
    http://localhost:5173, and a request from that origin is accepted
    with or without a trailing slash, without a line in the log. *)
Theorem local_origin_always_allowed (client_url : option jsstring) :
  In (lit "http://localhost:5173") (allowedOrigins client_url)
  /\ corsOrigin (allowedOrigins client_url) (Some (lit "http://localhost:5173"))
     = ([], Allow)
  /\ corsOrigin (allowedOrigins client_url) (Some (lit "http://localhost:5173/"))
     = ([], Allow).
Proof.
  pose proof (allowedOrigins_localhost client_url) as H.
  apply includes_In in H.
  split; [now apply includes_In|].
  split; apply corsOrigin_Allow; unfold allows.
  - change (strip_trailing_slash (lit "http://localhost:5173"))
      with localhost_dev.
    now rewrite H.
  - change (strip_trailing_slash (lit "http://localhost:5173/"))
      with localhost_dev.
    now rewrite H.
Qed.

(** X2. Every entry of the comma-separated CLIENT_URL that is not blank
    is accepted as an origin when sent as it is written there, blanks
    around it aside. *)
Theorem listed_origin_allowed (c u : jsstring) :
  In u (split_on 44 c) ->
  truthy (trim u) = true ->
  corsOrigin (allowedOrigins (Some c)) (Some (trim u)) = ([], Allow).
Proof.
  intros Hin Ht. apply corsOrigin_Allow. unfold allows.
  assert (H : In (strip_trailing_slash (trim u)) (allowedOrigins (Some c))).
  { apply allowedOrigins_listed. unfold listedOrigins, rawClientEnv.
    apply in_map, filter_In. split; [now apply in_map|assumption]. }
  apply includes_In in H. now rewrite H.
Qed.

Lemma listed_origin_allowed_witness :
  corsOrigin
    (allowedOrigins (Some (lit " https://shop.example.com/ ,https://admin.example.com")))
    (Some (trim (lit " https://shop.example.com/ ")))
  = ([], Allow).
Proof.
  apply (listed_origin_allowed
           (lit " https://shop.example.com/ ,https://admin.example.com")
           (lit " https://shop.example.com/ ")).
  - left. reflexivity.
  - reflexivity.
Defined.

(** X3. An origin that ends in [.nip.io] is accepted whatever the list of
    allowed origins is, with or without a trailing slash, and nothing is
    logged. *)
Theorem nip_io_always_allowed (allowed : list jsstring) (o : jsstring) :
  endsWith o (lit ".nip.io") = true ->
  corsOrigin allowed (Some o) = ([], Allow)
  /\ corsOrigin allowed (Some (o ++ lit "/")) = ([], Allow).
Proof.
  intros H. destruct (endsWith_inv _ _ H) as [a ->].
  assert (E : strip_trailing_slash (a ++ lit ".nip.io") = a ++ lit ".nip.io").
  { exact (strip_trailing_slash_keeps a (lit ".nip.i") 111 ltac:(discriminate)). }
  split; apply corsOrigin_Allow; unfold allows.
  - rewrite E, H. now rewrite !orb_true_r.
  - rewrite strip_trailing_slash_slash, H. now rewrite !orb_true_r.
Qed.

Lemma nip_io_always_allowed_witness :
  corsOrigin [] (Some (lit "http://10.0.0.7.nip.io")) = ([], Allow)
  /\ corsOrigin [] (Some (lit "http://10.0.0.7.nip.io" ++ lit "/")) = ([], Allow).
Proof.
  apply (nip_io_always_allowed [] (lit "http://10.0.0.7.nip.io")). reflexivity.
Defined.

(** X4. An entry [*] accepts every origin; an entry [*.d] or [.d] accepts
    every origin that, a trailing slash removed, ends in [.d]. *)
Theorem wildcard_entries (allowed : list jsstring) (d o : jsstring) :
  (In (lit "*") allowed -> corsOrigin allowed (Some o) = ([], Allow))
  /\ (In (lit "*." ++ d) allowed \/ In (lit "." ++ d) allowed ->
      endsWith (strip_trailing_slash o) (lit "." ++ d) = true ->
      corsOrigin allowed (Some o) = ([], Allow)).
Proof.
  split.
  - intros H. apply corsOrigin_Allow. unfold allows.
    apply includes_In in H. rewrite H. now rewrite orb_true_r.
  - intros H E. apply corsOrigin_Allow. unfold allows.
    assert (M : existsb (matchesPattern (strip_trailing_slash o)) allowed = true).
    { apply existsb_exists. destruct H as [H|H]; eexists; (split; [exact H|]).
      - exact E.
      - unfold matchesPattern.
        change (startsWith (lit "." ++ d) (lit "*.")) with false.
        change (startsWith (lit "." ++ d) (lit ".")) with true.
        exact E. }
    rewrite M. now rewrite !orb_true_r.
Qed.

Lemma wildcard_entries_witness :
  corsOrigin [lit "*"] (Some (lit "https://anything.example")) = ([], Allow)
  /\ corsOrigin [lit "*.example.com"] (Some (lit "https://shop.example.com/"))
     = ([], Allow)
  /\ corsOrigin [lit ".example.com"] (Some (lit "https://shop.example.com"))
     = ([], Allow).
Proof.
  split; [|split].
  - apply (proj1 (wildcard_entries [lit "*"] [] (lit "https://anything.example"))).
    left. reflexivity.
  - apply (proj2 (wildcard_entries [lit "*.example.com"] (lit "example.com")
                    (lit "https://shop.example.com/"))).
    + left. left. reflexivity.
    + reflexivity.
  - apply (proj2 (wildcard_entries [lit ".example.com"] (lit "example.com")
                    (lit "https://shop.example.com"))).
    + right. left. reflexivity.
    + reflexivity.
Defined.

(** X5. Adding entries to CLIENT_URL never turns an accepted origin into
    a refused one. *)
Theorem more_entries_allow_more (c1 c2 : jsstring) (origin : option jsstring) :
  snd (corsOrigin (allowedOrigins (Some c1)) origin) = Allow ->
  snd (corsOrigin (allowedOrigins (Some (c1 ++ lit "," ++ c2))) origin) = Allow.
Proof.
  destruct origin as [[|c s]|]; try reflexivity.
  rewrite !corsOrigin_allows.
  destruct (allows (allowedOrigins (Some c1)) (c :: s)) eqn:A; [|discriminate].
  intros _.
  rewrite (allows_incl (allowedOrigins (Some c1))
             (allowedOrigins (Some (c1 ++ lit "," ++ c2))) (c :: s)); auto.
  intros x Hx. unfold allowedOrigins in Hx.
  assert (L : In x (listedOrigins (Some c1)) \/ x = localhost_dev).
  { destruct (includes (listedOrigins (Some c1)) localhost_dev); [now left|].
    apply in_app_or in Hx as [Hx|[Hx|[]]]; auto. }
  destruct L as [L| ->]; [|apply allowedOrigins_localhost].
  apply allowedOrigins_listed. rewrite listedOrigins_app.
  apply in_or_app. now left.
Qed.

Lemma more_entries_allow_more_witness :
  snd (corsOrigin
         (allowedOrigins (Some (lit "https://shop.example.com" ++ lit ","
                                ++ lit "https://admin.example.com")))
         (Some (lit "https://shop.example.com/")))
  = Allow.
Proof.
  apply (more_entries_allow_more (lit "https://shop.example.com")
           (lit "https://admin.example.com") (Some (lit "https://shop.example.com/"))).
  reflexivity.
Defined.

(** X6. A request without an Origin header passes; a request whose origin
    is refused by all four rules is answered 403, without success, with a
    message that names the origin as it was sent. *)
Theorem refused_origin_answered_403 (client_url : option jsstring) :
  cors_gate client_url None = None
  /\ cors_gate client_url (Some []) = None
  /\ forall c s,
       cors_gate client_url (Some (c :: s))
       = if allows (allowedOrigins client_url) (c :: s) then None
         else Some (forbidden (c :: s)).
Proof.
  split; [reflexivity|]. split; [reflexivity|].
  intros c s. unfold cors_gate. rewrite corsOrigin_allows.
  destruct (allows (allowedOrigins client_url) (c :: s)); [reflexivity|].
  cbn [snd]. unfold errorHandler, cors_error, forbidden.
  cbn [err_message err_status].
  replace (startsWith (lit "Not allowed by CORS: " ++ c :: s)
             (lit "Not allowed by CORS")) with true; [reflexivity|].
  symmetry. unfold startsWith.
  change (lit "Not allowed by CORS: " ++ c :: s)
    with (lit "Not allowed by CORS" ++ (lit ": " ++ c :: s)).
  apply prefixb_app.
Qed.

Example refused_origin_sample :
  cors_gate (Some (lit "https://shop.example.com")) (Some (lit "https://evil.example"))
  = Some (forbidden (lit "https://evil.example"))
  /\ cors_gate (Some (lit "https://shop.example.com"))
       (Some (lit "https://shop.example.com.evil.example"))
     = Some (forbidden (lit "https://shop.example.com.evil.example"))
  /\ cors_gate (Some (lit "https://shop.example.com")) (Some (lit "https://shop.example.com/"))
     = None.
Proof. repeat split. Qed.

(** X7. When no entry of the list begins with a dot or a star, an origin
    is accepted exactly when, a trailing slash removed, it is an entry of
    the list or ends in [.nip.io]. With CLIENT_URL unset this leaves the
    local development origin and the nip.io hosts. *)
Theorem full_origins_only (allowed : list jsstring) (c : Z) (s : jsstring) :
  (forall a, In a allowed ->
             startsWith a (lit ".") = false /\ startsWith a (lit "*") = false) ->
  (snd (corsOrigin allowed (Some (c :: s))) = Allow
   <-> In (strip_trailing_slash (c :: s)) allowed
       \/ endsWith (strip_trailing_slash (c :: s)) (lit ".nip.io") = true).
Proof.
  intros H. rewrite corsOrigin_allows.
  assert (W : includes allowed (lit "*") = false).
  { destruct (includes allowed (lit "*")) eqn:E; [|reflexivity].
    apply includes_In, H in E as [_ E]. discriminate E. }
  assert (P : existsb (matchesPattern (strip_trailing_slash (c :: s))) allowed = false).
  { destruct (existsb _ allowed) eqn:E; [|reflexivity].
    apply existsb_exists in E as (a & Ha & E).
    destruct (H a Ha) as [Hd Hs].
    now rewrite (matchesPattern_exact _ a Hd Hs) in E. }
  unfold allows. rewrite W, P, orb_false_r, orb_false_r.
  destruct (includes allowed (strip_trailing_slash (c :: s))) eqn:I.
  - cbn [orb snd]. split; [|reflexivity]. intros _. left. now apply includes_In.
  - cbn [orb].
    destruct (endsWith (strip_trailing_slash (c :: s)) (lit ".nip.io")) eqn:N;
      cbn [snd].
    + split; [now right|reflexivity].
    + split; [discriminate|]. intros [K|K]; [|discriminate].
      apply includes_In in K. congruence.
Qed.

Lemma full_origins_only_witness :
  snd (corsOrigin (allowedOrigins None) (Some (lit "https://shop.example.com/")))
  = Allow
  <-> In (strip_trailing_slash (lit "https://shop.example.com/")) (allowedOrigins None)
      \/ endsWith (strip_trailing_slash (lit "https://shop.example.com/"))
           (lit ".nip.io") = true.
Proof.
  apply (full_origins_only (allowedOrigins None) 104
           (tl (lit "https://shop.example.com/"))).
  intros a [<-|[]]; split; reflexivity.
Defined.

Example default_list_refuses_other_origins :
  allowedOrigins None = [localhost_dev]
  /\ corsOrigin (allowedOrigins None) (Some (lit "https://shop.example.com/"))
     = ([([10060] ++ lit " CORS Blocked Origin:", lit "https://shop.example.com/")],
        Deny (cors_error (lit "https://shop.example.com/"))).
Proof. split; reflexivity. Qed.

(** ** The handler (serveSitemap) *)

(** X8. Once the catalog query, if one is made, has settled, the handler
    answers the request and lets no exception out. It answers either
    with status 500 and the text "Server error generating sitemap",
    after writing one line to the console, or with status 200, the
    content type application/xml and the document that was in the
    cache, without a catalog query and without writing to the console.
    It reads the clock and queries the catalog at most once, and it
    leaves the cache as it found it. *)
Theorem handler_always_answers (w : World) :
  exists res,
    snd (serveSitemap w) = Ok res
    /\ ((res = {| status := 500; contentType := None;
                  body := lit "Server error generating sitemap" |}
         /\ exists e,
              console (fst (serveSitemap w))
              = console w
                ++ [(lit "Error generating sitemap:",
                     if truthy (message e) then LogMessage (message e)
                     else LogError e)])
        \/ (exists xml,
               res = {| status := 200;
                        contentType := Some (lit "application/xml");
                        body := xml |}
               /\ cachedXml w = Some xml
               /\ console (fst (serveSitemap w)) = console w
               /\ catalogCalls (fst (serveSitemap w)) = catalogCalls w))
    /\ (catalogCalls (fst (serveSitemap w)) <= S (catalogCalls w))%nat
    /\ (clockReads (fst (serveSitemap w)) <= S (clockReads w))%nat
    /\ cachedXml (fst (serveSitemap w)) = cachedXml w
    /\ cacheTimestamp (fst (serveSitemap w)) = cacheTimestamp w.
Proof.
  destruct (site_configured (process_env w)) eqn:Hs.
  - rewrite (serveSitemap_configured w Hs). cbn [fst snd catalogCalls clockReads
      cachedXml cacheTimestamp console].
    exists send_error. repeat split; try lia.
    left. split; [reflexivity|]. now exists constant_assignment.
  - destruct (cache_fresh w) eqn:Hf.
    + destruct (serveSitemap_fresh w Hs Hf) as (xml & Hc & ->).
      cbn [fst snd catalogCalls clockReads cachedXml cacheTimestamp console].
      exists (send_xml xml). repeat split; try lia.
      right. now exists xml.
    + rewrite (serveSitemap_rebuild w Hs Hf).
      cbn [fst snd catalogCalls clockReads cachedXml cacheTimestamp console].
      exists send_error. repeat split; try lia.
      left. split; [reflexivity|]. now exists (rebuild_error w).
Qed.

(** X9. A process that has just started never serves a sitemap: whatever
    the configuration, the clock and the way the catalog queries settle,
    each of its requests, however many, is answered with status 500 and
    the text "Server error generating sitemap", and the cache stays
    empty. *)
Theorem no_sitemap_after_startup (env : Env) (clock : nat -> Z)
    (catalog : nat -> result (list Product)) (n : nat) :
  Forall (fun r => r = Ok {| status := 500; contentType := None;
                             body := lit "Server error generating sitemap" |})
    (snd (requests n (initial env clock catalog)))
  /\ List.length (snd (requests n (initial env clock catalog))) = n
  /\ cachedXml (fst (requests n (initial env clock catalog))) = None.
Proof.
  destruct (requests_all_fail n (initial env clock catalog) eq_refl) as [A B].
  split; [exact A|]. split; [apply requests_length|exact B].
Qed.

(** X10. From startup the cache never saves a catalog query: with neither
    SITE_URL nor CLIENT_URL set, every request goes to the catalog, so
    after [n] requests the catalog has been queried [n] times; with one
    of the two set, it is never queried. *)
Theorem cache_never_saves_a_query (env : Env) (clock : nat -> Z)
    (catalog : nat -> result (list Product)) (n : nat) :
  catalogCalls (fst (requests n (initial env clock catalog)))
  = if site_configured env then 0%nat else n.
Proof.
  rewrite (requests_catalogCalls n (initial env clock catalog) eq_refl).
  cbn [process_env catalogCalls initial]. now destruct (site_configured env).
Qed.

Example three_requests_three_queries :
  catalogCalls
    (fst (requests 3 (initial (env_ttl "3600000") (fun k => 1000 * Z.of_nat k)
                        (fun _ => Ok [red_shoes]))))
  = 3%nat
  /\ catalogCalls
       (fst (requests 3 (initial env_site (fun k => 1000 * Z.of_nat k)
                           (fun _ => Ok [red_shoes]))))
     = 0%nat.
Proof. split; reflexivity. Qed.

(** X11. With SITE_URL or CLIENT_URL set to anything but the empty
    string, every request is answered with status 500 and the text
    "Server error generating sitemap", and logs the TypeError of the
    assignment to the constant, "Assignment to constant variable.", also
    when the cache holds a fresh document; neither the clock nor the
    catalog is consulted. *)
Theorem configured_site_fails_fast (w : World) :
  site_configured (process_env w) = true ->
  serveSitemap w
  = (mkWorld (process_env w) (cachedXml w) (cacheTimestamp w) (clock w)
       (clockReads w) (catalog w) (catalogCalls w)
       (console w
        ++ [(lit "Error generating sitemap:",
             LogMessage (lit "Assignment to constant variable."))]),
     Ok {| status := 500; contentType := None;
           body := lit "Server error generating sitemap" |}).
Proof. intros Hs. rewrite (serveSitemap_configured w Hs). reflexivity. Qed.

Lemma configured_site_fails_fast_witness :
  serveSitemap (warm env_client 1500 (fun _ => Ok [red_shoes]))
  = (mkWorld env_client (Some (lit "<urlset/>")) 1000 (fun _ => 1500) 0
       (fun _ => Ok [red_shoes]) 0
       [(lit "Error generating sitemap:",
         LogMessage (lit "Assignment to constant variable."))],
     Ok {| status := 500; contentType := None;
           body := lit "Server error generating sitemap" |}).
Proof.
  apply (configured_site_fails_fast (warm env_client 1500 (fun _ => Ok [red_shoes]))).
  reflexivity.
Defined.

(** X12. A TTL setting made of decimal digits only, of value below 2^53,
    is taken at its value: a cached document is fresh exactly when it is
    not empty and its age in milliseconds is below that value. *)
Theorem decimal_ttl (env : Env) (s : jsstring) :
  SITEMAP_CACHE_TTL_MS env = Some s ->
  s <> [] ->
  forallb is_digit s = true ->
  decimal_value s < 2 ^ 53 ->
  CACHE_TTL_MS env = of_int (decimal_value s)
  /\ forall xml now timestamp,
       fresh (Some xml) now timestamp (CACHE_TTL_MS env)
       = truthy xml && (now - timestamp <? decimal_value s).
Proof.
  intros Hs Hne Hd Hv.
  assert (E : CACHE_TTL_MS env = of_int (decimal_value s)).
  { unfold CACHE_TTL_MS. rewrite Hs. destruct s as [|c r]; [contradiction|].
    now apply Number_digits. }
  split; [exact E|]. intros xml now timestamp. rewrite E.
  unfold fresh. rewrite int_sub_lt; [reflexivity|].
  split; [now apply decimal_value_nonneg|assumption].
Qed.

Lemma decimal_ttl_witness :
  CACHE_TTL_MS (env_ttl "0060000") = of_int 60000
  /\ forall xml now timestamp,
       fresh (Some xml) now timestamp (CACHE_TTL_MS (env_ttl "0060000"))
       = truthy xml && (now - timestamp <? 60000).
Proof.
  apply (decimal_ttl (env_ttl "0060000") (lit "0060000"));
    [reflexivity | discriminate | reflexivity | reflexivity].
Defined.

(** ** The builder (escapeXml, urlEntry, buildSitemapXml) *)

(** X13. Escaping loses nothing: two different texts never escape to the
    same text. It never shortens a text, and it returns a text as it is
    exactly when the text holds none of the five reserved characters. *)
Theorem escaping_is_faithful :
  (forall s1 s2, escapeXml s1 = escapeXml s2 -> s1 = s2)
  /\ (forall s, (List.length s <= List.length (escapeXml s))%nat)
  /\ (forall s, escapeXml s = s <-> plain s = true).
Proof.
  split; [exact escapeXml_inj|]. split; [exact escapeXml_length|].
  intros s. split; [apply escapeXml_fixed|apply escapeXml_plain].
Qed.

Lemma escaping_is_faithful_witness :
  lit "a&b" = lit "a" ++ lit "&b"
  /\ plain (lit "https://example.com/product/red%20shoes") = true
  /\ escapeXml (lit "https://example.com/about") = lit "https://example.com/about".
Proof.
  split; [|split].
  - apply (proj1 escaping_is_faithful). reflexivity.
  - apply (proj1 (proj2 (proj2 escaping_is_faithful) _)). reflexivity.
  - apply (proj2 (proj2 (proj2 escaping_is_faithful) _)). reflexivity.
Defined.

(** X14. A base URL that does not end in a slash and the same URL with
    one slash added give the same run of the builder, result and state. *)
Theorem trailing_slash_is_ignored (site : jsstring) (w : World) :
  endsWith site (lit "/") = false ->
  buildSitemapXml (VString (site ++ lit "/")) w
  = buildSitemapXml (VString site) w.
Proof.
  intros H. rewrite !buildSitemapXml_run. f_equal.
  destruct (catalog w (catalogCalls w)) as [products|e]; [|reflexivity].
  cbn [rbind]. apply build_same_base.
  now rewrite strip_trailing_slash_slash, strip_trailing_slash_id.
Qed.

Lemma trailing_slash_is_ignored_witness :
  buildSitemapXml (VString (lit "https://example.com" ++ lit "/"))
    (initial env_unset (fun _ => 0) (fun _ => Ok [red_shoes]))
  = buildSitemapXml (VString (lit "https://example.com"))
      (initial env_unset (fun _ => 0) (fun _ => Ok [red_shoes])).
Proof.
  apply (trailing_slash_is_ignored (lit "https://example.com")). reflexivity.
Defined.

(** Only one slash is removed. *)
Example two_trailing_slashes :
  staticEntry (VString (lit "https://example.com//"))
    {| path := lit "/about"; changefreq := lit "monthly"; priority := 70 |}
  = Ok (entry_text (lit "https://example.com//about") [] (lit "monthly") (lit "0.7")).
Proof. reflexivity. Qed.

(** X15. Whatever the catalog returns, a document the builder returns
    holds one urlset element, one url element and one loc element for
    each static page and each item, and as many lastmod elements as there
    are items with an update or creation timestamp. *)
Theorem element_counts (site : jsstring) (w : World) (products : list Product)
    (xml : jsstring) :
  catalog w (catalogCalls w) = Ok products ->
  snd (buildSitemapXml (VString site) w) = Ok xml ->
  occ (lit "<urlset") xml = 1%nat
  /\ occ (lit "</urlset>") xml = 1%nat
  /\ occ (lit "<url>") xml = (12 + List.length products)%nat
  /\ occ (lit "<loc>") xml = (12 + List.length products)%nat
  /\ occ (lit "<lastmod>") xml = List.length (filter has_lastmod products).
Proof.
  intros Hc Hb. apply buildSitemapXml_Ok in Hb as (products' & Hc' & Hb).
  rewrite Hc in Hc'. injection Hc' as <-.
  destruct (url_elements site products xml Hb) as (H1 & H2 & H3).
  repeat split; try assumption.
  - rewrite (build_occ _ 1 1 0 site products xml urlEntry_loc document_loc Hb).
    change (entry_counts_of 1 1 products) with (entry_counts_of 1 (1 + 0) products).
    rewrite list_sum_entry_counts. lia.
  - rewrite (build_occ _ 0 1 0 site products xml urlEntry_lastmod document_lastmod Hb).
    change (entry_counts_of 0 1 products) with (entry_counts_of 0 (0 + 1) products).
    rewrite list_sum_entry_counts. lia.
Qed.

Lemma element_counts_witness :
  exists xml,
    snd (buildSitemapXml (VString (lit "https://example.com"))
           (initial env_unset (fun _ => 0)
              (fun _ => Ok [red_shoes; awkward_slug; unnamed_item])))
    = Ok xml
    /\ occ (lit "<urlset") xml = 1%nat
    /\ occ (lit "</urlset>") xml = 1%nat
    /\ occ (lit "<url>") xml = 15%nat
    /\ occ (lit "<loc>") xml = 15%nat
    /\ occ (lit "<lastmod>") xml = 2%nat.
Proof.
  eexists. split; [reflexivity|].
  apply (element_counts (lit "https://example.com")
           (initial env_unset (fun _ => 0)
              (fun _ => Ok [red_shoes; awkward_slug; unnamed_item]))
           [red_shoes; awkward_slug; unnamed_item]);
    reflexivity.
Defined.

(** X16. Whatever the catalog returns, a document the builder returns
    lists every static page, and lists every item under the location
    built from its path. *)
Theorem every_entry_is_listed (site : jsstring) (w : World)
    (products : list Product) (xml : jsstring) :
  catalog w (catalogCalls w) = Ok products ->
  snd (buildSitemapXml (VString site) w) = Ok xml ->
  Forall (fun pg => contains xml (static_text site pg)) staticPages
  /\ Forall (fun prod =>
               exists ident,
                 identifier prod = Ok ident
                 /\ contains xml
                      (lit "<loc>"
                       ++ escapeXml (strip_trailing_slash site ++ lit "/" ++ ident)
                       ++ lit "</loc>"))
       products.
Proof.
  intros Hc Hb. apply buildSitemapXml_Ok in Hb as (products' & Hc' & Hb).
  rewrite Hc in Hc'. injection Hc' as <-.
  apply build_Ok in Hb as (statics & prods & Hs & Hp & ->).
  split; apply Forall_forall.
  - intros pg Hin.
    destruct (Forall2_In_l _ _ _ pg Hs Hin) as (e & He & Hr).
    rewrite staticEntry_text in Hr. injection Hr as <-.
    apply document_contains, in_or_app. now left.
  - intros prod Hin.
    destruct (Forall2_In_l _ _ _ prod Hp Hin) as (e & He & Hr).
    apply productEntry_Ok in Hr as (ident & Hi & Hu).
    apply urlEntry_Ok in Hu as (tag & _ & ->).
    exists ident. split; [assumption|].
    apply (contains_trans _ (entry_text (strip_trailing_slash site ++ lit "/" ++ ident)
                               tag (lit "weekly") (priority_toString 80))).
    + apply document_contains, in_or_app. now right.
    + apply entry_text_contains_loc.
Qed.

Lemma every_entry_is_listed_witness :
  exists xml,
    snd (buildSitemapXml (VString (lit "https://example.com/"))
           (initial env_unset (fun _ => 0) (fun _ => Ok [red_shoes; unnamed_item])))
    = Ok xml
    /\ Forall (fun pg => contains xml (static_text (lit "https://example.com/") pg))
         staticPages
    /\ Forall (fun prod =>
                 exists ident,
                   identifier prod = Ok ident
                   /\ contains xml
                        (lit "<loc>"
                         ++ escapeXml (strip_trailing_slash (lit "https://example.com/")
                                       ++ lit "/" ++ ident)
                         ++ lit "</loc>"))
         [red_shoes; unnamed_item].
Proof.
  eexists. split; [reflexivity|].
  apply (every_entry_is_listed (lit "https://example.com/")
           (initial env_unset (fun _ => 0) (fun _ => Ok [red_shoes; unnamed_item]))
           [red_shoes; unnamed_item]);
    reflexivity.
Defined.

(** X17. When the catalog returns items of which one cannot be built,
    the builder returns no document: it throws what the first such item
    throws, URIError("URI malformed") for a lone surrogate in its slug
    and otherwise RangeError("Invalid time value") for its invalid date,
    whatever follows it. *)
Theorem first_bad_item_decides (site : jsstring) (w : World)
    (good : list Product) (bad : Product) (rest : list Product) :
  catalog w (catalogCalls w) = Ok (good ++ bad :: rest) ->
  forallb buildable good = true ->
  buildable bad = false ->
  snd (buildSitemapXml (VString site) w)
  = Throw (match slug bad with
           | Some s => if isWellFormed s
                       then RangeError (lit "Invalid time value")
                       else URIError (lit "URI malformed")
           | None => RangeError (lit "Invalid time value")
           end).
Proof.
  intros Hc Hg Hb. rewrite buildSitemapXml_run, Hc. cbn [snd rbind].
  rewrite (build_first_bad site good bad rest Hg Hb). reflexivity.
Qed.

Lemma first_bad_item_decides_witness :
  snd (buildSitemapXml (VString (lit "https://example.com"))
         (initial env_unset (fun _ => 0)
            (fun _ => Ok ([red_shoes] ++ torn_slug :: [undated]))))
  = Throw (URIError (lit "URI malformed"))
  /\ snd (buildSitemapXml (VString (lit "https://example.com"))
            (initial env_unset (fun _ => 0)
               (fun _ => Ok ([red_shoes; unnamed_item] ++ undated :: [torn_slug]))))
     = Throw (RangeError (lit "Invalid time value")).
Proof.
  split.
  - apply (first_bad_item_decides (lit "https://example.com")
             (initial env_unset (fun _ => 0)
                (fun _ => Ok ([red_shoes] ++ torn_slug :: [undated])))
             [red_shoes] torn_slug [undated]);
      reflexivity.
  - apply (first_bad_item_decides (lit "https://example.com")
             (initial env_unset (fun _ => 0)
                (fun _ => Ok ([red_shoes; unnamed_item] ++ undated :: [torn_slug])))
             [red_shoes; unnamed_item] undated [torn_slug]);
      reflexivity.
Defined.

(** X18. Two valid timestamps give the same lastmod line exactly when
    they fall on the same UTC day. *)
Theorem same_day_same_lastmod (t1 t2 : Z) :
  Z.abs t1 <= maxTime -> Z.abs t2 <= maxTime ->
  (lastmodTag (Some (DateOf t1)) = lastmodTag (Some (DateOf t2))
   <-> Day t1 = Day t2).
Proof.
  intros V1 V2.
  assert (T : forall t, Z.abs t <= maxTime ->
                        lastmodTag (Some (DateOf t))
                        = Ok (lit "<lastmod>" ++ iso_date t ++ lit "</lastmod>")).
  { intros t V.
    destruct (lastmodTag_valid (DateOf t)) as (t' & E & ->).
    - unfold valid_date, new_Date. now rewrite (proj2 (Z.leb_le _ _) V).
    - unfold new_Date in E. rewrite (proj2 (Z.leb_le _ _) V) in E.
      now injection E as <-. }
  rewrite (T t1 V1), (T t2 V2). split.
  - intros H. apply Ok_inj, app_inv_head, app_inv_tail in H.
    now apply iso_date_inj.
  - intros H. now rewrite (Day_determines_date t1 t2 H).
Qed.

Lemma same_day_same_lastmod_witness :
  lastmodTag (Some (DateOf 1705312800000)) = lastmodTag (Some (DateOf 1705276800000))
  /\ Day 1705363199999 = Day 1705276800000.
Proof.
  split.
  - apply (proj2 (same_day_same_lastmod 1705312800000 1705276800000
                    ltac:(unfold maxTime; lia) ltac:(unfold maxTime; lia))).
    reflexivity.
  - apply (proj1 (same_day_same_lastmod 1705363199999 1705276800000
                    ltac:(unfold maxTime; lia) ltac:(unfold maxTime; lia))).
    reflexivity.
Defined.

(** ** Item paths (buildSitemapXml, the loop over the products) *)

(** X19. Two items with different non-empty slugs never get the same
    path: when the paths built from two slugs are equal, so are the
    slugs. *)
Theorem distinct_slugs_distinct_paths (p1 p2 : Product) (s1 s2 i : jsstring) :
  slug p1 = Some s1 -> slug p2 = Some s2 ->
  truthy s1 = true -> truthy s2 = true ->
  code_units s1 = true -> code_units s2 = true ->
  identifier p1 = Ok i -> identifier p2 = Ok i ->
  s1 = s2.
Proof.
  unfold identifier. intros -> -> T1 T2 U1 U2.
  destruct s1 as [|c1 r1]; [discriminate|].
  destruct s2 as [|c2 r2]; [discriminate|].
  destruct (encodeURIComponent (c1 :: r1)) as [e1|] eqn:E1; [|discriminate].
  destruct (encodeURIComponent (c2 :: r2)) as [e2|] eqn:E2; [|discriminate].
  cbn [rbind]. intros H1 H2. apply Ok_inj in H1, H2. subst i.
  apply app_inv_head in H2. subst e2.
  exact (encodeURIComponent_inj _ _ e1 U1 U2 E1 E2).
Qed.

Lemma distinct_slugs_distinct_paths_witness :
  lit "red shoes" = lit "red" ++ lit " shoes".
Proof.
  apply (distinct_slugs_distinct_paths red_shoes
           {| _id := lit "1"; slug := Some (lit "red" ++ lit " shoes");
              updatedAt := None; createdAt := None |}
           (lit "red shoes") (lit "red" ++ lit " shoes")
           (lit "product/red%20shoes"));
    reflexivity.
Defined.

(** X20. The path of an item with a non-empty slug is product/ followed
    by the slug as it is exactly when the slug holds only letters, digits
    and the marks - _ . ! ~ * ' ( ). *)
Theorem plain_slug_is_kept (prod : Product) (s : jsstring) :
  slug prod = Some s -> truthy s = true ->
  (identifier prod = Ok (lit "product/" ++ s)
   <-> forallb uri_unescaped s = true).
Proof.
  unfold identifier. intros -> T. destruct s as [|c r]; [discriminate|].
  split.
  - destruct (encodeURIComponent (c :: r)) as [e|] eqn:E; [|discriminate].
    cbn [rbind]. intros H. apply Ok_inj, app_inv_head in H. subst e.
    now apply encodeURIComponent_fixed.
  - intros H. now rewrite (encodeURIComponent_unescaped _ H).
Qed.

Lemma plain_slug_is_kept_witness :
  identifier {| _id := lit "1"; slug := Some (lit "red-shoes_2");
                updatedAt := None; createdAt := None |}
  = Ok (lit "product/" ++ lit "red-shoes_2")
  /\ forallb uri_unescaped (lit "blue.hat") = true.
Proof.
  split.
  - apply (proj2 (plain_slug_is_kept
                    {| _id := lit "1"; slug := Some (lit "red-shoes_2");
                       updatedAt := None; createdAt := None |}
                    (lit "red-shoes_2") eq_refl eq_refl)).
    reflexivity.
  - apply (proj1 (plain_slug_is_kept
                    {| _id := lit "2"; slug := Some (lit "blue.hat");
                       updatedAt := None; createdAt := None |}
                    (lit "blue.hat") eq_refl eq_refl)).
    reflexivity.
Defined.

(** ** GET /health (routes/healthRoutes.js) *)

(** X21. At any instant from 1970 to the end of the year 9999 the health
    route answers, with status ok, with the whole seconds of the uptime,
    which is not negative when the uptime is not, and with a timestamp of
    the form dddd-dd-ddTdd:dd:dd.dddZ. *)
Theorem health_answers (uptimeSeconds : Q) (now : Z) :
  (0 <= uptimeSeconds)%Q ->
  0 <= now <= 253402300799999 ->
  exists h,
    health uptimeSeconds now = Ok h
    /\ health_status h = lit "ok"
    /\ 0 <= health_uptime h
    /\ (inject_Z (health_uptime h) <= uptimeSeconds)%Q
    /\ (uptimeSeconds < inject_Z (health_uptime h + 1))%Q
    /\ fits timestamp_shape (health_timestamp h) = true.
Proof.
  intros Hu Hn. unfold health, new_Date.
  replace (Z.abs now <=? maxTime) with true
    by (symmetry; apply Z.leb_le; unfold maxTime; lia).
  unfold toISOString. cbn [rbind]. eexists. split; [reflexivity|].
  cbn [health_status health_uptime health_timestamp].
  split; [reflexivity|]. split; [|split; [|split]].
  - change 0 with (Qfloor 0). now apply Qfloor_resp_le.
  - apply Qfloor_le.
  - apply Qlt_floor.
  - apply toISOString_shape, four_digit_year. lia.
Qed.

Lemma health_answers_witness :
  exists h,
    health (12345678 # 1000) 1705312800000 = Ok h
    /\ health_status h = lit "ok"
    /\ 0 <= health_uptime h
    /\ (inject_Z (health_uptime h) <= 12345678 # 1000)%Q
    /\ (12345678 # 1000 < inject_Z (health_uptime h + 1))%Q
    /\ fits timestamp_shape (health_timestamp h) = true.
Proof.
  apply (health_answers (12345678 # 1000) 1705312800000).
  - discriminate.
  - lia.
Defined.

Example health_sample :
  health (12345678 # 1000) 1705312800000
  = Ok {| health_status := lit "ok"; health_uptime := 12345;
          health_timestamp := lit "2024-01-15T10:00:00.000Z" |}.
Proof. reflexivity. Qed.

(** X22. The timestamp of a health answer names its instant: two answers
    with the same timestamp were given at the same millisecond. *)
Theorem health_timestamp_names_the_instant (u1 u2 : Q) (t1 t2 : Z)
    (h1 h2 : Health) :
  health u1 t1 = Ok h1 ->
  health u2 t2 = Ok h2 ->
  health_timestamp h1 = health_timestamp h2 ->
  t1 = t2.
Proof.
  unfold health, new_Date.
  destruct (Z.leb_spec (Z.abs t1) maxTime) as [V1|]; [|discriminate].
  destruct (Z.leb_spec (Z.abs t2) maxTime) as [V2|]; [|discriminate].
  intros H1 H2 E.
  destruct (toISOString (DateOf t1)) as [s1|] eqn:E1; [|discriminate].
  destruct (toISOString (DateOf t2)) as [s2|] eqn:E2; [|discriminate].
  cbn [rbind] in H1, H2. apply Ok_inj in H1, H2. subst h1 h2.
  cbn [health_timestamp] in E. subst s2.
  apply toISOString_inj; [assumption..|congruence].
Qed.

Lemma health_timestamp_names_the_instant_witness :
  1705312800000 = 1705312800000 + 0.
Proof.
  apply (health_timestamp_names_the_instant (1 # 2) (7 # 1)
           1705312800000 (1705312800000 + 0)
           {| health_status := lit "ok"; health_uptime := 0;
              health_timestamp := lit "2024-01-15T10:00:00.000Z" |}
           {| health_status := lit "ok"; health_uptime := 7;
              health_timestamp := lit "2024-01-15T10:00:00.000Z" |});
    reflexivity.
Defined.
